(** * WB_Tech_L0: order ingestion and lookup

    A shallow embedding of the Go packages [model], [data_base],
    [caching] (package [ristrettocache]), [kafka] and [transport]
    (package [httptransport]), and the properties of the order pipeline
    proved over it.

    Conventions.
    - Go [int] is [Z]; the values a Go [int] can hold are those of
      [in_int64].
    - Go [string] is [string] (a sequence of bytes).
    - A call that returns [(T, error)] returns [result T]; a call that
      returns [error] returns [option error] ([None] is Go's [nil]).
    - Objects that Go mutates in place (the cache, the database, the
      service) are passed and returned explicitly.
    - [slog] output and [context.Context] are not modelled; neither is
      [model.NewFakeOrder], which draws an order at random.
    - What the libraries do (time, encoding/json, ristretto, pgx on
      PostgreSQL) is modelled as far as the repository relies on it;
      each model says what it keeps. *)

From Stdlib Require Import ZArith Ascii String List Lia Bool Sorted.
From stdpp Require Import base option list strings gmap.

Local Open Scope string_scope.
Local Open Scope Z_scope.

(** ** Results and bytes *)

Inductive result (E A : Type) : Type :=
| Ok (a : A)
| Err (e : E).
Arguments Ok {E A} a.
Arguments Err {E A} e.

Definition byte_val (c : ascii) : Z := Z.of_N (N_of_ascii c).

Definition byte_of (n : Z) : ascii := ascii_of_N (Z.to_N n).

Definition isDigit (c : ascii) : bool :=
  (48 <=? byte_val c) && (byte_val c <=? 57).

Definition digit_val (c : ascii) : Z := byte_val c - 48.

Definition digit_char (d : Z) : ascii := byte_of (48 + d).

Definition in_int64 (n : Z) : bool := (- 2 ^ 63 <=? n) && (n <? 2 ^ 63).

Definition len {A} (l : list A) : Z := Z.of_nat (List.length l).

Definition strlen (s : string) : Z := Z.of_nat (String.length s).

(** ** Package time, as far as the layout [time.RFC3339] needs it

    A [time.Time] is kept by the civil fields that [time.Date] takes and
    [Format] prints, together with its location.  [time.Local] is not
    told apart from a fixed zone of the same offset. *)

Module time.

Inductive Location : Type :=
| UTC
| FixedZone (offset : Z).

Record Time : Type := Date {
  Year : Z;
  Month : Z;
  Day : Z;
  Hour : Z;
  Minute : Z;
  Second : Z;
  Nanosecond : Z;
  Loc : Location
}.

(** The zero value [time.Time{}]: January 1, year 1, 00:00:00 UTC. *)
Definition zero : Time := Date 1 1 1 0 0 0 0 UTC.

Definition zone_offset (l : Location) : Z :=
  match l with UTC => 0 | FixedZone off => off end.

Definition isLeap (year : Z) : bool :=
  (Z.rem year 4 =? 0) && (negb (Z.rem year 100 =? 0) || (Z.rem year 400 =? 0)).

Definition daysIn (m year : Z) : Z :=
  if (m =? 2) && isLeap year then 29
  else if m =? 2 then 28
  else if (m =? 4) || (m =? 6) || (m =? 9) || (m =? 11) then 30
  else 31.

(** The values [time.Date] returns: every field is normalised. *)
Definition normal (t : Time) : Prop :=
  1 <= Month t <= 12 /\ 1 <= Day t <= daysIn (Month t) (Year t) /\
  0 <= Hour t <= 23 /\ 0 <= Minute t <= 59 /\ 0 <= Second t <= 59 /\
  0 <= Nanosecond t <= 999999999.

(** *** Format *)

Fixpoint digits_of (fuel : nat) (u : Z) (acc : string) : string :=
  match fuel with
  | O => acc
  | S fuel' =>
      let acc' := String (digit_char (u mod 10)) acc in
      if u <? 10 then acc' else digits_of fuel' (u / 10) acc'
  end.

Fixpoint zeros (n : nat) : string :=
  match n with O => "" | S n' => String "0" (zeros n') end.

(** [appendInt]: the decimal form of [x], zero-padded to [width]. *)
Definition appendInt (x : Z) (width : nat) : string :=
  let u := Z.abs x in
  let sign := if x <? 0 then "-" else "" in
  let ds := digits_of 20 u "" in
  sign +:+ zeros (width - String.length ds) +:+ ds.

(** The layout ["2006-01-02T15:04:05Z07:00"]. *)
Definition Format (t : Time) : string :=
  let offset := zone_offset (Loc t) in
  let zone := Z.quot offset 60 in
  appendInt (Year t) 4 +:+ "-" +:+ appendInt (Month t) 2 +:+ "-" +:+
  appendInt (Day t) 2 +:+ "T" +:+ appendInt (Hour t) 2 +:+ ":" +:+
  appendInt (Minute t) 2 +:+ ":" +:+ appendInt (Second t) 2 +:+
  (if offset =? 0 then "Z"
   else (if zone <? 0 then "-" else "+") +:+
        appendInt (Z.quot (Z.abs zone) 60) 2 +:+ ":" +:+
        appendInt (Z.rem (Z.abs zone) 60) 2).

(** *** Parse

    [time.Parse] tries a fast path for RFC 3339 first and, when that
    fails, reads the value against the layout element by element.
    Whatever the fast path accepts the general reading accepts with
    the same result, so [Parse] is the general reading. *)

(** [getnum]: one or two digits; two are required when [fixed]. *)
Definition getnum (s : string) (fixed : bool) : option (Z * string) :=
  match s with
  | String a rest =>
      if isDigit a then
        match rest with
        | String b rest' =>
            if isDigit b then Some (digit_val a * 10 + digit_val b, rest')
            else if fixed then None else Some (digit_val a, rest)
        | EmptyString => if fixed then None else Some (digit_val a, rest)
        end
      else None
  | EmptyString => None
  end.

(** The element ["2006"]: exactly four digits. *)
Definition getyear (s : string) : option (Z * string) :=
  match s with
  | String a (String b (String c (String d rest))) =>
      if isDigit a && isDigit b && isDigit c && isDigit d
      then Some (((digit_val a * 10 + digit_val b) * 10 + digit_val c) * 10
                 + digit_val d, rest)
      else None
  | _ => None
  end.

(** A literal byte of the layout. *)
Definition skip (c : ascii) (s : string) : option string :=
  match s with
  | String a rest => if Ascii.eqb a c then Some rest else None
  | EmptyString => None
  end.

Definition commaOrPeriod (c : ascii) : bool :=
  Ascii.eqb c "." || Ascii.eqb c ",".

Fixpoint span_digits (s : string) : string * string :=
  match s with
  | String a rest =>
      if isDigit a
      then let '(ds, r) := span_digits rest in (String a ds, r)
      else ("", s)
  | EmptyString => ("", "")
  end.

Fixpoint atoi_acc (acc : Z) (ds : string) : Z :=
  match ds with
  | String a rest => atoi_acc (acc * 10 + digit_val a) rest
  | EmptyString => acc
  end.

Fixpoint take_str (n : nat) (s : string) : string :=
  match n, s with
  | S n', String a rest => String a (take_str n' rest)
  | _, _ => ""
  end.

(** [parseNanoseconds] on the digits after the separator: at most nine
    are read, and the value is scaled to nanoseconds. *)
Definition parseNanoseconds (ds : string) : Z :=
  let ds9 := take_str 9 ds in
  atoi_acc 0 ds9 * 10 ^ (9 - strlen ds9).

(** A fractional second in the value although the layout has none. *)
Definition getfrac (s : string) : Z * string :=
  match s with
  | String a (String b rest) =>
      if commaOrPeriod a && isDigit b
      then let '(ds, r) := span_digits (String b rest) in (parseNanoseconds ds, r)
      else (0, s)
  | _ => (0, s)
  end.

(** The element ["Z07:00"]. *)
Definition getzone (s : string) : option (Location * string) :=
  match s with
  | String sg rest =>
      if Ascii.eqb sg "Z" then Some (UTC, rest)
      else
        match rest with
        | String h1 (String h2 (String c (String m1 (String m2 rest')))) =>
            if negb (Ascii.eqb c ":") then None
            else
              match getnum (String h1 (String h2 EmptyString)) true,
                    getnum (String m1 (String m2 EmptyString)) true with
              | Some (hr, _), Some (mm, _) =>
                  if (24 <? hr) || (60 <? mm) then None
                  else
                    let zoneOffset := (hr * 60 + mm) * 60 in
                    if Ascii.eqb sg "+" then Some (FixedZone zoneOffset, rest')
                    else if Ascii.eqb sg "-" then Some (FixedZone (- zoneOffset), rest')
                    else None
              | _, _ => None
              end
        | _ => None
        end
  | EmptyString => None
  end.

Definition Parse (value : string) : option Time :=
  match getyear value with
  | None => None
  | Some (year, v) =>
  match skip "-" v with
  | None => None
  | Some v =>
  match getnum v true with
  | None => None
  | Some (month, v) =>
  if (month <=? 0) || (12 <? month) then None else
  match skip "-" v with
  | None => None
  | Some v =>
  match getnum v true with
  | None => None
  | Some (day, v) =>
  match skip "T" v with
  | None => None
  | Some v =>
  match getnum v false with
  | None => None
  | Some (hour, v) =>
  if 24 <=? hour then None else
  match skip ":" v with
  | None => None
  | Some v =>
  match getnum v true with
  | None => None
  | Some (min, v) =>
  if 60 <=? min then None else
  match skip ":" v with
  | None => None
  | Some v =>
  match getnum v true with
  | None => None
  | Some (sec, v) =>
  if 60 <=? sec then None else
  let '(nsec, v) := getfrac v in
  match getzone v with
  | None => None
  | Some (z, v) =>
  if negb (String.eqb v "") then None
  else if (day <? 1) || (daysIn month year <? day) then None
  else Some (Date year month day hour min sec nsec z)
  end end end end end end end end end end end end.

End time.


(** ** Package encoding/json, as far as the repository uses it

    The standard library's scanner reads a byte payload as a JSON text.
    The repository's code never looks below that level, so a payload is
    kept as what the scanner makes of it: [Malformed], or the first JSON
    value of the payload and whether further bytes other than blanks
    follow it ([json.Unmarshal] refuses those, a [json.Decoder] does not
    read them).  Strings are kept as the scanner unquotes them, without
    escapes and in well-formed UTF-8; an integer literal is kept by its
    value, any other number literal by its text. *)

#[warnings="-register-all"] Inductive json : Type :=
| JNull
| JBool (b : bool)
| JInt (n : Z)
| JFrac (literal : string)
| JString (s : string)
| JArray (elements : list json)
| JObject (members : list (string * json)).

Inductive payload : Type :=
| Malformed
| Doc (value : json) (trailing : bool).

Inductive json_error : Type :=
| SyntaxError
| UnmarshalTypeError (field : string)
| UnknownField (key : string)
| InvalidTimeFormat (text : string).

(** *** UTF-8

    [utf8_first s] is the length of the well-formed UTF-8 sequence that
    starts [s], or [0] when [s] starts with a byte that [utf8.DecodeRune]
    reads as [RuneError] of width 1. *)

Definition in_range (lo hi : Z) (c : ascii) : bool :=
  (lo <=? byte_val c) && (byte_val c <=? hi).

Definition utf8_first (s : string) : nat :=
  match s with
  | EmptyString => 0%nat
  | String a r =>
    if byte_val a <? 128 then 1%nat
    else match r with
    | EmptyString => 0%nat
    | String b r =>
      if in_range 194 223 a then (if in_range 128 191 b then 2%nat else 0%nat)
      else match r with
      | EmptyString => 0%nat
      | String c r =>
        if in_range 128 191 c &&
           ((in_range 224 224 a && in_range 160 191 b) ||
            ((in_range 225 236 a || in_range 238 239 a) && in_range 128 191 b) ||
            (in_range 237 237 a && in_range 128 159 b))
        then 3%nat
        else match r with
        | EmptyString => 0%nat
        | String d _ =>
          if in_range 128 191 c && in_range 128 191 d &&
             ((in_range 240 240 a && in_range 144 191 b) ||
              (in_range 241 243 a && in_range 128 191 b) ||
              (in_range 244 244 a && in_range 128 143 b))
          then 4%nat else 0%nat
        end
      end
    end
  end.

(** U+FFFD in UTF-8. *)
Definition replacement : string :=
  String (byte_of 239) (String (byte_of 191) (String (byte_of 189) EmptyString)).

(** What the encoder writes and the decoder reads for the bytes of a Go
    string: well-formed sequences as they are, any other byte as U+FFFD. *)
Fixpoint to_valid_utf8_fuel (fuel : nat) (s : string) : string :=
  match fuel with
  | O => EmptyString
  | S fuel' =>
    match s with
    | EmptyString => EmptyString
    | String a r =>
      match utf8_first s, r with
      | 4%nat, String b (String c (String d r')) =>
          String a (String b (String c (String d (to_valid_utf8_fuel fuel' r'))))
      | 3%nat, String b (String c r') =>
          String a (String b (String c (to_valid_utf8_fuel fuel' r')))
      | 2%nat, String b r' => String a (String b (to_valid_utf8_fuel fuel' r'))
      | 1%nat, _ => String a (to_valid_utf8_fuel fuel' r)
      | _, _ => replacement +:+ to_valid_utf8_fuel fuel' r
      end
    end
  end.

Definition to_valid_utf8 (s : string) : string :=
  to_valid_utf8_fuel (String.length s) s.

Definition utf8_valid (s : string) : Prop := to_valid_utf8 s = s.

(** *** Field names

    A member's key selects the field whose name is equal to it under
    [foldName]: ASCII letters fold to upper case, and so do the two
    runes whose simple case folding reaches an ASCII letter, U+017F
    (to S) and U+212A (to K).  The names of this schema are ASCII, and
    no two of one struct fold to the same text. *)

Definition upper (c : ascii) : ascii :=
  if in_range 97 122 c then byte_of (byte_val c - 32) else c.

Fixpoint foldName (s : string) : string :=
  match s with
  | EmptyString => EmptyString
  | String a r =>
    if (byte_val a =? 197) then
      match r with
      | String b r' =>
          if byte_val b =? 191 then String "S" (foldName r')
          else String a (foldName r)
      | EmptyString => String a EmptyString
      end
    else if (byte_val a =? 226) then
      match r with
      | String b (String c r') =>
          if (byte_val b =? 132) && (byte_val c =? 170) then String "K" (foldName r')
          else String a (foldName r)
      | _ => String a (foldName r)
      end
    else String (upper a) (foldName r)
  end.

Definition key_is (key name : string) : bool :=
  String.eqb (foldName key) (foldName name).

(** *** The decoder's state

    A decoding step returns a value and the error saved so far
    ([d.saveError] keeps the first), or stops with the error of an
    [UnmarshalJSON] method. *)

Definition Dec (A : Type) : Type :=
  option json_error -> result json_error (A * option json_error).

Definition dec_ret {A} (a : A) : Dec A := fun saved => Ok (a, saved).

Definition dec_bind {A B} (m : Dec A) (k : A -> Dec B) : Dec B :=
  fun saved =>
    match m saved with
    | Ok (a, saved') => k a saved'
    | Err e => Err e
    end.

Definition saveError (e : json_error) : Dec unit :=
  fun saved =>
    match saved with
    | Some _ => Ok (tt, saved)
    | None => Ok (tt, Some e)
    end.

Definition dec_fail {A} (e : json_error) : Dec A := fun _ => Err e.

Notation "x <-- m ;;; k" := (dec_bind m (fun x => k))
  (at level 100, m at next level, right associativity).

(** [d.unmarshal]: the saved error, if any, is the result. *)
Definition run_dec {A} (m : Dec A) : result json_error A :=
  match m None with
  | Ok (a, None) => Ok a
  | Ok (_, Some e) => Err e
  | Err e => Err e
  end.

(** A JSON string into a Go [string]. *)
Definition dec_string (field : string) (v : json) (old : string) : Dec string :=
  match v with
  | JString s => dec_ret s
  | JNull => dec_ret old
  | _ => _ <-- saveError (UnmarshalTypeError field) ;;; dec_ret old
  end.

(** A JSON number into a Go [int]: [strconv.ParseInt] of the literal. *)
Definition dec_int (field : string) (v : json) (old : Z) : Dec Z :=
  match v with
  | JInt n =>
      if in_int64 n then dec_ret n
      else _ <-- saveError (UnmarshalTypeError field) ;;; dec_ret old
  | JNull => dec_ret old
  | _ => _ <-- saveError (UnmarshalTypeError field) ;;; dec_ret old
  end.

(** The members of a JSON object into a struct, one after the other. *)
Fixpoint dec_members {A} (step : string -> json -> A -> Dec A)
    (members : list (string * json)) (old : A) : Dec A :=
  match members with
  | [] => dec_ret old
  | (k, v) :: rest => a <-- step k v old ;;; dec_members step rest a
  end.

Definition dec_struct {A} (field : string) (step : string -> json -> A -> Dec A)
    (v : json) (old : A) : Dec A :=
  match v with
  | JObject members => dec_members step members old
  | JNull => dec_ret old
  | _ => _ <-- saveError (UnmarshalTypeError field) ;;; dec_ret old
  end.

(** The elements of a JSON array into a slice: element [i] is decoded
    into the slice's element [i] when it has one and into a zero value
    otherwise, and the slice ends with the array's length.  (The slice
    has elements already when the key of the field comes a second time.
    At a third time the decoder can meet, beyond the slice's length,
    elements that a longer array left there; they are read as zero
    values here.) *)
Fixpoint dec_elements {A} (elem : json -> A -> Dec A) (zero : A)
    (elements : list json) (old : list A) : Dec (list A) :=
  match elements with
  | [] => dec_ret []
  | v :: rest =>
      a <-- elem v (hd zero old) ;;;
      l <-- dec_elements elem zero rest (tl old) ;;;
      dec_ret (a :: l)
  end.

(** A Go slice is [None] when nil. *)
Definition slice_elems {A} (s : option (list A)) : list A :=
  match s with Some l => l | None => [] end.

Definition dec_slice {A} (field : string) (elem : json -> A -> Dec A) (zero : A)
    (v : json) (old : option (list A)) : Dec (option (list A)) :=
  match v with
  | JArray elements =>
      l <-- dec_elements elem zero elements (slice_elems old) ;;; dec_ret (Some l)
  | JNull => dec_ret None
  | _ => _ <-- saveError (UnmarshalTypeError field) ;;; dec_ret old
  end.

(** ** Errors

    The [error] values the repository's functions create or pass on. *)

Inductive error : Type :=
| InvalidJSONStructure (cause : json_error)
    (* model.ParseOrder: "invalid JSON structure: %w" *)
| TooManyProducts
    (* model.ParseOrder: "too many products in the order" *)
| InvalidOrderFormat
    (* kafka.decodeOrder: "invalid order format in Kafka message" *)
| SerializeFailed
    (* kafka.SendOrder: "failed to serialize order to JSON" *)
| ErrNoRows
    (* pgx.ErrNoRows, from Scan on a query without a row *)
| ErrConn
    (* the connection or the server fails a call *)
| ErrUniqueViolation (table : string)
    (* a primary key is already taken *)
| ErrIntegerOutOfRange (table : string)
    (* a value does not fit an INTEGER column *)
| ErrCacheConfig.
    (* ristretto.NewCache refuses its configuration *)

(** ** Package model *)

Module model.

Record AddressDetails : Type := {
  FullName : string;  (* json:"name" *)
  Phone : string;     (* json:"phone" *)
  ZipCode : string;   (* json:"zip" *)
  City : string;      (* json:"city" *)
  Street : string;    (* json:"address" *)
  Region : string;    (* json:"region" *)
  Email : string      (* json:"email" *)
}.

Record PaymentDetails : Type := {
  TransactionID : string;  (* json:"transaction" *)
  RequestID : string;      (* json:"request_id" *)
  Currency : string;       (* json:"currency" *)
  Provider : string;       (* json:"provider" *)
  Amount : Z;              (* json:"amount" *)
  PaymentDate : Z;         (* json:"payment_dt" *)
  Bank : string;           (* json:"bank" *)
  DeliveryCost : Z;        (* json:"delivery_cost" *)
  TotalGoods : Z;          (* json:"goods_total" *)
  CustomFee : Z            (* json:"custom_fee" *)
}.

Record ProductItem : Type := {
  ChartID : Z;           (* json:"chrt_id" *)
  TrackingNum : string;  (* json:"track_number" *)
  Price : Z;             (* json:"price" *)
  RID : string;          (* json:"rid" *)
  Name : string;         (* json:"name" *)
  Discount : Z;          (* json:"sale" *)
  Size : string;         (* json:"size" *)
  TotalPrice : Z;        (* json:"total_price" *)
  ProductID : Z;         (* json:"nm_id" *)
  Brand : string;        (* json:"brand" *)
  Status : Z             (* json:"status" *)
}.

Definition ISO8601Time : Type := time.Time.

Record OrderDetails : Type := {
  OrderID : string;                       (* json:"order_uid" *)
  TrackingNumber : string;                (* json:"track_number" *)
  EntryPoint : string;                    (* json:"entry" *)
  Address : AddressDetails;               (* json:"delivery" *)
  Payment : PaymentDetails;               (* json:"payment" *)
  Products : option (list ProductItem);   (* json:"items" *)
  Locale : string;                        (* json:"locale" *)
  Signature : string;                     (* json:"internal_signature" *)
  CustomerID : string;                    (* json:"customer_id" *)
  DeliveryService : string;               (* json:"delivery_service" *)
  ShardKey : string;                      (* json:"shardkey" *)
  SMID : Z;                               (* json:"sm_id" *)
  CreationTimestamp : ISO8601Time;        (* json:"date_created" *)
  OutOfShard : string                     (* json:"oof_shard" *)
}.

(** Zero values. *)
Definition zero_AddressDetails : AddressDetails :=
  Build_AddressDetails "" "" "" "" "" "" "".

Definition zero_PaymentDetails : PaymentDetails :=
  Build_PaymentDetails "" "" "" "" 0 0 "" 0 0 0.

Definition zero_ProductItem : ProductItem :=
  Build_ProductItem 0 "" 0 "" "" 0 "" 0 0 "" 0.

Definition zero_OrderDetails : OrderDetails :=
  Build_OrderDetails "" "" "" zero_AddressDetails zero_PaymentDetails None
    "" "" "" "" "" 0 time.zero "".

(** [len(order.Products)] *)
Definition len_Products (o : OrderDetails) : Z := len (slice_elems (Products o)).

(** Assignments to one field. *)
Definition set_FullName x a := let '(Build_AddressDetails _ b c d e f g) := a in Build_AddressDetails x b c d e f g.
Definition set_Phone x a := let '(Build_AddressDetails b _ c d e f g) := a in Build_AddressDetails b x c d e f g.
Definition set_ZipCode x a := let '(Build_AddressDetails b c _ d e f g) := a in Build_AddressDetails b c x d e f g.
Definition set_City x a := let '(Build_AddressDetails b c d _ e f g) := a in Build_AddressDetails b c d x e f g.
Definition set_Street x a := let '(Build_AddressDetails b c d e _ f g) := a in Build_AddressDetails b c d e x f g.
Definition set_Region x a := let '(Build_AddressDetails b c d e f _ g) := a in Build_AddressDetails b c d e f x g.
Definition set_Email x a := let '(Build_AddressDetails b c d e f g _) := a in Build_AddressDetails b c d e f g x.

Definition set_TransactionID x p := let '(Build_PaymentDetails _ b c d e f g h i j) := p in Build_PaymentDetails x b c d e f g h i j.
Definition set_RequestID x p := let '(Build_PaymentDetails a _ c d e f g h i j) := p in Build_PaymentDetails a x c d e f g h i j.
Definition set_Currency x p := let '(Build_PaymentDetails a b _ d e f g h i j) := p in Build_PaymentDetails a b x d e f g h i j.
Definition set_Provider x p := let '(Build_PaymentDetails a b c _ e f g h i j) := p in Build_PaymentDetails a b c x e f g h i j.
Definition set_Amount x p := let '(Build_PaymentDetails a b c d _ f g h i j) := p in Build_PaymentDetails a b c d x f g h i j.
Definition set_PaymentDate x p := let '(Build_PaymentDetails a b c d e _ g h i j) := p in Build_PaymentDetails a b c d e x g h i j.
Definition set_Bank x p := let '(Build_PaymentDetails a b c d e f _ h i j) := p in Build_PaymentDetails a b c d e f x h i j.
Definition set_DeliveryCost x p := let '(Build_PaymentDetails a b c d e f g _ i j) := p in Build_PaymentDetails a b c d e f g x i j.
Definition set_TotalGoods x p := let '(Build_PaymentDetails a b c d e f g h _ j) := p in Build_PaymentDetails a b c d e f g h x j.
Definition set_CustomFee x p := let '(Build_PaymentDetails a b c d e f g h i _) := p in Build_PaymentDetails a b c d e f g h i x.

Definition set_ChartID x p := let '(Build_ProductItem _ b c d e f g h i j k) := p in Build_ProductItem x b c d e f g h i j k.
Definition set_TrackingNum x p := let '(Build_ProductItem a _ c d e f g h i j k) := p in Build_ProductItem a x c d e f g h i j k.
Definition set_Price x p := let '(Build_ProductItem a b _ d e f g h i j k) := p in Build_ProductItem a b x d e f g h i j k.
Definition set_RID x p := let '(Build_ProductItem a b c _ e f g h i j k) := p in Build_ProductItem a b c x e f g h i j k.
Definition set_Name x p := let '(Build_ProductItem a b c d _ f g h i j k) := p in Build_ProductItem a b c d x f g h i j k.
Definition set_Discount x p := let '(Build_ProductItem a b c d e _ g h i j k) := p in Build_ProductItem a b c d e x g h i j k.
Definition set_Size x p := let '(Build_ProductItem a b c d e f _ h i j k) := p in Build_ProductItem a b c d e f x h i j k.
Definition set_TotalPrice x p := let '(Build_ProductItem a b c d e f g _ i j k) := p in Build_ProductItem a b c d e f g x i j k.
Definition set_ProductID x p := let '(Build_ProductItem a b c d e f g h _ j k) := p in Build_ProductItem a b c d e f g h x j k.
Definition set_Brand x p := let '(Build_ProductItem a b c d e f g h i _ k) := p in Build_ProductItem a b c d e f g h i x k.
Definition set_Status x p := let '(Build_ProductItem a b c d e f g h i j _) := p in Build_ProductItem a b c d e f g h i j x.

Definition set_OrderID x o := let '(Build_OrderDetails _ b c d e f g h i j k l m n) := o in Build_OrderDetails x b c d e f g h i j k l m n.
Definition set_TrackingNumber x o := let '(Build_OrderDetails a _ c d e f g h i j k l m n) := o in Build_OrderDetails a x c d e f g h i j k l m n.
Definition set_EntryPoint x o := let '(Build_OrderDetails a b _ d e f g h i j k l m n) := o in Build_OrderDetails a b x d e f g h i j k l m n.
Definition set_Address x o := let '(Build_OrderDetails a b c _ e f g h i j k l m n) := o in Build_OrderDetails a b c x e f g h i j k l m n.
Definition set_Payment x o := let '(Build_OrderDetails a b c d _ f g h i j k l m n) := o in Build_OrderDetails a b c d x f g h i j k l m n.
Definition set_Products x o := let '(Build_OrderDetails a b c d e _ g h i j k l m n) := o in Build_OrderDetails a b c d e x g h i j k l m n.
Definition set_Locale x o := let '(Build_OrderDetails a b c d e f _ h i j k l m n) := o in Build_OrderDetails a b c d e f x h i j k l m n.
Definition set_Signature x o := let '(Build_OrderDetails a b c d e f g _ i j k l m n) := o in Build_OrderDetails a b c d e f g x i j k l m n.
Definition set_CustomerID x o := let '(Build_OrderDetails a b c d e f g h _ j k l m n) := o in Build_OrderDetails a b c d e f g h x j k l m n.
Definition set_DeliveryService x o := let '(Build_OrderDetails a b c d e f g h i _ k l m n) := o in Build_OrderDetails a b c d e f g h i x k l m n.
Definition set_ShardKey x o := let '(Build_OrderDetails a b c d e f g h i j _ l m n) := o in Build_OrderDetails a b c d e f g h i j x l m n.
Definition set_SMID x o := let '(Build_OrderDetails a b c d e f g h i j k _ m n) := o in Build_OrderDetails a b c d e f g h i j k x m n.
Definition set_CreationTimestamp x o := let '(Build_OrderDetails a b c d e f g h i j k l _ n) := o in Build_OrderDetails a b c d e f g h i j k l x n.
Definition set_OutOfShard x o := let '(Build_OrderDetails a b c d e f g h i j k l m _) := o in Build_OrderDetails a b c d e f g h i j k l m x.

(** *** ISO8601Time *)

Definition quote : ascii := byte_of 34.

Definition backslash : ascii := byte_of 92.

Fixpoint trim_left (c : ascii) (s : string) : string :=
  match s with
  | String a r => if Ascii.eqb a c then trim_left c r else s
  | EmptyString => EmptyString
  end.

Fixpoint trim_right (c : ascii) (s : string) : string :=
  match s with
  | String a r =>
      let r' := trim_right c r in
      if Ascii.eqb a c && String.eqb r' EmptyString then EmptyString
      else String a r'
  | EmptyString => EmptyString
  end.

(** [bytes.Trim(data, cutset)] for a cutset of one byte. *)
Definition bytes_Trim (data : string) (c : ascii) : string :=
  trim_right c (trim_left c data).

(** [func (t *ISO8601Time) UnmarshalJSON(data []byte) error] *)
Definition UnmarshalJSON (data : string) : result json_error ISO8601Time :=
  let str := bytes_Trim data quote in
  match time.Parse str with
  | Some parsedTime => Ok parsedTime
  | None => Err (InvalidTimeFormat str)
  end.

(** [func (t ISO8601Time) MarshalJSON() ([]byte, error)] *)
Definition MarshalJSON (t : ISO8601Time) : string :=
  String quote (time.Format t +:+ String quote EmptyString).

(** *** encoding/json on the types of this package *)

(** The text of a string token, in its shortest spelling: only the
    quote and the backslash are escaped. *)
Fixpoint json_escape (s : string) : string :=
  match s with
  | String a r =>
      if Ascii.eqb a quote || Ascii.eqb a backslash
      then String backslash (String a (json_escape r))
      else String a (json_escape r)
  | EmptyString => EmptyString
  end.

Definition token_text (s : string) : string :=
  String quote (json_escape s +:+ String quote EmptyString).

(** The encoder reads the output of a [MarshalJSON] method as a JSON
    value.  The method of this repository writes a string token; a
    token with an escape or a control byte, which [time.Format] never
    writes, is not read here. *)
Fixpoint plain_until_quote (s : string) : option (string * string) :=
  match s with
  | String a r =>
      if Ascii.eqb a quote then Some (EmptyString, r)
      else if Ascii.eqb a backslash || (byte_val a <? 32) then None
      else match plain_until_quote r with
           | Some (body, rest) => Some (String a body, rest)
           | None => None
           end
  | EmptyString => None
  end.

Definition read_token (raw : string) : option json :=
  match raw with
  | String q r =>
      if Ascii.eqb q quote then
        match plain_until_quote r with
        | Some (body, EmptyString) => Some (JString (to_valid_utf8 body))
        | _ => None
        end
      else None
  | EmptyString => None
  end.

(** *** Encoding *)

Definition enc_string (s : string) : json := JString (to_valid_utf8 s).

Definition enc_AddressDetails (a : AddressDetails) : json :=
  JObject [("name", enc_string (FullName a));
           ("phone", enc_string (Phone a));
           ("zip", enc_string (ZipCode a));
           ("city", enc_string (City a));
           ("address", enc_string (Street a));
           ("region", enc_string (Region a));
           ("email", enc_string (Email a))].

Definition enc_PaymentDetails (p : PaymentDetails) : json :=
  JObject [("transaction", enc_string (TransactionID p));
           ("request_id", enc_string (RequestID p));
           ("currency", enc_string (Currency p));
           ("provider", enc_string (Provider p));
           ("amount", JInt (Amount p));
           ("payment_dt", JInt (PaymentDate p));
           ("bank", enc_string (Bank p));
           ("delivery_cost", JInt (DeliveryCost p));
           ("goods_total", JInt (TotalGoods p));
           ("custom_fee", JInt (CustomFee p))].

Definition enc_ProductItem (i : ProductItem) : json :=
  JObject [("chrt_id", JInt (ChartID i));
           ("track_number", enc_string (TrackingNum i));
           ("price", JInt (Price i));
           ("rid", enc_string (RID i));
           ("name", enc_string (Name i));
           ("sale", JInt (Discount i));
           ("size", enc_string (Size i));
           ("total_price", JInt (TotalPrice i));
           ("nm_id", JInt (ProductID i));
           ("brand", enc_string (Brand i));
           ("status", JInt (Status i))].

(** A nil slice is written as [null]. *)
Definition enc_Products (s : option (list ProductItem)) : json :=
  match s with
  | None => JNull
  | Some l => JArray (map enc_ProductItem l)
  end.

Definition enc_OrderDetails (o : OrderDetails) : option json :=
  match read_token (MarshalJSON (CreationTimestamp o)) with
  | None => None
  | Some date_created =>
      Some (JObject
        [("order_uid", enc_string (OrderID o));
         ("track_number", enc_string (TrackingNumber o));
         ("entry", enc_string (EntryPoint o));
         ("delivery", enc_AddressDetails (Address o));
         ("payment", enc_PaymentDetails (Payment o));
         ("items", enc_Products (Products o));
         ("locale", enc_string (Locale o));
         ("internal_signature", enc_string (Signature o));
         ("customer_id", enc_string (CustomerID o));
         ("delivery_service", enc_string (DeliveryService o));
         ("shardkey", enc_string (ShardKey o));
         ("sm_id", JInt (SMID o));
         ("date_created", date_created);
         ("oof_shard", enc_string (OutOfShard o))])
  end.

(** [json.Marshal(order)] *)
Definition json_Marshal (o : OrderDetails) : result json_error payload :=
  match enc_OrderDetails o with
  | Some v => Ok (Doc v false)
  | None => Err SyntaxError
  end.

(** *** Decoding *)

Definition unknown {A} (strict : bool) (k : string) (old : A) : Dec A :=
  if strict then _ <-- saveError (UnknownField k) ;;; dec_ret old
  else dec_ret old.

Definition step_AddressDetails (strict : bool) (k : string) (v : json)
    (a : AddressDetails) : Dec AddressDetails :=
  if key_is k "name" then x <-- dec_string "name" v (FullName a) ;;; dec_ret (set_FullName x a)
  else if key_is k "phone" then x <-- dec_string "phone" v (Phone a) ;;; dec_ret (set_Phone x a)
  else if key_is k "zip" then x <-- dec_string "zip" v (ZipCode a) ;;; dec_ret (set_ZipCode x a)
  else if key_is k "city" then x <-- dec_string "city" v (City a) ;;; dec_ret (set_City x a)
  else if key_is k "address" then x <-- dec_string "address" v (Street a) ;;; dec_ret (set_Street x a)
  else if key_is k "region" then x <-- dec_string "region" v (Region a) ;;; dec_ret (set_Region x a)
  else if key_is k "email" then x <-- dec_string "email" v (Email a) ;;; dec_ret (set_Email x a)
  else unknown strict k a.

Definition step_PaymentDetails (strict : bool) (k : string) (v : json)
    (p : PaymentDetails) : Dec PaymentDetails :=
  if key_is k "transaction" then x <-- dec_string "transaction" v (TransactionID p) ;;; dec_ret (set_TransactionID x p)
  else if key_is k "request_id" then x <-- dec_string "request_id" v (RequestID p) ;;; dec_ret (set_RequestID x p)
  else if key_is k "currency" then x <-- dec_string "currency" v (Currency p) ;;; dec_ret (set_Currency x p)
  else if key_is k "provider" then x <-- dec_string "provider" v (Provider p) ;;; dec_ret (set_Provider x p)
  else if key_is k "amount" then x <-- dec_int "amount" v (Amount p) ;;; dec_ret (set_Amount x p)
  else if key_is k "payment_dt" then x <-- dec_int "payment_dt" v (PaymentDate p) ;;; dec_ret (set_PaymentDate x p)
  else if key_is k "bank" then x <-- dec_string "bank" v (Bank p) ;;; dec_ret (set_Bank x p)
  else if key_is k "delivery_cost" then x <-- dec_int "delivery_cost" v (DeliveryCost p) ;;; dec_ret (set_DeliveryCost x p)
  else if key_is k "goods_total" then x <-- dec_int "goods_total" v (TotalGoods p) ;;; dec_ret (set_TotalGoods x p)
  else if key_is k "custom_fee" then x <-- dec_int "custom_fee" v (CustomFee p) ;;; dec_ret (set_CustomFee x p)
  else unknown strict k p.

Definition step_ProductItem (strict : bool) (k : string) (v : json)
    (i : ProductItem) : Dec ProductItem :=
  if key_is k "chrt_id" then x <-- dec_int "chrt_id" v (ChartID i) ;;; dec_ret (set_ChartID x i)
  else if key_is k "track_number" then x <-- dec_string "track_number" v (TrackingNum i) ;;; dec_ret (set_TrackingNum x i)
  else if key_is k "price" then x <-- dec_int "price" v (Price i) ;;; dec_ret (set_Price x i)
  else if key_is k "rid" then x <-- dec_string "rid" v (RID i) ;;; dec_ret (set_RID x i)
  else if key_is k "name" then x <-- dec_string "name" v (Name i) ;;; dec_ret (set_Name x i)
  else if key_is k "sale" then x <-- dec_int "sale" v (Discount i) ;;; dec_ret (set_Discount x i)
  else if key_is k "size" then x <-- dec_string "size" v (Size i) ;;; dec_ret (set_Size x i)
  else if key_is k "total_price" then x <-- dec_int "total_price" v (TotalPrice i) ;;; dec_ret (set_TotalPrice x i)
  else if key_is k "nm_id" then x <-- dec_int "nm_id" v (ProductID i) ;;; dec_ret (set_ProductID x i)
  else if key_is k "brand" then x <-- dec_string "brand" v (Brand i) ;;; dec_ret (set_Brand x i)
  else if key_is k "status" then x <-- dec_int "status" v (Status i) ;;; dec_ret (set_Status x i)
  else unknown strict k i.

(** A value of type [ISO8601Time]: the decoder hands the token's text
    to [UnmarshalJSON] and stops on its error.  The text of a token
    other than a string is [null], [true], [false], a number literal,
    or opens with a bracket: [time.Parse] refuses each (a number
    literal has no dash after its first four digits). *)
Definition dec_ISO8601Time (v : json) (old : ISO8601Time) : Dec ISO8601Time :=
  match v with
  | JString s =>
      match UnmarshalJSON (token_text s) with
      | Ok t => dec_ret t
      | Err e => dec_fail e
      end
  | _ => dec_fail (InvalidTimeFormat EmptyString)
  end.

Definition step_OrderDetails (strict : bool) (k : string) (v : json)
    (o : OrderDetails) : Dec OrderDetails :=
  if key_is k "order_uid" then x <-- dec_string "order_uid" v (OrderID o) ;;; dec_ret (set_OrderID x o)
  else if key_is k "track_number" then x <-- dec_string "track_number" v (TrackingNumber o) ;;; dec_ret (set_TrackingNumber x o)
  else if key_is k "entry" then x <-- dec_string "entry" v (EntryPoint o) ;;; dec_ret (set_EntryPoint x o)
  else if key_is k "delivery" then
    x <-- dec_struct "delivery" (step_AddressDetails strict) v (Address o) ;;; dec_ret (set_Address x o)
  else if key_is k "payment" then
    x <-- dec_struct "payment" (step_PaymentDetails strict) v (Payment o) ;;; dec_ret (set_Payment x o)
  else if key_is k "items" then
    x <-- dec_slice "items" (dec_struct "items" (step_ProductItem strict)) zero_ProductItem v (Products o) ;;;
    dec_ret (set_Products x o)
  else if key_is k "locale" then x <-- dec_string "locale" v (Locale o) ;;; dec_ret (set_Locale x o)
  else if key_is k "internal_signature" then x <-- dec_string "internal_signature" v (Signature o) ;;; dec_ret (set_Signature x o)
  else if key_is k "customer_id" then x <-- dec_string "customer_id" v (CustomerID o) ;;; dec_ret (set_CustomerID x o)
  else if key_is k "delivery_service" then x <-- dec_string "delivery_service" v (DeliveryService o) ;;; dec_ret (set_DeliveryService x o)
  else if key_is k "shardkey" then x <-- dec_string "shardkey" v (ShardKey o) ;;; dec_ret (set_ShardKey x o)
  else if key_is k "sm_id" then x <-- dec_int "sm_id" v (SMID o) ;;; dec_ret (set_SMID x o)
  else if key_is k "date_created" then
    x <-- dec_ISO8601Time v (CreationTimestamp o) ;;; dec_ret (set_CreationTimestamp x o)
  else if key_is k "oof_shard" then x <-- dec_string "oof_shard" v (OutOfShard o) ;;; dec_ret (set_OutOfShard x o)
  else unknown strict k o.

Definition dec_OrderDetails (strict : bool) (v : json) (o : OrderDetails)
    : Dec OrderDetails :=
  dec_struct "OrderDetails" (step_OrderDetails strict) v o.

(** The names of the fields of [OrderDetails]. *)
Definition order_field_names : list string :=
  ["order_uid"; "track_number"; "entry"; "delivery"; "payment"; "items";
   "locale"; "internal_signature"; "customer_id"; "delivery_service";
   "shardkey"; "sm_id"; "date_created"; "oof_shard"].

(** [json.Unmarshal(data, &order)] with [order] a zero value: the
    whole payload has to be one JSON value. *)
Definition json_Unmarshal (data : payload) : result json_error OrderDetails :=
  match data with
  | Malformed => Err SyntaxError
  | Doc _ true => Err SyntaxError
  | Doc v false => run_dec (dec_OrderDetails false v zero_OrderDetails)
  end.

(** [decoder.Decode(&order)] with [order] a zero value, after
    [decoder.DisallowUnknownFields()] when [strict]: the first JSON
    value of the payload is read. *)
Definition json_Decoder_Decode (strict : bool) (data : payload)
    : result json_error OrderDetails :=
  match data with
  | Malformed => Err SyntaxError
  | Doc v _ => run_dec (dec_OrderDetails strict v zero_OrderDetails)
  end.

(** [func ParseOrder(data []byte, maxItems int)], returning an
    [OrderDetails] or an error *)
Definition ParseOrder (data : payload) (maxItems : Z) : result error OrderDetails :=
  match json_Decoder_Decode true data with
  | Err err => Err (InvalidJSONStructure err)
  | Ok order =>
      if maxItems <? len_Products order then Err TooManyProducts
      else Ok order
  end.

End model.

(** ** Package ristretto, as far as the repository uses it

    A cache of a bounded cost.  [Set] replaces the value of a key the
    store holds at once and hands a new key to a buffer; [Wait] returns
    when the buffer has been applied.  Every entry of this repository
    costs 1.  A new key is admitted when there is room; when the cache is
    full the policy (a frequency sketch over sampled entries) either
    rejects the new key or evicts one entry for it.  That decision
    depends on counters the model does not keep, so the decisions the
    policy will take are part of the cache's state, a script read one
    decision at a time; when it is exhausted the policy rejects. *)

Module ristretto.

Inductive Admission : Type :=
| Reject
| Evict (victim : string).

Record Cache (V : Type) : Type := mkCache {
  store : gmap string V;
  setBuf : list (string * V);
  MaxCost : Z;
  policy : list Admission
}.
Arguments mkCache {V}.
Arguments store {V}.
Arguments setBuf {V}.
Arguments MaxCost {V}.
Arguments policy {V}.

(** The capacity of the buffer of pending sets. *)
Definition setBufSize : Z := 32 * 1024.

(** [ristretto.NewCache(&ristretto.Config{NumCounters, MaxCost, BufferItems})] *)
Definition NewCache {V} (script : list Admission) (NumCounters maxCost BufferItems : Z)
    : result error (Cache V) :=
  if (NumCounters =? 0) || (maxCost =? 0) || (BufferItems =? 0)
  then Err ErrCacheConfig
  else Ok (mkCache ∅ [] maxCost script).

(** [cache.Set(key, value, 1)] *)
Definition Set_ {V} (key : string) (value : V) (c : Cache V) : bool * Cache V :=
  match store c !! key with
  | Some _ => (true, mkCache (<[key := value]> (store c)) (setBuf c) (MaxCost c) (policy c))
  | None =>
      if setBufSize <=? len (setBuf c) then (false, c)
      else (true, mkCache (store c) (setBuf c ++ [(key, value)]) (MaxCost c) (policy c))
  end.

(** One buffered set of cost 1 reaches the policy. *)
Definition apply_set {V} (c : Cache V) (kv : string * V) : Cache V :=
  let '(key, value) := kv in
  match store c !! key with
  | Some _ => c
  | None =>
      if MaxCost c <? 1 then c
      else if Z.of_nat (size (store c)) + 1 <=? MaxCost c
      then mkCache (<[key := value]> (store c)) (setBuf c) (MaxCost c) (policy c)
      else
        match policy c with
        | [] => c
        | Reject :: script => mkCache (store c) (setBuf c) (MaxCost c) script
        | Evict victim :: script =>
            match store c !! victim with
            | Some _ =>
                mkCache (<[key := value]> (delete victim (store c)))
                  (setBuf c) (MaxCost c) script
            | None => mkCache (store c) (setBuf c) (MaxCost c) script
            end
        end
  end.

(** [cache.Wait()] *)
Definition Wait {V} (c : Cache V) : Cache V :=
  fold_left apply_set (setBuf c)
    (mkCache (store c) [] (MaxCost c) (policy c)).

(** [cache.Get(key)] *)
Definition Get {V} (key : string) (c : Cache V) : option V := store c !! key.

End ristretto.

(** ** Package data_base

    The pool is a PostgreSQL database with the tables of
    [scripts/init.sh].  A table with a primary key is a map from the key
    to the row.  The sequence behind [delivery.id] is not part of a
    transaction: a value it has handed out is not handed out again after
    a rollback.  Each call on the pool or on a transaction can fail on
    the connection; [faults] says for the calls to come, in order,
    whether they do ([true]: the call fails), and no call fails once it
    is exhausted. *)

Module data_base.
Import model.

Record OrderRow : Type := {
  order_uid : string;
  track_number : string;
  entry : string;
  delivery_id : Z;
  payment_id : string;
  locale : string;
  internal_signature : string;
  customer_id : string;
  delivery_service : string;
  shardkey : string;
  sm_id : Z;
  date_created : time.Time;
  oof_shard : string
}.

Record Tables : Type := mkTables {
  delivery : gmap Z AddressDetails;
  payment : gmap string PaymentDetails;
  items : gmap Z ProductItem;
  orders : gmap string OrderRow;
  order_item_conn : list (string * Z)
}.

Record dbService : Type := mkDb {
  tables : Tables;
  delivery_id_seq : Z;
  faults : list bool
}.

Definition empty_tables : Tables := mkTables ∅ ∅ ∅ ∅ [].

(** The values of an INTEGER column. *)
Definition in_int32 (n : Z) : bool := (- 2 ^ 31 <=? n) && (n <? 2 ^ 31).

(** A [time.Time] as a TIMESTAMP parameter: the zone is discarded and
    the time of day is kept to the microsecond. *)
Definition timestamp_of (t : time.Time) : time.Time :=
  time.Date (time.Year t) (time.Month t) (time.Day t) (time.Hour t)
    (time.Minute t) (time.Second t)
    (Z.quot (time.Nanosecond t) 1000 * 1000) time.UTC.

(** Whether the next call fails on the connection, and the faults of
    the calls after it. *)
Definition next_call (fs : list bool) : bool * list bool :=
  match fs with
  | [] => (false, [])
  | f :: rest => (f, rest)
  end.

(** *** The statements of AddOrder *)

Definition insert_delivery (id : Z) (a : AddressDetails) (t : Tables)
    : result error Tables :=
  if negb (in_int32 id) then Err (ErrIntegerOutOfRange "delivery")
  else match delivery t !! id with
  | Some _ => Err (ErrUniqueViolation "delivery")
  | None =>
      Ok (mkTables (<[id := a]> (delivery t)) (payment t) (items t) (orders t)
            (order_item_conn t))
  end.

Definition insert_payment (p : PaymentDetails) (t : Tables) : result error Tables :=
  if negb (in_int32 (Amount p) && in_int32 (PaymentDate p) &&
           in_int32 (DeliveryCost p) && in_int32 (TotalGoods p) &&
           in_int32 (CustomFee p))
  then Err (ErrIntegerOutOfRange "payment")
  else match payment t !! TransactionID p with
  | Some _ => Err (ErrUniqueViolation "payment")
  | None =>
      Ok (mkTables (delivery t) (<[TransactionID p := p]> (payment t)) (items t)
            (orders t) (order_item_conn t))
  end.

Definition order_row (o : OrderDetails) (deliveryID : Z) : OrderRow :=
  {| order_uid := OrderID o;
     track_number := TrackingNumber o;
     entry := EntryPoint o;
     delivery_id := deliveryID;
     payment_id := TransactionID (Payment o);
     locale := Locale o;
     internal_signature := Signature o;
     customer_id := CustomerID o;
     delivery_service := DeliveryService o;
     shardkey := ShardKey o;
     sm_id := SMID o;
     date_created := timestamp_of (CreationTimestamp o);
     oof_shard := OutOfShard o |}.

Definition insert_order (o : OrderDetails) (deliveryID : Z) (t : Tables)
    : result error Tables :=
  if negb (in_int32 (SMID o)) then Err (ErrIntegerOutOfRange "orders")
  else match orders t !! OrderID o with
  | Some _ => Err (ErrUniqueViolation "orders")
  | None =>
      Ok (mkTables (delivery t) (payment t) (items t)
            (<[OrderID o := order_row o deliveryID]> (orders t))
            (order_item_conn t))
  end.

Definition insert_item (i : ProductItem) (t : Tables) : result error Tables :=
  if negb (in_int32 (ChartID i) && in_int32 (Price i) && in_int32 (Discount i) &&
           in_int32 (TotalPrice i) && in_int32 (ProductID i) && in_int32 (Status i))
  then Err (ErrIntegerOutOfRange "items")
  else match items t !! ChartID i with
  | Some _ => Err (ErrUniqueViolation "items")
  | None =>
      Ok (mkTables (delivery t) (payment t) (<[ChartID i := i]> (items t))
            (orders t) (order_item_conn t))
  end.

(** A statement inside the transaction: the call may fail on the
    connection, and the statement may fail on the tables. *)
Definition exec (stmt : Tables -> result error Tables) (tx : Tables) (fs : list bool)
    : result error Tables * list bool :=
  let '(fault, fs') := next_call fs in
  if fault then (Err ErrConn, fs') else (stmt tx, fs').

(** [for _, item := range order.Products]: the loop stops at the
    first failing insert. *)
Fixpoint insert_items (l : list ProductItem) (tx : Tables) (fs : list bool)
    : result error Tables * list bool :=
  match l with
  | [] => (Ok tx, fs)
  | item :: rest =>
      match exec (insert_item item) tx fs with
      | (Ok tx', fs') => insert_items rest tx' fs'
      | (Err e, fs') => (Err e, fs')
      end
  end.

(** [func (s *dbService) AddOrder(ctx, order) error].  [tx] is the
    state of the tables inside the transaction; it replaces the
    tables when the commit succeeds, and it is dropped by the deferred
    rollback on every other path. *)
Definition AddOrder (s : dbService) (order : OrderDetails) : option error * dbService :=
  let '(fault, fs) := next_call (faults s) in
  if fault then (Some ErrConn, mkDb (tables s) (delivery_id_seq s) fs)
  else
    let tx := tables s in
    (* INSERT INTO delivery ... RETURNING id *)
    let '(fault, fs) := next_call fs in
    if fault then (Some ErrConn, mkDb (tables s) (delivery_id_seq s) fs)
    else
      let deliveryID := delivery_id_seq s + 1 in
      match insert_delivery deliveryID (Address order) tx with
      | Err e => (Some e, mkDb (tables s) deliveryID fs)
      | Ok tx =>
      (* INSERT INTO payment *)
      match exec (insert_payment (Payment order)) tx fs with
      | (Err e, fs) => (Some e, mkDb (tables s) deliveryID fs)
      | (Ok tx, fs) =>
      (* INSERT INTO orders *)
      match exec (insert_order order deliveryID) tx fs with
      | (Err e, fs) => (Some e, mkDb (tables s) deliveryID fs)
      | (Ok tx, fs) =>
      (* INSERT INTO items, once for each product *)
      match insert_items (slice_elems (Products order)) tx fs with
      | (Err e, fs) => (Some e, mkDb (tables s) deliveryID fs)
      | (Ok tx, fs) =>
      (* tx.Commit *)
      let '(fault, fs) := next_call fs in
      if fault then (Some ErrConn, mkDb (tables s) deliveryID fs)
      else (None, mkDb tx deliveryID fs)
      end end end end.

(** *** GetOrder *)

(** The rows of [items] whose [chrt_id] is linked to the order in
    [order_item_conn]. *)
Definition linked_items (t : Tables) (orderUID : string) : list ProductItem :=
  map snd
    (List.filter (fun r => bool_decide ((orderUID, fst r) ∈ order_item_conn t))
                 (map_to_list (items t))).

(** [func (s *dbService) GetOrder(ctx, orderUID)] *)
Definition GetOrder (s : dbService) (orderUID : string)
    : result error OrderDetails * dbService :=
  let t := tables s in
  let db fs := mkDb t (delivery_id_seq s) fs in
  (* SELECT * FROM orders WHERE order_uid = $1 *)
  let '(fault, fs) := next_call (faults s) in
  if fault then (Err ErrConn, db fs) else
  match orders t !! orderUID with
  | None => (Err ErrNoRows, db fs)
  | Some orderRecord =>
  (* SELECT ... FROM delivery WHERE id = $1 *)
  let '(fault, fs) := next_call fs in
  if fault then (Err ErrConn, db fs) else
  match delivery t !! delivery_id orderRecord with
  | None => (Err ErrNoRows, db fs)
  | Some deliveryRecord =>
  (* SELECT ... FROM payment WHERE transaction = $1 *)
  let '(fault, fs) := next_call fs in
  if fault then (Err ErrConn, db fs) else
  match payment t !! payment_id orderRecord with
  | None => (Err ErrNoRows, db fs)
  | Some paymentRecord =>
  (* SELECT ... FROM items WHERE chrt_id IN (SELECT chrt_id FROM order_item_conn ...) *)
  let '(fault, fs) := next_call fs in
  if fault then (Err ErrConn, db fs) else
  let rows := linked_items t (order_uid orderRecord) in
  let items := match rows with [] => None | _ => Some rows end in
  (Ok {| OrderID := order_uid orderRecord;
         TrackingNumber := track_number orderRecord;
         EntryPoint := entry orderRecord;
         Address := deliveryRecord;
         Payment := paymentRecord;
         Products := items;
         Locale := locale orderRecord;
         Signature := internal_signature orderRecord;
         CustomerID := customer_id orderRecord;
         DeliveryService := delivery_service orderRecord;
         ShardKey := shardkey orderRecord;
         SMID := sm_id orderRecord;
         CreationTimestamp := date_created orderRecord;
         OutOfShard := oof_shard orderRecord |}, db fs)
  end end end.

(** *** GetRecentOrderIDs *)

(** [a] is earlier than [b]. *)
Definition before (a b : time.Time) : bool :=
  let key t := [time.Year t; time.Month t; time.Day t; time.Hour t;
                time.Minute t; time.Second t; time.Nanosecond t] in
  (fix lt (x y : list Z) : bool :=
     match x, y with
     | u :: x', v :: y' => (u <? v) || ((u =? v) && lt x' y')
     | _, _ => false
     end) (key a) (key b).

(** ORDER BY date_created DESC, by insertion. *)
Fixpoint insert_desc (r : OrderRow) (l : list OrderRow) : list OrderRow :=
  match l with
  | [] => [r]
  | x :: rest =>
      if before (date_created x) (date_created r) then r :: l
      else x :: insert_desc r rest
  end.

Definition newest_first (l : list OrderRow) : list OrderRow :=
  fold_right insert_desc [] l.

(** [func (s *dbService) GetRecentOrderIDs(ctx, limit)]:
    SELECT order_uid FROM orders ORDER BY date_created DESC LIMIT $1;
    a negative limit is an error of the statement. *)
Definition GetRecentOrderIDs (s : dbService) (limit : Z)
    : result error (list string) * dbService :=
  let '(fault, fs) := next_call (faults s) in
  let db := mkDb (tables s) (delivery_id_seq s) fs in
  if fault || (limit <? 0) then (Err ErrConn, db)
  else
    let rows := newest_first (map snd (map_to_list (orders (tables s)))) in
    (Ok (map order_uid (take (Z.to_nat limit) rows)), db).

End data_base.

(** ** Package ristrettocache (directory caching) *)

Module ristrettocache.
Import model.

(** [type DBService interface] *)
Class DBService (D : Type) : Type := {
  db_AddOrder : D -> OrderDetails -> option error * D;
  db_GetOrder : D -> string -> result error OrderDetails * D;
  db_GetRecentOrderIDs : D -> Z -> result error (list string) * D
}.

(** The calls the service makes on its cache and on its database, the
    latter with the error they return. *)
Inductive Call : Type :=
| CacheSet (key : string)
| CacheWait
| CacheGet (key : string)
| DbAddOrder (orderID : string) (err : option error)
| DbGetOrder (orderUID : string) (err : option error)
| DbGetRecentOrderIDs (limit : Z) (err : option error).

Definition error_of {A} (r : result error A) : option error :=
  match r with Ok _ => None | Err e => Some e end.

(** [type cacheService struct], with the calls made so far. *)
Record cacheService (D : Type) : Type := mkService {
  cache : ristretto.Cache OrderDetails;
  db : D;
  maxSize : Z;
  calls : list Call
}.
Arguments mkService {D}.
Arguments cache {D}.
Arguments db {D}.
Arguments maxSize {D}.
Arguments calls {D}.

Section Service.
Context {D : Type} `{DBService D}.

(** The goroutine of [loadCache] for one id. *)
Definition warm (s : cacheService D) (id : string) : cacheService D :=
  let '(r, d) := db_GetOrder (db s) id in
  match r with
  | Err err => mkService (cache s) d (maxSize s) (calls s ++ [DbGetOrder id (Some err)])
  | Ok order =>
      let '(_, c) := ristretto.Set_ id order (cache s) in
      let c := ristretto.Wait c in
      mkService c d (maxSize s)
        (calls s ++ [DbGetOrder id None; CacheSet id; CacheWait])
  end.

(** [func (s *cacheService) loadCache() error].  The goroutines run
    here one after the other, in the order of the ids; [wg.Wait()]
    is the end of the last one. *)
Definition loadCache (s : cacheService D) : option error * cacheService D :=
  let '(r, d) := db_GetRecentOrderIDs (db s) (maxSize s) in
  let s := mkService (cache s) d (maxSize s)
             (calls s ++ [DbGetRecentOrderIDs (maxSize s) (error_of r)]) in
  match r with
  | Err err => (Some err, s)
  | Ok orderIDs => (None, fold_left warm orderIDs s)
  end.

(** [int64(cacheSize) * 10] *)
Definition wrap64 (z : Z) : Z := (z + 2 ^ 63) mod 2 ^ 64 - 2 ^ 63.

(** [func NewCacheService(logger, cacheSize, db)].  [script] is the
    run of decisions the new cache's policy will take. *)
Definition NewCacheService (script : list ristretto.Admission) (cacheSize : Z) (db : D)
    : result error (cacheService D) :=
  match ristretto.NewCache script (wrap64 (cacheSize * 10)) cacheSize 64 with
  | Err err => Err err
  | Ok ristrettoCache =>
      let service := mkService ristrettoCache db cacheSize [] in
      match loadCache service with
      | (Some err, _) => Err err
      | (None, service) => Ok service
      end
  end.

(** [func (s *cacheService) AddOrder(order) error] *)
Definition AddOrder (s : cacheService D) (order : OrderDetails)
    : option error * cacheService D :=
  let '(_, c) := ristretto.Set_ (OrderID order) order (cache s) in
  let c := ristretto.Wait c in
  let '(err, d) := db_AddOrder (db s) order in
  (err, mkService c d (maxSize s)
          (calls s ++ [CacheSet (OrderID order); CacheWait;
                       DbAddOrder (OrderID order) err])).

(** [func (s *cacheService) getFromCache(orderUID)].  The cache
    holds values of one type only, so the type assertion on the item
    does not fail. *)
Definition getFromCache (s : cacheService D) (orderUID : string)
    : option OrderDetails * cacheService D :=
  (ristretto.Get orderUID (cache s),
   mkService (cache s) (db s) (maxSize s) (calls s ++ [CacheGet orderUID])).

(** [func (s *cacheService) addToCache(orderUID, order)] *)
Definition addToCache (s : cacheService D) (orderUID : string) (order : OrderDetails)
    : cacheService D :=
  let '(_, c) := ristretto.Set_ orderUID order (cache s) in
  let c := ristretto.Wait c in
  mkService c (db s) (maxSize s) (calls s ++ [CacheSet orderUID; CacheWait]).

(** [func (s *cacheService) GetOrder(orderUID)] *)
Definition GetOrder (s : cacheService D) (orderUID : string)
    : result error OrderDetails * cacheService D :=
  match getFromCache s orderUID with
  | (Some order, s) => (Ok order, s)
  | (None, s) =>
      let '(r, d) := db_GetOrder (db s) orderUID in
      let s := mkService (cache s) d (maxSize s)
                 (calls s ++ [DbGetOrder orderUID (error_of r)]) in
      match r with
      | Err err => (Err err, s)
      | Ok order => (Ok order, addToCache s orderUID order)
      end
  end.

End Service.

End ristrettocache.

(** ** Package kafka *)

Module kafka.
Import model.

(** [type Store interface] *)
Class Store (S : Type) : Type := {
  store_AddOrder : S -> OrderDetails -> option error * S;
  store_GetOrder : S -> string -> result error OrderDetails * S
}.

(** [func (k *kafkaService) decodeOrder(data []byte)] *)
Definition decodeOrder (data : payload) : result error OrderDetails :=
  match json_Unmarshal data with
  | Err _ => Err InvalidOrderFormat
  | Ok order => Ok order
  end.

(** What [k.reader.ReadMessage(ctx)] returns. *)
Inductive ReadResult : Type :=
| ReadError
| Message (Value : payload).

Section Listener.
Context {S : Type} `{Store S}.

(** One turn of the loop of [StartListening] past the check of
    [ctx.Done()]. *)
Definition handle (store : S) (r : ReadResult) : S :=
  match r with
  | ReadError => store
  | Message value =>
      match decodeOrder value with
      | Err _ => store
      | Ok order => snd (store_AddOrder store order)
      end
  end.

(** [func (k *kafkaService) StartListening(ctx)]: [reads] are the
    results of [ReadMessage] up to the turn that finds [ctx] done. *)
Definition StartListening (reads : list ReadResult) (store : S) : S :=
  fold_left handle reads store.

End Listener.

(** [func (k *kafkaService) SendOrder(ctx, order) error], with the
    messages it writes; [write_fails] says whether [WriteMessages]
    does. *)
Definition SendOrder (write_fails : bool) (order : OrderDetails)
    : option error * list payload :=
  match json_Marshal order with
  | Err _ => (Some SerializeFailed, [])
  | Ok orderBytes =>
      if write_fails then (Some ErrConn, []) else (None, [orderBytes])
  end.

End kafka.

(** ** Package httptransport (directory transport) *)

Module httptransport.
Import model.

(** [type Store interface] is the one of package kafka. *)

(** What [orderHandler] reads of a request: the method and
    [r.URL.Query().Get("order_uid")], empty when the parameter is
    absent. *)
Record Request : Type := {
  Method : string;
  query_order_uid : string
}.

Inductive Body : Type :=
| Text (s : string)
| JSON (data : payload).

Record Response : Type := {
  StatusCode : Z;
  ContentType : string;
  ResponseBody : Body
}.

Definition StatusOK : Z := 200.
Definition StatusBadRequest : Z := 400.
Definition StatusMethodNotAllowed : Z := 405.
Definition StatusInternalServerError : Z := 500.

(** [http.Error(w, msg, code)] *)
Definition http_Error (msg : string) (code : Z) : Response :=
  {| StatusCode := code;
     ContentType := "text/plain; charset=utf-8";
     ResponseBody := Text (msg +:+ String (byte_of 10) EmptyString) |}.

(** [err.Error()] *)
Definition error_text (e : error) : string :=
  match e with
  | InvalidJSONStructure _ => "invalid JSON structure"
  | TooManyProducts => "too many products in the order"
  | InvalidOrderFormat => "invalid order format in Kafka message"
  | SerializeFailed => "failed to serialize order to JSON"
  | ErrNoRows => "no rows in result set"
  | ErrConn => "connection failure"
  | ErrUniqueViolation t => "duplicate key value violates unique constraint on " +:+ t
  | ErrIntegerOutOfRange t => "integer out of range in " +:+ t
  | ErrCacheConfig => "invalid cache configuration"
  end.

Section Handler.
Context {S : Type} `{kafka.Store S}.

(** [func (t *httpTransport) orderHandler(w, r)] *)
Definition orderHandler (store : S) (r : Request) : Response * S :=
  if negb (String.eqb (Method r) "GET")
  then (http_Error "Invalid method" StatusMethodNotAllowed, store)
  else
    let orderUID := query_order_uid r in
    if String.eqb orderUID EmptyString
    then (http_Error "Missing order UID" StatusBadRequest, store)
    else
      match kafka.store_GetOrder store orderUID with
      | (Err err, store) =>
          (http_Error ("Error fetching order: " +:+ error_text err)
                      StatusInternalServerError, store)
      | (Ok order, store) =>
          match json_Marshal order with
          | Ok data =>
              ({| StatusCode := StatusOK;
                  ContentType := "application/json";
                  ResponseBody := JSON data |}, store)
          | Err _ =>
              (http_Error "Failed to encode response" StatusInternalServerError,
               store)
          end
      end.

End Handler.

End httptransport.

(** ** Package main: the wiring of [NewApp] *)

Module main.

Definition cacheSize : Z := 1024.

(** The database service as the cache's [DBService]. *)
#[export] Instance db_service : ristrettocache.DBService data_base.dbService := {
  ristrettocache.db_AddOrder := data_base.AddOrder;
  ristrettocache.db_GetOrder := data_base.GetOrder;
  ristrettocache.db_GetRecentOrderIDs := data_base.GetRecentOrderIDs
}.

(** The cache service as the [Store] of the listener and of the
    transport. *)
#[export] Instance cache_store {D} `{ristrettocache.DBService D}
    : kafka.Store (ristrettocache.cacheService D) := {
  kafka.store_AddOrder := ristrettocache.AddOrder;
  kafka.store_GetOrder := ristrettocache.GetOrder
}.

Definition App : Type := ristrettocache.cacheService data_base.dbService.

(** [func NewApp()], as far as the store and the cache go. *)
Definition NewApp (script : list ristretto.Admission) (dbConn : data_base.dbService)
    : result error App :=
  ristrettocache.NewCacheService script cacheSize dbConn.

End main.

(** ** The order that the sending program publishes *)

Definition test_order : model.OrderDetails :=
  {| model.OrderID := "b563feb7b2b84b6test";
     model.TrackingNumber := "WBILMTESTTRACK";
     model.EntryPoint := "WBIL";
     model.Address :=
       {| model.FullName := "Test Testov";
          model.Phone := "+9720000000";
          model.ZipCode := "2639809";
          model.City := "Kiryat Mozkin";
          model.Street := "Ploshad Mira 15";
          model.Region := "Kraiot";
          model.Email := "test@gmail.com" |};
     model.Payment :=
       {| model.TransactionID := "b563feb7b2b84b6test";
          model.RequestID := "";
          model.Currency := "USD";
          model.Provider := "wbpay";
          model.Amount := 1817;
          model.PaymentDate := 1637907727;
          model.Bank := "alpha";
          model.DeliveryCost := 1500;
          model.TotalGoods := 317;
          model.CustomFee := 0 |};
     model.Products :=
       Some [ {| model.ChartID := 9934930;
                 model.TrackingNum := "WBILMTESTTRACK";
                 model.Price := 453;
                 model.RID := "ab4219087a764ae0btest";
                 model.Name := "Mascaras";
                 model.Discount := 30;
                 model.Size := "0";
                 model.TotalPrice := 317;
                 model.ProductID := 2389212;
                 model.Brand := "Vivienne Sabo";
                 model.Status := 202 |} ];
     model.Locale := "en";
     model.Signature := "";
     model.CustomerID := "test";
     model.DeliveryService := "meest";
     model.ShardKey := "9";
     model.SMID := 99;
     model.CreationTimestamp := time.Date 2021 11 26 6 22 19 0 time.UTC;
     model.OutOfShard := "1" |}.

(** * The vocabulary of the properties *)

(** ** Strings of digits *)

(** [s] is two digits that write [x]; four digits that write [x]. *)
Definition two_digits (s : string) (x : Z) : bool :=
  match s with
  | String a (String b EmptyString) =>
      isDigit a && isDigit b && (digit_val a * 10 + digit_val b =? x)
  | _ => false
  end.

Definition four_digits (s : string) (x : Z) : bool :=
  match s with
  | String a (String b (String c (String d EmptyString))) =>
      isDigit a && isDigit b && isDigit c && isDigit d &&
      (((digit_val a * 10 + digit_val b) * 10 + digit_val c) * 10 + digit_val d =? x)
  | _ => false
  end.

Fixpoint all_digits (s : string) : bool :=
  match s with
  | String a r => isDigit a && all_digits r
  | EmptyString => true
  end.

Definition digits (n : nat) (s : string) : Prop :=
  String.length s = n /\ all_digits s = true.

(** The number a string of digits writes. *)
Definition value (s : string) : Z := time.atoi_acc 0 s.

(** ** Timestamps *)

(** The times the layout writes in full: a year of four digits, no
    fraction of a second, and the location UTC. *)
Definition rfc3339_exact (t : time.Time) : Prop :=
  time.normal t /\ 0 <= time.Year t <= 9999 /\
  time.Nanosecond t = 0 /\ time.Loc t = time.UTC.

(** The strings of the format the specification names: a calendar date,
    the letter T, a time of day, and a UTC offset.  It is the layout of
    [time.RFC3339] as [time.Parse] reads it: the hour may be written
    with one digit, a fraction of a second may follow the seconds after
    a period or a comma, and the offset is Z or a sign, hours, a colon
    and minutes. *)
Definition fraction (s : string) : Prop :=
  s = EmptyString \/
  exists sep ds, s = String sep ds /\ time.commaOrPeriod sep = true /\
                 ds <> EmptyString /\ all_digits ds = true.

Definition utc_offset (s : string) : Prop :=
  s = "Z" \/
  exists sg hh mm, s = String sg (hh +:+ ":" +:+ mm) /\
                   (sg = "+"%char \/ sg = "-"%char) /\
                   digits 2 hh /\ digits 2 mm /\ value hh <= 24 /\ value mm <= 60.

Inductive rfc3339_layout : string -> Prop :=
| layout_intro (Y M D h m s frac zone : string) :
    digits 4 Y -> digits 2 M -> digits 2 D ->
    digits 1 h \/ digits 2 h ->
    digits 2 m -> digits 2 s ->
    fraction frac -> utc_offset zone ->
    1 <= value M <= 12 ->
    1 <= value D <= time.daysIn (value M) (value Y) ->
    value h <= 23 -> value m <= 59 -> value s <= 59 ->
    rfc3339_layout
      (Y +:+ "-" +:+ M +:+ "-" +:+ D +:+ "T" +:+ h +:+ ":" +:+ m +:+ ":" +:+ s
         +:+ frac +:+ zone).

(** ** String tokens *)

(** Bytes that a string token holds as they are. *)
Definition is_plain (c : ascii) : bool :=
  (32 <=? byte_val c) && (byte_val c <? 128) &&
  negb (Ascii.eqb c model.quote) && negb (Ascii.eqb c model.backslash).

Fixpoint plain (s : string) : bool :=
  match s with
  | String a r => is_plain a && plain r
  | EmptyString => true
  end.

(** A quote or a backslash; a string without them. *)
Definition is_special (c : ascii) : bool :=
  Ascii.eqb c model.quote || Ascii.eqb c model.backslash.

Fixpoint no_special (s : string) : bool :=
  match s with
  | String a r => negb (is_special a) && no_special r
  | EmptyString => true
  end.

(** ** Values the codec keeps

    The values of the Go types whose strings the encoder writes as they
    are: every string is well-formed UTF-8.  Every [int] is in range. *)

Definition valid_AddressDetails (a : model.AddressDetails) : Prop :=
  utf8_valid (model.FullName a) /\ utf8_valid (model.Phone a) /\
  utf8_valid (model.ZipCode a) /\ utf8_valid (model.City a) /\
  utf8_valid (model.Street a) /\ utf8_valid (model.Region a) /\
  utf8_valid (model.Email a).

Definition valid_PaymentDetails (p : model.PaymentDetails) : Prop :=
  utf8_valid (model.TransactionID p) /\ utf8_valid (model.RequestID p) /\
  utf8_valid (model.Currency p) /\ utf8_valid (model.Provider p) /\
  in_int64 (model.Amount p) = true /\ in_int64 (model.PaymentDate p) = true /\
  utf8_valid (model.Bank p) /\ in_int64 (model.DeliveryCost p) = true /\
  in_int64 (model.TotalGoods p) = true /\ in_int64 (model.CustomFee p) = true.

Definition valid_ProductItem (i : model.ProductItem) : Prop :=
  in_int64 (model.ChartID i) = true /\ utf8_valid (model.TrackingNum i) /\
  in_int64 (model.Price i) = true /\ utf8_valid (model.RID i) /\
  utf8_valid (model.Name i) /\ in_int64 (model.Discount i) = true /\
  utf8_valid (model.Size i) /\ in_int64 (model.TotalPrice i) = true /\
  in_int64 (model.ProductID i) = true /\ utf8_valid (model.Brand i) /\
  in_int64 (model.Status i) = true.

Definition valid_OrderDetails (o : model.OrderDetails) : Prop :=
  utf8_valid (model.OrderID o) /\ utf8_valid (model.TrackingNumber o) /\
  utf8_valid (model.EntryPoint o) /\ valid_AddressDetails (model.Address o) /\
  valid_PaymentDetails (model.Payment o) /\
  Forall valid_ProductItem (slice_elems (model.Products o)) /\
  utf8_valid (model.Locale o) /\ utf8_valid (model.Signature o) /\
  utf8_valid (model.CustomerID o) /\ utf8_valid (model.DeliveryService o) /\
  utf8_valid (model.ShardKey o) /\ in_int64 (model.SMID o) = true /\
  utf8_valid (model.OutOfShard o).

(** The orders the specification calls valid, for the ceiling
    [maxItems]: the identifier is not empty and is the payment's
    transaction id, the items are at most [maxItems], the creation
    timestamp is a calendar time in UTC with a year of four digits, and
    the fields hold text and numbers. *)
Definition spec_valid_order (maxItems : Z) (o : model.OrderDetails) : Prop :=
  valid_OrderDetails o /\
  model.OrderID o <> EmptyString /\
  model.TransactionID (model.Payment o) = model.OrderID o /\
  model.len_Products o <= maxItems /\
  time.normal (model.CreationTimestamp o) /\
  0 <= time.Year (model.CreationTimestamp o) <= 9999 /\
  time.Loc (model.CreationTimestamp o) = time.UTC.

(** ** Outcomes of the decoder *)

(** A decoding step ended with an error: it stopped with one, or one is
    saved. *)
Definition failing {A} (r : result json_error (A * option json_error)) : Prop :=
  match r with
  | Err _ => True
  | Ok (_, Some _) => True
  | Ok (_, None) => False
  end.

(** A saved error stays. *)
Definition sticky {A} (m : Dec A) : Prop := forall e, failing (m (Some e)).

(** ** The cache: admission *)

(** Whether the cache will hold [key] after a [Set] of it and a [Wait]:
    it holds the key already, or it has room, or its policy is about to
    evict an entry for it. *)
Definition admits {V} (c : ristretto.Cache V) (key : string) : bool :=
  match ristretto.store c !! key with
  | Some _ => true
  | None =>
      (1 <=? ristretto.MaxCost c) &&
      ((Z.of_nat (size (ristretto.store c)) + 1 <=? ristretto.MaxCost c) ||
       match ristretto.policy c with
       | ristretto.Evict victim :: _ => bool_decide (is_Some (ristretto.store c !! victim))
       | _ => false
       end)
  end.

(** ** The database and the warm-up *)

(** The calls to come do not fail for [n] calls. *)
Definition no_fault (n : nat) (fs : list bool) : Prop :=
  forall i, (i < n)%nat -> nth i fs false = false.

(** The rows of [items] after the inserts of a list of products. *)
Definition with_items (l : list model.ProductItem) (m : gmap Z model.ProductItem)
    : gmap Z model.ProductItem :=
  fold_left (fun m i => <[model.ChartID i := i]> m) l m.

(** What the goroutine of [loadCache] for one id calls, by the error
    of its fetch. *)
Definition warm_calls (x : string * option error) : list ristrettocache.Call :=
  match x with
  | (id, None) =>
      [ristrettocache.DbGetOrder id None; ristrettocache.CacheSet id;
       ristrettocache.CacheWait]
  | (id, Some e) => [ristrettocache.DbGetOrder id (Some e)]
  end.

(** ** Orders, payloads and services of the examples *)

(** The sender's order, sent half a second later. *)
Definition order_half_second : model.OrderDetails :=
  model.set_CreationTimestamp (time.Date 2021 11 26 6 22 19 500000000 time.UTC)
    test_order.

(** A second order, with keys of its own. *)
Definition second_order : model.OrderDetails :=
  model.set_OrderID "c674gfc8c3c95c7test"
    (model.set_Payment
       (model.set_TransactionID "c674gfc8c3c95c7test" (model.Payment test_order))
       (model.set_Products
          (Some (map (model.set_ChartID 9934931) (slice_elems (model.Products test_order))))
          test_order)).

(** The sender's order with a second product. *)
Definition two_items_order : model.OrderDetails :=
  model.set_Products
    (Some (slice_elems (model.Products test_order) ++
           map (model.set_ChartID 9934931) (slice_elems (model.Products test_order)))%list)
    test_order.

(** A payload with a field the schema does not have, and a payload
    whose creation timestamp stops after the date. *)
Definition members_unknown_field : list (string * json) :=
  [("order_uid", JString "b563feb7b2b84b6test"); ("priority", JInt 1)].

Definition members_date_only : list (string * json) :=
  [("order_uid", JString "b563feb7b2b84b6test");
   ("date_created", JString "2021-11-26")].

(** A database without rows and without faults to come. *)
Definition empty_db : data_base.dbService :=
  data_base.mkDb data_base.empty_tables 0 [].

(** A service of capacity 1024 on an empty database, and one whose
    database fails the next call. *)
Definition fresh_service : main.App :=
  ristrettocache.mkService (ristretto.mkCache ∅ [] 1024 []) empty_db 1024 [].

Definition failing_service : main.App :=
  ristrettocache.mkService (ristretto.mkCache ∅ [] 1024 [])
    (data_base.mkDb data_base.empty_tables 0 [true]) 1024 [].

(** A GET request for an order. *)
Definition get_request (orderUID : string) : httptransport.Request :=
  {| httptransport.Method := "GET"; httptransport.query_order_uid := orderUID |}.

(** ** The constraints of the schema *)

(** The numbers of a payment and of a product fit the INTEGER columns. *)
Definition fits_payment (p : model.PaymentDetails) : bool :=
  data_base.in_int32 (model.Amount p) && data_base.in_int32 (model.PaymentDate p) &&
  data_base.in_int32 (model.DeliveryCost p) && data_base.in_int32 (model.TotalGoods p) &&
  data_base.in_int32 (model.CustomFee p).

Definition fits_item (i : model.ProductItem) : bool :=
  data_base.in_int32 (model.ChartID i) && data_base.in_int32 (model.Price i) &&
  data_base.in_int32 (model.Discount i) && data_base.in_int32 (model.TotalPrice i) &&
  data_base.in_int32 (model.ProductID i) && data_base.in_int32 (model.Status i).

(** The rows of [order] can be inserted: the next value of the sequence
    is an INTEGER that no delivery row has, the numbers fit their
    columns, no row has the order's identifier, the payment's
    transaction, or the [chrt_id] of one of its products, and no two
    products have the same [chrt_id]. *)
Definition insertable (s : data_base.dbService) (order : model.OrderDetails) : Prop :=
  let t := data_base.tables s in
  let deliveryID := data_base.delivery_id_seq s + 1 in
  let products := slice_elems (model.Products order) in
  data_base.in_int32 deliveryID = true /\
  data_base.delivery t !! deliveryID = None /\
  fits_payment (model.Payment order) = true /\
  data_base.payment t !! model.TransactionID (model.Payment order) = None /\
  data_base.in_int32 (model.SMID order) = true /\
  data_base.orders t !! model.OrderID order = None /\
  Forall (fun i => fits_item i = true /\
                   data_base.items t !! model.ChartID i = None) products /\
  NoDup (map model.ChartID products).

(** The foreign keys of [scripts/init.sh]: an order row refers to a
    delivery row and to a payment row, and a row of [order_item_conn]
    to an order row and to an item row. *)
Definition foreign_keys (t : data_base.Tables) : Prop :=
  (forall uid r,
     data_base.orders t !! uid = Some r ->
     is_Some (data_base.delivery t !! data_base.delivery_id r) /\
     is_Some (data_base.payment t !! data_base.payment_id r)) /\
  (forall uid c,
     (uid, c) ∈ data_base.order_item_conn t ->
     is_Some (data_base.orders t !! uid) /\ is_Some (data_base.items t !! c)).

(** A row is filed under the value of its key column. *)
Definition primary_keys (t : data_base.Tables) : Prop :=
  (forall k r, data_base.orders t !! k = Some r -> data_base.order_uid r = k) /\
  (forall k p, data_base.payment t !! k = Some p -> model.TransactionID p = k) /\
  (forall k i, data_base.items t !! k = Some i -> model.ChartID i = k).

(** The sequence of [delivery.id] has reached the id of every row. *)
Definition sequence_ahead (s : data_base.dbService) : Prop :=
  forall id, is_Some (data_base.delivery (data_base.tables s) !! id) ->
             id <= data_base.delivery_id_seq s.

Definition consistent (s : data_base.dbService) : Prop :=
  foreign_keys (data_base.tables s) /\ primary_keys (data_base.tables s) /\
  sequence_ahead s.

(** The order as [GetOrder] reads it back: [AddOrder] writes no row of
    [order_item_conn], so the products are not found, and the TIMESTAMP
    column keeps the civil time to the microsecond, without its zone. *)
Definition as_stored (order : model.OrderDetails) : model.OrderDetails :=
  model.set_Products None
    (model.set_CreationTimestamp
       (data_base.timestamp_of (model.CreationTimestamp order)) order).

(** [a] is not older than [b]. *)
Definition not_older (a b : data_base.OrderRow) : Prop :=
  data_base.before (data_base.date_created a) (data_base.date_created b) = false.

(** The fields of a time in the order [before] compares them, and the
    lexicographic order on such lists. *)
Definition time_key (t : time.Time) : list Z :=
  [time.Year t; time.Month t; time.Day t; time.Hour t;
   time.Minute t; time.Second t; time.Nanosecond t].

Fixpoint lex_lt (x y : list Z) : bool :=
  match x, y with
  | u :: x', v :: y' => (u <? v) || ((u =? v) && lex_lt x' y')
  | _, _ => false
  end.

(** ** The cache: capacity *)

(** The cache holds no more entries than its capacity. *)
Definition within_capacity {V} (c : ristretto.Cache V) : Prop :=
  Z.of_nat (size (ristretto.store c)) <= ristretto.MaxCost c.

(** A call on a store, and a run of calls, one after the other. *)
Inductive StoreCall : Type :=
| CallAddOrder (order : model.OrderDetails)
| CallGetOrder (orderUID : string).

Definition store_call {S : Type} `{kafka.Store S} (store : S) (c : StoreCall) : S :=
  match c with
  | CallAddOrder order => (kafka.store_AddOrder store order).2
  | CallGetOrder orderUID => (kafka.store_GetOrder store orderUID).2
  end.

Definition store_calls {S : Type} `{kafka.Store S} (store : S) (l : list StoreCall) : S :=
  fold_left store_call l store.

(** The cache of a service has the capacity [n], is within it, and has
    no pending set. *)
Definition sound {D} (n : Z) (s : ristrettocache.cacheService D) : Prop :=
  within_capacity (ristrettocache.cache s) /\
  ristretto.MaxCost (ristrettocache.cache s) = n /\
  ristretto.setBuf (ristrettocache.cache s) = [].

(** ** What the layout keeps of a time *)

(** The time without its fraction of a second, and with the offset of
    its zone cut to whole minutes; UTC when the offset is zero. *)
Definition to_the_second (t : time.Time) : time.Time :=
  time.Date (time.Year t) (time.Month t) (time.Day t) (time.Hour t) (time.Minute t)
    (time.Second t) 0
    (if time.zone_offset (time.Loc t) =? 0 then time.UTC
     else time.FixedZone (Z.quot (time.zone_offset (time.Loc t)) 60 * 60)).

(** The times the layout writes so that [time.Parse] reads them: a
    calendar time with a year of four digits, in a zone less than 25
    hours from UTC. *)
Definition rfc3339_writable (t : time.Time) : Prop :=
  time.normal t /\ 0 <= time.Year t <= 9999 /\
  -90000 < time.zone_offset (time.Loc t) < 90000.

(** The sender's order, stamped in a zone three and a half hours east
    of UTC, with a fraction of a second. *)
Definition order_in_zone : model.OrderDetails :=
  model.set_CreationTimestamp
    (time.Date 2021 11 26 9 52 19 500000000 (time.FixedZone 12600)) test_order.

(** ** The payloads that the strict decoder accepts *)

(** A value for a field of type [string], of type [int]. *)
Definition string_or_null (v : json) : Prop :=
  match v with JString _ | JNull => True | _ => False end.

Definition int_or_null (v : json) : Prop :=
  match v with JInt n => in_int64 n = true | JNull => True | _ => False end.

(** The fields of a struct by their names, in the order the decoder
    tries them, each with the values it takes. *)
Definition schema : Type := list (string * (json -> Prop)).

(** The member's key selects a field, and the value is one for it. *)
Definition member_conforms (fields : schema) (k : string) (v : json) : Prop :=
  match List.find (fun f => key_is k f.1) fields with
  | Some f => f.2 v
  | None => False
  end.

Definition object_or_null (fields : schema) (v : json) : Prop :=
  match v with
  | JObject members => Forall (fun kv => member_conforms fields kv.1 kv.2) members
  | JNull => True
  | _ => False
  end.

Definition AddressDetails_schema : schema :=
  [("name", string_or_null); ("phone", string_or_null); ("zip", string_or_null);
   ("city", string_or_null); ("address", string_or_null); ("region", string_or_null);
   ("email", string_or_null)].

Definition PaymentDetails_schema : schema :=
  [("transaction", string_or_null); ("request_id", string_or_null);
   ("currency", string_or_null); ("provider", string_or_null); ("amount", int_or_null);
   ("payment_dt", int_or_null); ("bank", string_or_null);
   ("delivery_cost", int_or_null); ("goods_total", int_or_null);
   ("custom_fee", int_or_null)].

Definition ProductItem_schema : schema :=
  [("chrt_id", int_or_null); ("track_number", string_or_null); ("price", int_or_null);
   ("rid", string_or_null); ("name", string_or_null); ("sale", int_or_null);
   ("size", string_or_null); ("total_price", int_or_null); ("nm_id", int_or_null);
   ("brand", string_or_null); ("status", int_or_null)].

Definition items_or_null (v : json) : Prop :=
  match v with
  | JArray elements => Forall (object_or_null ProductItem_schema) elements
  | JNull => True
  | _ => False
  end.

(** A creation timestamp: a string of the layout, and not [null]. *)
Definition timestamp (v : json) : Prop :=
  match v with JString s => rfc3339_layout s | _ => False end.

Definition OrderDetails_schema : schema :=
  [("order_uid", string_or_null); ("track_number", string_or_null);
   ("entry", string_or_null); ("delivery", object_or_null AddressDetails_schema);
   ("payment", object_or_null PaymentDetails_schema); ("items", items_or_null);
   ("locale", string_or_null); ("internal_signature", string_or_null);
   ("customer_id", string_or_null); ("delivery_service", string_or_null);
   ("shardkey", string_or_null); ("sm_id", int_or_null); ("date_created", timestamp);
   ("oof_shard", string_or_null)].

(** The number of products that the members of an object leave in an
    order that had [n]: the length of the last array under the key
    [items], or none after a [null] there. *)
Fixpoint products_count (members : list (string * json)) (n : Z) : Z :=
  match members with
  | [] => n
  | (k, v) :: rest =>
      products_count rest
        (if key_is k "items"
         then match v with JArray elements => len elements | JNull => 0 | _ => n end
         else n)
  end.

Definition count_products (v : json) : Z :=
  match v with JObject members => products_count members 0 | _ => 0 end.

(** A decoding step succeeds exactly when [P] holds: when [P] holds it
    returns a value and saves no error, and when it returns a value
    without a saved error [P] holds. *)
Definition accepts_when {A} (P : Prop) (m : Dec A) : Prop :=
  (P -> forall saved, exists a, m saved = Ok (a, saved)) /\
  (forall saved a, m saved = Ok (a, None) -> P).

(** Whatever the first step returns without a saved error, the second
    returns too. *)
Definition refines {A} (m1 m2 : Dec A) : Prop :=
  forall saved a, m1 saved = Ok (a, None) -> m2 saved = Ok (a, None).

(** A payload of two members, its key for the items in another case. *)
Definition short_order : json :=
  JObject [("order_uid", JString "b563feb7b2b84b6test");
           ("Items", JArray [JObject [("chrt_id", JInt 9934930)]; JNull])].

(** * Properties *)

(** ** Digits *)

Lemma forallb_range (f : Z -> bool) (n : Z) :
  forallb f (map Z.of_nat (seq 0 (Z.to_nat n))) = true ->
  forall x, 0 <= x < n -> f x = true.
Proof.
  intros Hall x Hx.
  rewrite forallb_forall in Hall. apply Hall.
  apply in_map_iff. exists (Z.to_nat x). split; [lia|].
  apply in_seq. lia.
Qed.

Lemma appendInt_two x : 0 <= x <= 99 -> two_digits (time.appendInt x 2) x = true.
Proof.
  intros Hx.
  apply (forallb_range (fun x => two_digits (time.appendInt x 2) x) 100); [|lia].
  vm_compute. reflexivity.
Qed.

Lemma appendInt_four x : 0 <= x <= 9999 -> four_digits (time.appendInt x 4) x = true.
Proof.
  intros Hx.
  apply (forallb_range (fun x => four_digits (time.appendInt x 4) x) 10000); [|lia].
  vm_compute. reflexivity.
Qed.

Lemma getnum_two s x rest fixed :
  two_digits s x = true -> time.getnum (s +:+ rest) fixed = Some (x, rest).
Proof.
  destruct s as [|a [|b [|c s]]]; simpl; try discriminate.
  intros H. apply andb_true_iff in H as [H Hx]. apply andb_true_iff in H as [Ha Hb].
  rewrite Ha, Hb. apply Z.eqb_eq in Hx. by rewrite Hx.
Qed.

Lemma getyear_four s x rest :
  four_digits s x = true -> time.getyear (s +:+ rest) = Some (x, rest).
Proof.
  destruct s as [|a [|b [|c [|d [|e s]]]]]; simpl; try discriminate.
  intros H. apply andb_true_iff in H as [H Hx]. rewrite H.
  apply Z.eqb_eq in Hx. by rewrite Hx.
Qed.

Lemma skip_literal c rest : time.skip c (String c EmptyString +:+ rest) = Some rest.
Proof. simpl. by rewrite Ascii.eqb_refl. Qed.

(** ** Format and Parse *)

Lemma daysIn_le_31 m y : time.daysIn m y <= 31.
Proof. unfold time.daysIn. repeat case_match; lia. Qed.

Lemma Parse_Format t : rfc3339_exact t -> time.Parse (time.Format t) = Some t.
Proof.
  destruct t as [Y M D h mi sec ns loc].
  intros ([HM [HD [Hh [Hmi [Hs _]]]]] & HY & Hns & Hloc). simpl in *. subst ns loc.
  pose proof (daysIn_le_31 M Y) as H31.
  unfold time.Format, time.Parse. simpl time.zone_offset. cbv iota.
  change (0 =? 0) with true. cbv iota.
  rewrite (getyear_four _ Y) by (apply appendInt_four; lia).
  rewrite skip_literal.
  rewrite (getnum_two _ M) by (apply appendInt_two; lia).
  replace ((M <=? 0) || (12 <? M)) with false by lia.
  rewrite skip_literal.
  rewrite (getnum_two _ D) by (apply appendInt_two; lia).
  rewrite skip_literal.
  rewrite (getnum_two _ h) by (apply appendInt_two; lia).
  replace (24 <=? h) with false by lia.
  rewrite skip_literal.
  rewrite (getnum_two _ mi) by (apply appendInt_two; lia).
  replace (60 <=? mi) with false by lia.
  rewrite skip_literal.
  rewrite (getnum_two _ sec) by (apply appendInt_two; lia).
  replace (60 <=? sec) with false by lia.
  simpl.
  replace ((D <? 1) || (time.daysIn M Y <? D)) with false by lia.
  reflexivity.
Qed.

(** ** String tokens *)

Lemma plain_app a b : plain (a +:+ b) = plain a && plain b.
Proof. induction a as [|c a IH]; simpl; [done|]. by rewrite IH, andb_assoc. Qed.

Lemma no_special_app a b : no_special (a +:+ b) = no_special a && no_special b.
Proof. induction a as [|c a IH]; simpl; [done|]. by rewrite IH, andb_assoc. Qed.

Lemma is_plain_not_special c : is_plain c = true -> is_special c = false.
Proof.
  unfold is_plain, is_special. intros H.
  repeat (apply andb_true_iff in H as [H ?]).
  destruct (Ascii.eqb c model.quote), (Ascii.eqb c model.backslash); done.
Qed.

Lemma plain_no_special s : plain s = true -> no_special s = true.
Proof.
  induction s as [|c s IH]; simpl; [done|].
  intros H. apply andb_true_iff in H as [Hc Hs].
  by rewrite (is_plain_not_special c Hc), IH.
Qed.

Lemma json_escape_no_special s : no_special s = true -> model.json_escape s = s.
Proof.
  induction s as [|c s IH]; simpl; [done|].
  intros H. apply andb_true_iff in H as [Hc Hs].
  apply negb_true_iff in Hc. unfold is_special in Hc. rewrite Hc.
  by rewrite IH.
Qed.

Lemma trim_right_no_special s :
  no_special s = true -> model.trim_right model.quote s = s.
Proof.
  induction s as [|c s IH]; simpl; [done|].
  intros H. apply andb_true_iff in H as [Hc Hs].
  apply negb_true_iff in Hc. unfold is_special in Hc.
  apply orb_false_iff in Hc as [Hq _]. rewrite Hq. simpl. by rewrite IH.
Qed.

Lemma trim_right_snoc c x :
  model.trim_right c (x +:+ String c EmptyString) = model.trim_right c x.
Proof.
  induction x as [|a x IH]; simpl.
  - by rewrite Ascii.eqb_refl.
  - by rewrite IH.
Qed.

Lemma trim_left_cons c a r :
  model.trim_left c (String a r) = if Ascii.eqb a c then model.trim_left c r else String a r.
Proof. reflexivity. Qed.

(** [bytes.Trim] on the text of a string token leaves the escaped
    string without its closing quotes. *)
Lemma Trim_token_text s :
  model.bytes_Trim (model.token_text s) model.quote
  = model.trim_right model.quote (model.json_escape s).
Proof.
  unfold model.bytes_Trim, model.token_text.
  rewrite trim_left_cons, Ascii.eqb_refl.
  destruct s as [|a s]; [reflexivity|].
  assert (exists b e, model.json_escape (String a s) = String b e
                              /\ Ascii.eqb b model.quote = false) as (b & e & He & Hb).
  { simpl. destruct (Ascii.eqb a model.quote) eqn:Ha; simpl; eauto.
    destruct (Ascii.eqb a model.backslash); simpl; eauto. }
  rewrite He.
  change (String b e +:+ String model.quote EmptyString)
    with (String b (e +:+ String model.quote EmptyString)).
  rewrite trim_left_cons, Hb.
  change (String b (e +:+ String model.quote EmptyString))
    with (String b e +:+ String model.quote EmptyString).
  apply trim_right_snoc.
Qed.

Lemma trim_right_cons_ne c a r :
  Ascii.eqb a c = false ->
  model.trim_right c (String a r) = String a (model.trim_right c r).
Proof. intros H. simpl. by rewrite H. Qed.

(** When what is left has no backslash it is the string itself. *)
Lemma trim_escape_inv s :
  no_special (model.trim_right model.quote (model.json_escape s)) = true ->
  model.trim_right model.quote (model.json_escape s) = s.
Proof.
  induction s as [|a s IH]; [done|].
  simpl model.json_escape.
  destruct (Ascii.eqb a model.quote || Ascii.eqb a model.backslash) eqn:Ha.
  - rewrite trim_right_cons_ne by reflexivity. discriminate.
  - apply orb_false_iff in Ha as [Hq Hb].
    rewrite trim_right_cons_ne by done.
    simpl no_special. intros H. apply andb_true_iff in H as [_ H].
    by rewrite IH.
Qed.

Lemma Trim_token_plain s :
  plain s = true -> model.bytes_Trim (model.token_text s) model.quote = s.
Proof.
  intros H. apply plain_no_special in H.
  by rewrite Trim_token_text, json_escape_no_special, trim_right_no_special.
Qed.

Lemma plain_until_quote_app s rest :
  plain s = true ->
  model.plain_until_quote (s +:+ String model.quote rest) = Some (s, rest).
Proof.
  induction s as [|c s IH]; simpl.
  - by rewrite ?Ascii.eqb_refl.
  - intros H. apply andb_true_iff in H as [Hc Hs].
    unfold is_plain in Hc.
    repeat (apply andb_true_iff in Hc as [Hc ?]).
    destruct (Ascii.eqb c model.quote); [done|].
    destruct (Ascii.eqb c model.backslash); [done|]. simpl.
    replace (byte_val c <? 32) with false by lia.
    by rewrite IH.
Qed.

Lemma to_valid_utf8_fuel_plain s fuel :
  plain s = true -> (String.length s <= fuel)%nat -> to_valid_utf8_fuel fuel s = s.
Proof.
  revert s. induction fuel as [|fuel IH]; intros [|c s]; simpl; try done; [lia|].
  intros H Hl. apply andb_true_iff in H as [Hc Hs].
  unfold is_plain in Hc. repeat (apply andb_true_iff in Hc as [Hc ?]).
  replace (byte_val c <? 128) with true by lia.
  rewrite IH; [done|done|lia].
Qed.

Lemma plain_utf8_valid s : plain s = true -> utf8_valid s.
Proof. intros H. by apply to_valid_utf8_fuel_plain. Qed.

(** ** What Format writes *)

Lemma is_plain_digit d : 0 <= d < 10 -> is_plain (digit_char d) = true.
Proof. apply (forallb_range (fun d => is_plain (digit_char d)) 10). reflexivity. Qed.

Lemma plain_digits_of fuel u acc :
  plain acc = true -> plain (time.digits_of fuel u acc) = true.
Proof.
  revert u acc. induction fuel as [|fuel IH]; intros u acc Hacc; simpl; [done|].
  assert (plain (String (digit_char (u mod 10)) acc) = true) as Hd.
  { simpl. rewrite Hacc, is_plain_digit; [done|]. apply Z.mod_pos_bound. lia. }
  destruct (u <? 10); [done|]. by apply IH.
Qed.

Lemma plain_zeros n : plain (time.zeros n) = true.
Proof. induction n; simpl; [done|]. by rewrite IHn. Qed.

Lemma plain_appendInt x w : plain (time.appendInt x w) = true.
Proof.
  unfold time.appendInt. rewrite !plain_app, plain_zeros, plain_digits_of by done.
  by destruct (x <? 0).
Qed.

Lemma plain_Format t : plain (time.Format t) = true.
Proof.
  unfold time.Format. rewrite !plain_app, !plain_appendInt. simpl.
  destruct (time.zone_offset (time.Loc t) =? 0); [done|].
  rewrite !plain_app, !plain_appendInt.
  by destruct (Z.quot (time.zone_offset (time.Loc t)) 60 <? 0).
Qed.

(** The encoder reads every output of [MarshalJSON] as the string that
    [Format] wrote. *)
Lemma read_token_MarshalJSON t :
  model.read_token (model.MarshalJSON t) = Some (JString (time.Format t)).
Proof.
  unfold model.read_token, model.MarshalJSON. rewrite Ascii.eqb_refl.
  rewrite plain_until_quote_app by apply plain_Format.
  do 2 f_equal. apply plain_utf8_valid, plain_Format.
Qed.

(** [UnmarshalJSON] reads back what [MarshalJSON] wrote for a time the
    layout writes in full. *)
Lemma UnmarshalJSON_Format t :
  rfc3339_exact t -> model.UnmarshalJSON (model.token_text (time.Format t)) = Ok t.
Proof.
  intros Ht. unfold model.UnmarshalJSON.
  rewrite Trim_token_plain by apply plain_Format.
  by rewrite Parse_Format.
Qed.

(** ** Decoding what the encoder wrote *)

Lemma dec_AddressDetails_enc strict field a old saved :
  valid_AddressDetails a ->
  dec_struct field (model.step_AddressDetails strict) (model.enc_AddressDetails a) old saved
  = Ok (a, saved).
Proof.
  destruct a, old. unfold valid_AddressDetails, utf8_valid. simpl.
  intros (H1 & H2 & H3 & H4 & H5 & H6 & H7).
  cbv -[to_valid_utf8].
  by rewrite H1, H2, H3, H4, H5, H6, H7.
Qed.

Lemma dec_PaymentDetails_enc strict field p old saved :
  valid_PaymentDetails p ->
  dec_struct field (model.step_PaymentDetails strict) (model.enc_PaymentDetails p) old saved
  = Ok (p, saved).
Proof.
  destruct p, old. unfold valid_PaymentDetails, utf8_valid. simpl.
  intros (H1 & H2 & H3 & H4 & H5 & H6 & H7 & H8 & H9 & H10).
  cbv -[to_valid_utf8 in_int64].
  rewrite H5, H6, H8, H9, H10.
  by rewrite H1, H2, H3, H4, H7.
Qed.

Lemma dec_ProductItem_enc strict field i old saved :
  valid_ProductItem i ->
  dec_struct field (model.step_ProductItem strict) (model.enc_ProductItem i) old saved
  = Ok (i, saved).
Proof.
  destruct i, old. unfold valid_ProductItem, utf8_valid. simpl.
  intros (H1 & H2 & H3 & H4 & H5 & H6 & H7 & H8 & H9 & H10 & H11).
  cbv -[to_valid_utf8 in_int64].
  rewrite H1, H3, H6, H8, H9, H11.
  by rewrite H2, H4, H5, H7, H10.
Qed.

Lemma dec_elements_enc strict field l old saved :
  Forall valid_ProductItem l ->
  dec_elements (dec_struct field (model.step_ProductItem strict)) model.zero_ProductItem
    (map model.enc_ProductItem l) old saved
  = Ok (l, saved).
Proof.
  intros Hl. revert old. induction Hl as [|i l Hi Hl IH]; intros old; [done|].
  cbn [map dec_elements]. unfold dec_bind at 1.
  rewrite dec_ProductItem_enc by done.
  unfold dec_bind at 1. by rewrite IH.
Qed.

Lemma dec_Products_enc strict s old saved :
  Forall valid_ProductItem (slice_elems s) ->
  dec_slice "items" (dec_struct "items" (model.step_ProductItem strict))
    model.zero_ProductItem (model.enc_Products s) old saved
  = Ok (s, saved).
Proof.
  destruct s as [l|]; simpl; [|done].
  intros Hl. unfold dec_bind. by rewrite dec_elements_enc.
Qed.

Lemma dec_struct_object {A} field (step : string -> json -> A -> Dec A) members old :
  dec_struct field step (JObject members) old = dec_members step members old.
Proof. reflexivity. Qed.

Lemma enc_OrderDetails_total o : exists v, model.enc_OrderDetails o = Some v.
Proof. unfold model.enc_OrderDetails. rewrite read_token_MarshalJSON. eauto. Qed.

(** Decode the members up to the next nested value. *)
Ltac decode_members :=
  cbv -[to_valid_utf8 in_int64 dec_struct dec_slice model.enc_AddressDetails
        model.enc_PaymentDetails model.enc_Products model.step_AddressDetails
        model.step_PaymentDetails model.step_ProductItem model.UnmarshalJSON
        model.token_text time.Format model.zero_ProductItem].

Lemma dec_OrderDetails_enc strict o old saved v :
  valid_OrderDetails o -> rfc3339_exact (model.CreationTimestamp o) ->
  model.enc_OrderDetails o = Some v ->
  model.dec_OrderDetails strict v old saved = Ok (o, saved).
Proof.
  unfold model.enc_OrderDetails. rewrite read_token_MarshalJSON.
  destruct o, old. unfold valid_OrderDetails, utf8_valid. simpl.
  intros (H1 & H2 & H3 & H4 & H5 & H6 & H7 & H8 & H9 & H10 & H11 & H12 & H13) Ht [= <-].
  unfold model.dec_OrderDetails. rewrite dec_struct_object.
  decode_members. rewrite dec_AddressDetails_enc by done.
  decode_members. rewrite dec_PaymentDetails_enc by done.
  decode_members. rewrite dec_Products_enc by done.
  decode_members. rewrite H12.
  decode_members. rewrite UnmarshalJSON_Format by done.
  decode_members. by rewrite H1, H2, H3, H7, H8, H9, H10, H11, H13.
Qed.

(** ** The codec round trip *)

(** C7, as stated, fails: a valid order whose timestamp has a fraction
    of a second is encoded without the fraction, and decoding yields
    another order. *)
Lemma codec_roundtrip_drops_fraction :
  spec_valid_order 1 order_half_second /\
  exists data o',
    model.json_Marshal order_half_second = Ok data /\
    model.ParseOrder data 1 = Ok o' /\
    o' <> order_half_second.
Proof.
  split.
  - unfold spec_valid_order, valid_OrderDetails, valid_AddressDetails,
      valid_PaymentDetails, utf8_valid, time.normal. simpl.
    repeat split; try reflexivity; try discriminate; try lia.
    repeat constructor.
  - eexists _, _. split; [reflexivity|]. split; [vm_compute; reflexivity|].
    discriminate.
Qed.

(** C7 (amended): for every order the codec keeps, with at most
    [maxItems] items and a creation timestamp that the layout writes in
    full (UTC, a year of four digits, no fraction of a second),
    [json.Marshal] succeeds and [ParseOrder] of its output is the
    order. *)
Theorem codec_roundtrip (o : model.OrderDetails) (maxItems : Z) :
  valid_OrderDetails o ->
  model.len_Products o <= maxItems ->
  rfc3339_exact (model.CreationTimestamp o) ->
  exists data,
    model.json_Marshal o = Ok data /\ model.ParseOrder data maxItems = Ok o.
Proof.
  intros Hv Hlen Ht.
  destruct (enc_OrderDetails_total o) as [v Hv'].
  exists (Doc v false). unfold model.json_Marshal. rewrite Hv'. split; [done|].
  unfold model.ParseOrder, model.json_Decoder_Decode, run_dec.
  rewrite (dec_OrderDetails_enc _ o) by done.
  by replace (maxItems <? model.len_Products o) with false by lia.
Qed.

Lemma codec_roundtrip_witness :
  (valid_OrderDetails test_order /\ model.len_Products test_order <= 1 /\
   rfc3339_exact (model.CreationTimestamp test_order)) /\
  exists data,
    model.json_Marshal test_order = Ok data /\ model.ParseOrder data 1 = Ok test_order.
Proof.
  assert (valid_OrderDetails test_order) as Hv.
  { unfold valid_OrderDetails, valid_AddressDetails, valid_PaymentDetails, utf8_valid.
    simpl. repeat split; try reflexivity. repeat constructor. }
  assert (model.len_Products test_order <= 1) as Hl by (vm_compute; discriminate).
  assert (rfc3339_exact (model.CreationTimestamp test_order)) as Ht.
  { unfold rfc3339_exact, time.normal. simpl.
    repeat split; try reflexivity; vm_compute; discriminate. }
  split; [done|]. exact (codec_roundtrip test_order 1 Hv Hl Ht).
Defined.

(** ** The layout of a timestamp *)

Lemma getyear_inv s y r :
  time.getyear s = Some (y, r) -> exists Y, s = Y +:+ r /\ digits 4 Y /\ value Y = y.
Proof.
  destruct s as [|a [|b [|c [|d s]]]]; simpl; try discriminate.
  destruct (isDigit a) eqn:Ha, (isDigit b) eqn:Hb, (isDigit c) eqn:Hc,
    (isDigit d) eqn:Hd; simpl; try discriminate.
  intros [= <- <-].
  exists (String a (String b (String c (String d EmptyString)))).
  split; [done|]. split.
  - split; [done|]. simpl. by rewrite Ha, Hb, Hc, Hd.
  - unfold value. simpl. lia.
Qed.

Lemma getnum_inv s fixed n r :
  time.getnum s fixed = Some (n, r) ->
  exists N, s = N +:+ r /\ (digits 2 N \/ (fixed = false /\ digits 1 N)) /\ value N = n.
Proof.
  destruct s as [|a s]; simpl; [discriminate|].
  destruct (isDigit a) eqn:Ha; [|discriminate].
  assert (forall r', (if fixed then None else Some (digit_val a, r')) = Some (n, r) ->
            exists N, String a r' = N +:+ r /\
                      (digits 2 N \/ (fixed = false /\ digits 1 N)) /\ value N = n) as Hone.
  { intros r'. destruct fixed; [discriminate|]. intros [= <- <-].
    exists (String a EmptyString). split; [done|]. split.
    - right. split; [done|]. split; [done|]. simpl. by rewrite Ha.
    - unfold value. simpl. lia. }
  destruct s as [|b s]; [apply Hone|].
  destruct (isDigit b) eqn:Hb; [|apply Hone].
  intros [= <- <-]. exists (String a (String b EmptyString)).
  split; [done|]. split.
  - left. split; [done|]. simpl. by rewrite Ha, Hb.
  - unfold value. simpl. lia.
Qed.

Lemma getnum_fixed_inv s n r :
  time.getnum s true = Some (n, r) -> exists N, s = N +:+ r /\ digits 2 N /\ value N = n.
Proof.
  intros H. apply getnum_inv in H as (N & -> & [HN|[? _]] & Hv); [|done]. eauto.
Qed.

Lemma skip_inv c s r : time.skip c s = Some r -> s = String c r.
Proof.
  destruct s as [|a s]; simpl; [discriminate|].
  destruct (Ascii.eqb a c) eqn:Ha; [|discriminate].
  apply Ascii.eqb_eq in Ha. by intros [= <-]; subst.
Qed.

Lemma span_digits_inv s ds r :
  time.span_digits s = (ds, r) -> s = ds +:+ r /\ all_digits ds = true.
Proof.
  revert ds r. induction s as [|a s IH]; simpl; intros ds r.
  - by intros [= <- <-].
  - destruct (isDigit a) eqn:Ha.
    + destruct (time.span_digits s) as [ds' r'] eqn:E. intros [= <- <-].
      destruct (IH _ _ eq_refl) as [-> Hd]. split; [done|]. simpl. by rewrite Ha.
    + by intros [= <- <-].
Qed.

Lemma getfrac_inv s ns r :
  time.getfrac s = (ns, r) -> exists F, s = F +:+ r /\ fraction F.
Proof.
  assert (forall s0, (0, s0) = (ns, r) -> exists F, s0 = F +:+ r /\ fraction F) as Hnone.
  { intros s0 [= <- <-]. exists EmptyString. split; [done|]. by left. }
  destruct s as [|a [|b s]]; simpl; try apply Hnone.
  destruct (time.commaOrPeriod a) eqn:Ha; [|apply Hnone].
  destruct (isDigit b) eqn:Hb; [|apply Hnone]. simpl.
  destruct (time.span_digits s) as [ds r'] eqn:E. intros [= <- <-].
  apply span_digits_inv in E as [-> Hd].
  exists (String a (String b ds)). split; [done|]. right.
  exists a, (String b ds). repeat split; [done|done|]. simpl. by rewrite Hb.
Qed.

Lemma getzone_inv s z r :
  time.getzone s = Some (z, r) -> exists Z0, s = Z0 +:+ r /\ utc_offset Z0.
Proof.
  destruct s as [|sg s]; simpl; [discriminate|].
  destruct (Ascii.eqb sg "Z") eqn:HZ.
  { apply Ascii.eqb_eq in HZ as ->. intros [= <- <-].
    exists "Z". split; [done|]. by left. }
  destruct s as [|h1 [|h2 [|c [|m1 [|m2 s]]]]]; try discriminate.
  destruct (Ascii.eqb c ":") eqn:Hc; [|discriminate]. simpl negb. cbv iota.
  apply Ascii.eqb_eq in Hc as ->.
  destruct (isDigit h1) eqn:H1; [|discriminate].
  destruct (isDigit h2) eqn:H2; [|discriminate].
  destruct (isDigit m1) eqn:H3; [|discriminate].
  destruct (isDigit m2) eqn:H4; [|discriminate].
  destruct ((24 <? digit_val h1 * 10 + digit_val h2)
            || (60 <? digit_val m1 * 10 + digit_val m2)) eqn:Hrange; [discriminate|].
  intros H.
  assert ((sg = "+"%char \/ sg = "-"%char) /\ r = s) as [Hs ->].
  { destruct (Ascii.eqb sg "+") eqn:Hp.
    - apply Ascii.eqb_eq in Hp. injection H as _ <-. auto.
    - destruct (Ascii.eqb sg "-") eqn:Hm; [|discriminate].
      apply Ascii.eqb_eq in Hm. injection H as _ <-. auto. }
  exists (String sg (String h1 (String h2 EmptyString) +:+ ":" +:+
                     String m1 (String m2 EmptyString))).
  split; [done|]. right.
  exists sg, (String h1 (String h2 EmptyString)), (String m1 (String m2 EmptyString)).
  unfold digits, value. simpl. rewrite H1, H2, H3, H4.
  repeat split; try done; lia.
Qed.

Lemma append_nil_r s : s +:+ EmptyString = s.
Proof.
  induction s as [|a s IH]; [done|].
  change (String a (s +:+ EmptyString) = String a s). by f_equal.
Qed.

(** [time.Parse] accepts only strings of the layout. *)
Lemma Parse_layout s t : time.Parse s = Some t -> rfc3339_layout s.
Proof.
  unfold time.Parse.
  destruct (time.getyear s) as [[year v1]|] eqn:E1; [|discriminate].
  destruct (time.skip "-" v1) as [v2|] eqn:E2; [|discriminate].
  destruct (time.getnum v2 true) as [[month v3]|] eqn:E3; [|discriminate].
  destruct ((month <=? 0) || (12 <? month)) eqn:R3; [discriminate|].
  destruct (time.skip "-" v3) as [v4|] eqn:E4; [|discriminate].
  destruct (time.getnum v4 true) as [[day v5]|] eqn:E5; [|discriminate].
  destruct (time.skip "T" v5) as [v6|] eqn:E6; [|discriminate].
  destruct (time.getnum v6 false) as [[hour v7]|] eqn:E7; [|discriminate].
  destruct (24 <=? hour) eqn:R7; [discriminate|].
  destruct (time.skip ":" v7) as [v8|] eqn:E8; [|discriminate].
  destruct (time.getnum v8 true) as [[min v9]|] eqn:E9; [|discriminate].
  destruct (60 <=? min) eqn:R9; [discriminate|].
  destruct (time.skip ":" v9) as [v10|] eqn:E10; [|discriminate].
  destruct (time.getnum v10 true) as [[sec v11]|] eqn:E11; [|discriminate].
  destruct (60 <=? sec) eqn:R11; [discriminate|].
  destruct (time.getfrac v11) as [nsec v12] eqn:E12.
  destruct (time.getzone v12) as [[z v13]|] eqn:E13; [|discriminate].
  destruct (String.eqb v13 EmptyString) eqn:E14; [|discriminate]. simpl negb. cbv iota.
  destruct ((day <? 1) || (time.daysIn month year <? day)) eqn:R5; [discriminate|].
  intros _.
  apply String.eqb_eq in E14 as ->.
  apply getyear_inv in E1 as (Y & -> & HY & <-).
  apply skip_inv in E2 as ->.
  apply getnum_fixed_inv in E3 as (M & -> & HM & <-).
  apply skip_inv in E4 as ->.
  apply getnum_fixed_inv in E5 as (D & -> & HD & <-).
  apply skip_inv in E6 as ->.
  apply getnum_inv in E7 as (h & -> & Hh & <-).
  apply skip_inv in E8 as ->.
  apply getnum_fixed_inv in E9 as (m & -> & Hm & <-).
  apply skip_inv in E10 as ->.
  apply getnum_fixed_inv in E11 as (sc & -> & Hsc & <-).
  apply getfrac_inv in E12 as (F & -> & HF).
  apply getzone_inv in E13 as (Z0 & -> & HZ0).
  rewrite append_nil_r.
  apply (layout_intro Y M D h m sc F Z0); try done; try lia.
  destruct Hh as [Hh|[_ Hh]]; auto.
Qed.

Lemma isDigit_not_special c : isDigit c = true -> is_special c = false.
Proof.
  unfold isDigit, is_special. intros H.
  destruct (Ascii.eqb c model.quote) eqn:Hq;
    [apply Ascii.eqb_eq in Hq; subst; discriminate|].
  destruct (Ascii.eqb c model.backslash) eqn:Hb;
    [apply Ascii.eqb_eq in Hb; subst; discriminate|]. done.
Qed.

Lemma all_digits_no_special s : all_digits s = true -> no_special s = true.
Proof.
  induction s as [|a s IH]; simpl; [done|].
  intros H. apply andb_true_iff in H as [Ha Hs].
  by rewrite (isDigit_not_special a Ha), IH.
Qed.

(** A string of the layout has neither a quote nor a backslash. *)
Lemma layout_no_special s : rfc3339_layout s -> no_special s = true.
Proof.
  intros [Y M D h m sc F Z0 [_ HY] [_ HM] [_ HD] Hh [_ Hm] [_ Hsc] HF HZ0 _ _ _ _ _].
  assert (no_special h = true) as Hh' by (destruct Hh as [[_ ?]|[_ ?]]; by apply all_digits_no_special).
  assert (no_special F = true) as HF'.
  { destruct HF as [->|(sep & ds & -> & Hsep & _ & Hds)]; [done|].
    simpl. rewrite (all_digits_no_special ds Hds), andb_true_r.
    unfold time.commaOrPeriod in Hsep. apply orb_true_iff in Hsep as [H|H];
      apply Ascii.eqb_eq in H; by subst. }
  assert (no_special Z0 = true) as HZ'.
  { destruct HZ0 as [->|(sg & hh & mm & -> & Hsg & [_ Hhh] & [_ Hmm] & _)]; [done|].
    simpl. rewrite !no_special_app, (all_digits_no_special hh Hhh),
      (all_digits_no_special mm Hmm). simpl. rewrite andb_true_r.
    by destruct Hsg; subst. }
  rewrite !no_special_app.
  rewrite (all_digits_no_special Y), (all_digits_no_special M),
    (all_digits_no_special D), (all_digits_no_special m),
    (all_digits_no_special sc), Hh', HF', HZ' by done.
  reflexivity.
Qed.

(** [UnmarshalJSON] accepts the text of a string token only when the
    string is of the layout. *)
Lemma UnmarshalJSON_layout s t :
  model.UnmarshalJSON (model.token_text s) = Ok t -> rfc3339_layout s.
Proof.
  unfold model.UnmarshalJSON. rewrite Trim_token_text.
  destruct (time.Parse _) as [t'|] eqn:E; [|discriminate]. intros _.
  apply Parse_layout in E.
  by rewrite <- (trim_escape_inv s (layout_no_special _ E)).
Qed.

(** *** The layout is what Parse accepts *)

Lemma getyear_digits Y r : digits 4 Y -> time.getyear (Y +:+ r) = Some (value Y, r).
Proof.
  intros [Hl Hd]. destruct Y as [|a [|b [|c [|d [|e Y]]]]]; try discriminate.
  simpl in Hd.
  destruct (isDigit a) eqn:Ha, (isDigit b) eqn:Hb, (isDigit c) eqn:Hc,
    (isDigit d) eqn:Hdd; try discriminate.
  simpl. by rewrite Ha, Hb, Hc, Hdd.
Qed.

Lemma getnum_digits2 N r fixed :
  digits 2 N -> time.getnum (N +:+ r) fixed = Some (value N, r).
Proof.
  intros [Hl Hd]. destruct N as [|a [|b [|c N]]]; try discriminate.
  simpl in Hd. destruct (isDigit a) eqn:Ha, (isDigit b) eqn:Hb; try discriminate.
  simpl. by rewrite Ha, Hb.
Qed.

Lemma getnum_digits1 N c r :
  digits 1 N -> isDigit c = false ->
  time.getnum (N +:+ String c r) false = Some (value N, String c r).
Proof.
  intros [Hl Hd] Hc. destruct N as [|a [|b N]]; try discriminate.
  simpl in Hd. destruct (isDigit a) eqn:Ha; try discriminate.
  simpl. by rewrite Ha, Hc.
Qed.

Lemma span_digits_app ds c r :
  all_digits ds = true -> isDigit c = false ->
  time.span_digits (ds +:+ String c r) = (ds, String c r).
Proof.
  intros Hd Hc. induction ds as [|a ds IH]; simpl.
  - by rewrite Hc.
  - simpl in Hd. apply andb_true_iff in Hd as [Ha Hd]. rewrite Ha.
    by rewrite (IH Hd).
Qed.

(** An offset opens with a byte that is neither a digit nor a
    separator of a fraction. *)
Lemma utc_offset_head Z0 :
  utc_offset Z0 ->
  exists c r, Z0 = String c r /\ isDigit c = false /\ time.commaOrPeriod c = false.
Proof.
  intros [->|(sg & hh & mm & -> & [->| ->] & _)]; eexists _, _; by repeat split.
Qed.

Lemma getfrac_layout F Z0 :
  fraction F -> utc_offset Z0 -> exists ns, time.getfrac (F +:+ Z0) = (ns, Z0).
Proof.
  intros HF HZ. destruct (utc_offset_head Z0 HZ) as (c & r & -> & Hc & Hsep).
  destruct HF as [->|(sep & ds & -> & Hs & Hne & Hd)].
  - simpl. rewrite Hsep. destruct r; simpl; eauto.
  - destruct ds as [|b ds]; [done|].
    simpl in Hd. apply andb_true_iff in Hd as [Hb Hd].
    change (String sep (String b ds) +:+ String c r)
      with (String sep (String b (ds +:+ String c r))).
    unfold time.getfrac. rewrite Hs, Hb. simpl.
    rewrite Hb, (span_digits_app ds c r Hd Hc). eauto.
Qed.

Lemma getzone_layout Z0 :
  utc_offset Z0 -> exists z, time.getzone Z0 = Some (z, EmptyString).
Proof.
  intros [->|(sg & hh & mm & -> & Hsg & [Hlh Hdh] & [Hlm Hdm] & Hh & Hm)].
  - by eexists.
  - destruct hh as [|h1 [|h2 [|x hh]]]; try discriminate.
    destruct mm as [|m1 [|m2 [|x mm]]]; try discriminate.
    simpl in Hdh, Hdm.
    destruct (isDigit h1) eqn:H1, (isDigit h2) eqn:H2, (isDigit m1) eqn:H3,
      (isDigit m2) eqn:H4; try discriminate.
    unfold value in Hh, Hm. simpl in Hh, Hm.
    assert (Ascii.eqb sg "Z" = false) as HZ by (by destruct Hsg as [->| ->]).
    simpl. rewrite HZ, H1, H2, H3, H4.
    replace ((24 <? digit_val h1 * 10 + digit_val h2)
             || (60 <? digit_val m1 * 10 + digit_val m2)) with false by lia.
    destruct Hsg as [->| ->]; simpl; eauto.
Qed.

(** [time.Parse] accepts every string of the layout. *)
Lemma layout_Parse s : rfc3339_layout s -> exists t, time.Parse s = Some t.
Proof.
  intros [Y M D h m sc F Z0 HY HM HD Hh Hm Hsc HF HZ0 RM RD Rh Rm Rs].
  unfold time.Parse.
  rewrite getyear_digits, skip_literal, getnum_digits2 by done.
  replace ((value M <=? 0) || (12 <? value M)) with false by lia.
  rewrite skip_literal, getnum_digits2, skip_literal by done.
  assert (time.getnum (h +:+ ":" +:+ m +:+ ":" +:+ sc +:+ F +:+ Z0) false
          = Some (value h, ":" +:+ m +:+ ":" +:+ sc +:+ F +:+ Z0)) as ->.
  { destruct Hh as [Hh|Hh]; [by apply getnum_digits1|by apply getnum_digits2]. }
  replace (24 <=? value h) with false by lia.
  rewrite skip_literal, getnum_digits2 by done.
  replace (60 <=? value m) with false by lia.
  rewrite skip_literal, getnum_digits2 by done.
  replace (60 <=? value sc) with false by lia.
  destruct (getfrac_layout F Z0 HF HZ0) as [ns ->].
  destruct (getzone_layout Z0 HZ0) as [z ->]. simpl.
  replace ((value D <? 1) || (time.daysIn (value M) (value Y) <? value D))
    with false by lia.
  eauto.
Qed.

(** [UnmarshalJSON] accepts the text of a string token exactly when the
    string is of the layout. *)
Lemma UnmarshalJSON_accepts s :
  rfc3339_layout s <-> exists t, model.UnmarshalJSON (model.token_text s) = Ok t.
Proof.
  split.
  - intros Hl. unfold model.UnmarshalJSON.
    pose proof (layout_no_special s Hl) as Hs.
    rewrite Trim_token_text, json_escape_no_special, trim_right_no_special by done.
    destruct (layout_Parse s Hl) as [t ->]. eauto.
  - intros [t Ht]. by apply UnmarshalJSON_layout in Ht.
Qed.

(** The hour may have one digit; a date alone is not of the layout. *)
Example Parse_one_digit_hour :
  time.Parse "2021-11-26T6:22:19Z" = Some (time.Date 2021 11 26 6 22 19 0 time.UTC).
Proof. reflexivity. Qed.

Example Parse_date_only : time.Parse "2021-11-26" = None.
Proof. reflexivity. Qed.

(** ** Decoding that ends in an error *)

Create HintDb sticky.

Lemma sticky_ret {A} (a : A) : sticky (dec_ret a).
Proof. by intros e. Qed.

Lemma sticky_fail {A} e : sticky (@dec_fail A e).
Proof. by intros e'. Qed.

Lemma sticky_saveError e : sticky (saveError e).
Proof. by intros e'. Qed.

Lemma failing_bind {A B} (m : Dec A) (k : A -> Dec B) saved :
  failing (m saved) -> (forall a, sticky (k a)) -> failing (dec_bind m k saved).
Proof.
  unfold dec_bind. destruct (m saved) as [[a [e|]]|e]; simpl; try done.
  intros _ Hk. apply Hk.
Qed.

Lemma sticky_bind {A B} (m : Dec A) (k : A -> Dec B) :
  sticky m -> (forall a, sticky (k a)) -> sticky (dec_bind m k).
Proof. intros Hm Hk e. by apply failing_bind. Qed.

#[local] Hint Resolve sticky_ret sticky_fail sticky_saveError sticky_bind : sticky.

Lemma sticky_dec_string field v old : sticky (dec_string field v old).
Proof. destruct v; simpl; eauto with sticky. Qed.

Lemma sticky_dec_int field v old : sticky (dec_int field v old).
Proof. destruct v; simpl; try case_match; eauto with sticky. Qed.

Lemma sticky_dec_members {A} (step : string -> json -> A -> Dec A) members old :
  (forall k v a, sticky (step k v a)) -> sticky (dec_members step members old).
Proof.
  intros Hstep. revert old.
  induction members as [|[k v] members IH]; intros old; simpl; eauto with sticky.
Qed.

Lemma sticky_dec_struct {A} field (step : string -> json -> A -> Dec A) v old :
  (forall k v a, sticky (step k v a)) -> sticky (dec_struct field step v old).
Proof.
  intros Hstep. destruct v; simpl; eauto using sticky_dec_members with sticky.
Qed.

Lemma sticky_dec_elements {A} (elem : json -> A -> Dec A) zero elements old :
  (forall v a, sticky (elem v a)) -> sticky (dec_elements elem zero elements old).
Proof.
  intros Helem. revert old.
  induction elements as [|v elements IH]; intros old; simpl; eauto 6 with sticky.
Qed.

Lemma sticky_dec_slice {A} field (elem : json -> A -> Dec A) zero v old :
  (forall v a, sticky (elem v a)) -> sticky (dec_slice field elem zero v old).
Proof.
  intros Helem. destruct v; simpl; eauto using sticky_dec_elements with sticky.
Qed.

Lemma sticky_unknown {A} strict k (old : A) : sticky (model.unknown strict k old).
Proof. unfold model.unknown. destruct strict; eauto with sticky. Qed.

Lemma sticky_dec_ISO8601Time v old : sticky (model.dec_ISO8601Time v old).
Proof.
  destruct v; simpl; eauto with sticky. case_match; eauto with sticky.
Qed.

#[local] Hint Resolve sticky_dec_string sticky_dec_int sticky_dec_struct
  sticky_dec_slice sticky_unknown sticky_dec_ISO8601Time : sticky.

Lemma sticky_step_AddressDetails strict k v a :
  sticky (model.step_AddressDetails strict k v a).
Proof. unfold model.step_AddressDetails. repeat case_match; eauto with sticky. Qed.

Lemma sticky_step_PaymentDetails strict k v p :
  sticky (model.step_PaymentDetails strict k v p).
Proof. unfold model.step_PaymentDetails. repeat case_match; eauto with sticky. Qed.

Lemma sticky_step_ProductItem strict k v i :
  sticky (model.step_ProductItem strict k v i).
Proof. unfold model.step_ProductItem. repeat case_match; eauto with sticky. Qed.

#[local] Hint Resolve sticky_step_AddressDetails sticky_step_PaymentDetails
  sticky_step_ProductItem : sticky.

Lemma sticky_step_OrderDetails strict k v o :
  sticky (model.step_OrderDetails strict k v o).
Proof. unfold model.step_OrderDetails. repeat case_match; eauto 7 with sticky. Qed.

(** One member whose step ends in an error makes the whole object end
    in an error. *)
Lemma dec_members_failing {A} (step : string -> json -> A -> Dec A) members k v :
  In (k, v) members ->
  (forall a saved, failing (step k v a saved)) ->
  (forall k v a, sticky (step k v a)) ->
  forall old saved, failing (dec_members step members old saved).
Proof.
  intros Hin Hbad Hsticky.
  induction members as [|[k' v'] members IH]; intros old saved; [done|].
  simpl. destruct Hin as [[= -> ->]|Hin].
  - apply failing_bind; [apply Hbad|]. intros a. by apply sticky_dec_members.
  - unfold dec_bind. destruct (step k' v' old saved) as [[a s']|e]; [|done].
    by apply IH.
Qed.

Lemma run_dec_failing {A} (m : Dec A) :
  failing (m None) -> exists e, run_dec m = Err e.
Proof. unfold run_dec. destruct (m None) as [[a [e|]]|e]; simpl; eauto. done. Qed.

(** A key that selects no field is an error of the strict decoder. *)
Lemma step_OrderDetails_unknown k v o saved :
  (forall f, In f model.order_field_names -> key_is k f = false) ->
  failing (model.step_OrderDetails true k v o saved).
Proof.
  intros Hk. unfold model.step_OrderDetails.
  rewrite !Hk by (simpl; tauto).
  unfold model.unknown, dec_bind, saveError. by destruct saved.
Qed.

(** The key of the creation timestamp selects that field. *)
Lemma step_OrderDetails_date_created strict k v o :
  key_is k "date_created" = true ->
  model.step_OrderDetails strict k v o
  = (x <-- model.dec_ISO8601Time v (model.CreationTimestamp o) ;;;
     dec_ret (model.set_CreationTimestamp x o)).
Proof.
  unfold key_is. intros Hk. apply String.eqb_eq in Hk.
  unfold model.step_OrderDetails, key_is. by rewrite Hk.
Qed.

Lemma step_OrderDetails_bad_time strict k s o saved :
  key_is k "date_created" = true -> ~ rfc3339_layout s ->
  failing (model.step_OrderDetails strict k (JString s) o saved).
Proof.
  intros Hk Hs. rewrite step_OrderDetails_date_created by done.
  unfold dec_bind. simpl.
  destruct (model.UnmarshalJSON (model.token_text s)) as [t|e] eqn:E; [|done].
  by apply UnmarshalJSON_layout in E.
Qed.


Lemma length_append a b :
  String.length (a +:+ b) = (String.length a + String.length b)%nat.
Proof.
  induction a as [|c a IH]; [done|].
  change (S (String.length (a +:+ b)) = S (String.length a + String.length b)).
  by f_equal.
Qed.

(** A string of the layout has at least 19 bytes. *)
Lemma layout_length s : rfc3339_layout s -> (19 <= String.length s)%nat.
Proof.
  intros [Y M D h m sc F Z0 [HY _] [HM _] [HD _] Hh [Hm _] [Hsc _] _ HZ0 _ _ _ _ _].
  rewrite !length_append, HY, HM, HD, Hm, Hsc. simpl.
  assert (1 <= String.length h)%nat by (destruct Hh as [[-> _]|[-> _]]; lia).
  assert (1 <= String.length Z0)%nat; [|lia].
  destruct HZ0 as [->|(sg & hh & mm & -> & _)]; simpl; lia.
Qed.


(** A key that differs from a field's name by case selects the field. *)
Example ParseOrder_folds_keys :
  model.ParseOrder (Doc (JObject [("Order_UID", JString "b563feb7b2b84b6test")]) false) 0
  = Ok (model.set_OrderID "b563feb7b2b84b6test" model.zero_OrderDetails).
Proof. reflexivity. Qed.

(** ** The cache *)

Section Ristretto.
Context {V : Type}.
Implicit Types c : ristretto.Cache V.

Lemma apply_set_setBuf c kv :
  ristretto.setBuf (ristretto.apply_set c kv) = ristretto.setBuf c.
Proof.
  destruct kv as [k v]. unfold ristretto.apply_set.
  repeat case_match; reflexivity.
Qed.

Lemma fold_apply_set_setBuf l c :
  ristretto.setBuf (fold_left ristretto.apply_set l c) = ristretto.setBuf c.
Proof.
  revert c. induction l as [|kv l IH]; intros c; simpl; [done|].
  by rewrite IH, apply_set_setBuf.
Qed.

(** After [Wait] no set is pending. *)
Lemma Wait_setBuf c : ristretto.setBuf (ristretto.Wait c) = [].
Proof. unfold ristretto.Wait. by rewrite fold_apply_set_setBuf. Qed.

(** [Set] and then [Wait] on a cache without pending sets: the key is
    read back exactly when the cache admits it. *)
Lemma Set_Wait_Get c key value :
  ristretto.setBuf c = [] ->
  ristretto.Get key (ristretto.Wait (ristretto.Set_ key value c).2)
  = if admits c key then Some value else None.
Proof.
  intros Hbuf. unfold ristretto.Set_, admits, ristretto.Get.
  destruct (ristretto.store c !! key) as [old|] eqn:Hk.
  - unfold ristretto.Wait. simpl. rewrite Hbuf. simpl. by rewrite lookup_insert_eq.
  - rewrite Hbuf. simpl.
    unfold ristretto.Wait. simpl. rewrite Hk.
    destruct (ristretto.MaxCost c <? 1) eqn:Hmax.
    { replace (1 <=? ristretto.MaxCost c) with false by lia. by simpl. }
    replace (1 <=? ristretto.MaxCost c) with true by lia. simpl.
    destruct (Z.of_nat (size (ristretto.store c)) + 1 <=? ristretto.MaxCost c);
      simpl; [by rewrite lookup_insert_eq|].
    destruct (ristretto.policy c) as [|[|victim] script]; simpl; try done.
    destruct (ristretto.store c !! victim) as [x|] eqn:Hv; simpl.
    + by rewrite lookup_insert_eq.
    + done.
Qed.

End Ristretto.

(** ** The cache service *)

Section CacheService.
Import ristrettocache.
Context {D : Type} `{DBService D}.
Implicit Types s : cacheService D.

(** [AddOrder] and [GetOrder] leave no set pending. *)
Lemma AddOrder_settled s (o : model.OrderDetails) :
  ristretto.setBuf (cache (AddOrder s o).2) = [].
Proof.
  unfold AddOrder.
  destruct (ristretto.Set_ (model.OrderID o) o (cache s)) as [b c].
  destruct (db_AddOrder (db s) o) as [e d]. simpl. apply Wait_setBuf.
Qed.

Lemma GetOrder_settled s (orderUID : string) :
  ristretto.setBuf (cache s) = [] ->
  ristretto.setBuf (cache (GetOrder s orderUID).2) = [].
Proof.
  intros Hbuf. unfold GetOrder, getFromCache, addToCache.
  destruct (ristretto.Get orderUID (cache s)); [done|]. simpl.
  destruct (db_GetOrder (db s) orderUID) as [[order|e] d]; simpl; [|done].
  destruct (ristretto.Set_ orderUID order (cache s)) as [b c]. simpl.
  apply Wait_setBuf.
Qed.



Lemma fold_apply_set_MaxCost {V} l (c : ristretto.Cache V) :
  ristretto.MaxCost (fold_left ristretto.apply_set l c) = ristretto.MaxCost c.
Proof.
  revert c. induction l as [|[k v] l IH]; intros c; simpl; [done|].
  rewrite IH. unfold ristretto.apply_set. repeat case_match; reflexivity.
Qed.

Lemma Set_Wait_MaxCost {V} (c : ristretto.Cache V) key value :
  ristretto.MaxCost (ristretto.Wait (ristretto.Set_ key value c).2)
  = ristretto.MaxCost c.
Proof.
  unfold ristretto.Wait. rewrite fold_apply_set_MaxCost.
  unfold ristretto.Set_. repeat case_match; reflexivity.
Qed.

Lemma warm_step s id :
  exists x,
    x.1 = id /\
    calls (warm s id) = (calls s ++ warm_calls x)%list /\
    maxSize (warm s id) = maxSize s /\
    ristretto.MaxCost (cache (warm s id)) = ristretto.MaxCost (cache s) /\
    (ristretto.setBuf (cache s) = [] -> ristretto.setBuf (cache (warm s id)) = []).
Proof.
  unfold warm. destruct (db_GetOrder (db s) id) as [[order|err] d].
  - destruct (ristretto.Set_ id order (cache s)) as [b c] eqn:ESet.
    exists (id, None). simpl.
    replace c with (ristretto.Set_ id order (cache s)).2 by (by rewrite ESet).
    rewrite Set_Wait_MaxCost, Wait_setBuf. done.
  - by exists (id, Some err).
Qed.

Lemma fold_warm ids s :
  exists outcomes,
    map fst outcomes = ids /\
    calls (fold_left warm ids s) = (calls s ++ concat (map warm_calls outcomes))%list /\
    maxSize (fold_left warm ids s) = maxSize s /\
    ristretto.MaxCost (cache (fold_left warm ids s)) = ristretto.MaxCost (cache s) /\
    (ristretto.setBuf (cache s) = [] ->
     ristretto.setBuf (cache (fold_left warm ids s)) = []).
Proof.
  revert s. induction ids as [|id ids IH]; intros s.
  { exists []. simpl. by rewrite app_nil_r. }
  simpl. destruct (IH (warm s id)) as (outcomes & Hids & Hcalls & Hmax & Hcost & Hbuf).
  destruct (warm_step s id) as (x & Hx & Hc1 & Hm1 & Hk1 & Hb1).
  exists (x :: outcomes). simpl.
  rewrite Hx, Hids, Hcalls, Hmax, Hcost, Hc1, Hm1, Hk1, <- app_assoc.
  repeat split; try done. intros Hs. by apply Hbuf, Hb1.
Qed.

Lemma wrap64_times_10 cacheSize :
  0 < cacheSize < 2 ^ 63 -> wrap64 (cacheSize * 10) <> 0.
Proof.
  unfold wrap64. intros Hs Hw.
  change (2 ^ 64) with 18446744073709551616 in *.
  change (2 ^ 63) with 9223372036854775808 in *.
  Z.div_mod_to_equations. lia.
Qed.


End CacheService.

Import main.

(** C3.  For every database service: a key the cache holds is answered
    from the cache with no call on the database; on a miss the order is
    fetched, set in the cache and returned; and an error of the fetch is
    returned as it is, with the cache as it was.  For the database
    service of this repository, on a miss: the error is [ErrNoRows]
    when the first query does not fail and [orders] has no row of the
    key, and it is the error of the connection when the first query
    fails. *)
Theorem GetOrder_cache_aside :
  (forall D (H : ristrettocache.DBService D) (s : ristrettocache.cacheService D)
          (orderUID : string),
     let hit := ristrettocache.mkService (ristrettocache.cache s)
                    (ristrettocache.db s) (ristrettocache.maxSize s)
                    (ristrettocache.calls s ++ [ristrettocache.CacheGet orderUID]) in
     let filled o d :=
       ristrettocache.mkService
         (ristretto.Wait (ristretto.Set_ orderUID o (ristrettocache.cache s)).2) d
         (ristrettocache.maxSize s)
         (ristrettocache.calls s ++
            [ristrettocache.CacheGet orderUID; ristrettocache.DbGetOrder orderUID None;
             ristrettocache.CacheSet orderUID; ristrettocache.CacheWait]) in
     let failed e d :=
       ristrettocache.mkService (ristrettocache.cache s) d (ristrettocache.maxSize s)
         (ristrettocache.calls s ++
            [ristrettocache.CacheGet orderUID;
             ristrettocache.DbGetOrder orderUID (Some e)]) in
     (forall o, ristretto.Get orderUID (ristrettocache.cache s) = Some o ->
        ristrettocache.GetOrder s orderUID = (Ok o, hit)) /\
     (forall o d, ristretto.Get orderUID (ristrettocache.cache s) = None ->
        ristrettocache.db_GetOrder (ristrettocache.db s) orderUID = (Ok o, d) ->
        ristrettocache.GetOrder s orderUID = (Ok o, filled o d)) /\
     (forall e d, ristretto.Get orderUID (ristrettocache.cache s) = None ->
        ristrettocache.db_GetOrder (ristrettocache.db s) orderUID = (Err e, d) ->
        ristrettocache.GetOrder s orderUID = (Err e, failed e d))) /\
  (forall (s : main.App) (orderUID : string),
     ristretto.Get orderUID (ristrettocache.cache s) = None ->
     let first_query := data_base.next_call (data_base.faults (ristrettocache.db s)) in
     (first_query.1 = false ->
      data_base.orders (data_base.tables (ristrettocache.db s)) !! orderUID = None ->
      (ristrettocache.GetOrder s orderUID).1 = Err ErrNoRows /\
      ristrettocache.cache (ristrettocache.GetOrder s orderUID).2 = ristrettocache.cache s) /\
     (first_query.1 = true ->
      (ristrettocache.GetOrder s orderUID).1 = Err ErrConn /\
      ristrettocache.cache (ristrettocache.GetOrder s orderUID).2 = ristrettocache.cache s)).
Proof.
  split.
  - intros D H s orderUID. cbv zeta.
    unfold ristrettocache.GetOrder, ristrettocache.getFromCache, ristrettocache.addToCache.
    split; [|split].
    + intros o ->. done.
    + intros o d -> Hdb. simpl. rewrite Hdb. simpl.
      destruct (ristretto.Set_ orderUID o (ristrettocache.cache s)) as [b c]. simpl.
      by rewrite <- !app_assoc.
    + intros e d -> Hdb. simpl. rewrite Hdb. simpl. by rewrite <- !app_assoc.
  - intros s orderUID Hmiss. cbv zeta.
    unfold ristrettocache.GetOrder, ristrettocache.getFromCache. rewrite Hmiss.
    simpl. unfold data_base.GetOrder.
    destruct (data_base.next_call (data_base.faults (ristrettocache.db s)))
      as [fault fs]. simpl.
    split.
    + intros -> Hrow. rewrite Hrow. done.
    + intros ->. done.
Qed.





Lemma GetOrder_cache_aside_witness :
  (ristrettocache.GetOrder fresh_service "b563feb7b2b84b6test").1 = Err ErrNoRows /\
  (ristrettocache.GetOrder failing_service "b563feb7b2b84b6test").1 = Err ErrConn /\
  (ristrettocache.GetOrder (ristrettocache.AddOrder fresh_service test_order).2
     "b563feb7b2b84b6test").1 = Ok test_order.
Proof.
  destruct GetOrder_cache_aside as [Hany Hdb].
  split; [|split].
  - by apply (Hdb fresh_service "b563feb7b2b84b6test" eq_refl).
  - by apply (Hdb failing_service "b563feb7b2b84b6test" eq_refl).
  - destruct (Hany _ _ (ristrettocache.AddOrder fresh_service test_order).2
                "b563feb7b2b84b6test") as (Hhit & _ & _).
    by rewrite (Hhit test_order eq_refl).
Defined.


(** A database that holds the sender's order and fails the fetch of
    it: construction succeeds with an empty cache. *)
Example warm_up_skips_failed_fetch :
  let dbConn := data_base.mkDb (data_base.tables (data_base.AddOrder empty_db test_order).2)
                  1 [false; true] in
  exists s,
    ristrettocache.NewCacheService [] 1024 dbConn = Ok s /\
    ristrettocache.calls s
    = [ristrettocache.DbGetRecentOrderIDs 1024 None;
       ristrettocache.DbGetOrder "b563feb7b2b84b6test" (Some ErrConn)] /\
    ristretto.store (ristrettocache.cache s) = ∅.
Proof. eexists. split; [vm_compute; reflexivity|]. split; reflexivity. Qed.


(** ** The database service *)

Section Database.
Import data_base.

Lemma next_call_hd_tl fs : next_call fs = (hd false fs, tl fs).
Proof. by destruct fs. Qed.

Lemma no_fault_S n fs : hd false fs = false -> no_fault n (tl fs) -> no_fault (S n) fs.
Proof.
  intros Hhd Htl i Hi. destruct i as [|i].
  - by destruct fs.
  - destruct fs as [|f fs]; [done|]. apply (Htl i). lia.
Qed.

Lemma drop_S_tl {A} n (l : list A) : drop (S n) l = drop n (tl l).
Proof. by destruct l; [destruct n|]. Qed.

Lemma tl_drop {A} n (l : list A) : tl (drop n l) = drop n (tl l).
Proof.
  revert l. induction n as [|n IH]; intros l; [done|].
  destruct l as [|x l]; [done|]. simpl. rewrite IH. by rewrite drop_S_tl.
Qed.

Lemma exec_Ok stmt tx fs tx' fs' :
  exec stmt tx fs = (Ok tx', fs') ->
  hd false fs = false /\ stmt tx = Ok tx' /\ fs' = tl fs.
Proof.
  unfold exec. rewrite next_call_hd_tl.
  destruct (hd false fs); [discriminate|]. by intros [= -> ->].
Qed.

Lemma insert_items_Ok l tx fs tx' fs' :
  insert_items l tx fs = (Ok tx', fs') ->
  tx' = mkTables (delivery tx) (payment tx) (with_items l (items tx)) (orders tx)
          (order_item_conn tx) /\
  no_fault (List.length l) fs /\ fs' = drop (List.length l) fs.
Proof.
  revert tx fs. induction l as [|i l IH]; intros tx fs; simpl.
  - intros [= -> ->]. split; [by destruct tx'|]. split; [|done]. intros i Hi. lia.
  - destruct (exec (insert_item i) tx fs) as [[tx1|e] fs1] eqn:E; [|discriminate].
    intros Hrest. apply exec_Ok in E as (Hhd & Hstmt & ->).
    apply IH in Hrest as (-> & Hnf & ->).
    unfold insert_item in Hstmt. repeat case_match; try discriminate.
    injection Hstmt as <-. simpl.
    split; [done|]. split; [by apply no_fault_S|]. by rewrite drop_S_tl.
Qed.

(** [GetRecentOrderIDs] returns at most [limit] ids and leaves the
    tables as they are. *)
Lemma GetRecentOrderIDs_limit (s : dbService) (limit : Z) ids s' :
  GetRecentOrderIDs s limit = (Ok ids, s') ->
  len ids <= limit /\ tables s' = tables s.
Proof.
  unfold GetRecentOrderIDs. rewrite next_call_hd_tl.
  destruct (hd false (faults s) || (limit <? 0)) eqn:E; [discriminate|].
  intros [= <- <-]. split; [|done].
  apply orb_false_iff in E as [_ E].
  unfold len. rewrite length_map, length_take. lia.
Qed.


(** The sender's order twice: the second call fails on the primary key
    of [payment] and leaves the tables of the first. *)
Example AddOrder_twice :
  let s1 := (AddOrder empty_db test_order).2 in
  (AddOrder empty_db test_order).1 = None /\
  (AddOrder s1 test_order).1 = Some (ErrUniqueViolation "payment") /\
  tables (AddOrder s1 test_order).2 = tables s1 /\
  size (delivery (tables s1)) = 1%nat.
Proof. vm_compute. repeat split. Qed.

(** A failed commit leaves the tables empty. *)
Example AddOrder_commit_fails :
  let s := mkDb empty_tables 0 [false; false; false; false; false; true] in
  (AddOrder s test_order).1 = Some ErrConn /\
  tables (AddOrder s test_order).2 = empty_tables.
Proof. vm_compute. repeat split. Qed.

End Database.

(** ** The listener *)

(** C5, as stated, fails.  With a ceiling of one item [ParseOrder]
    refuses the payload of an order with two, but the listener does not
    call [ParseOrder]: it decodes the payload and the service caches
    and stores the order. *)
Lemma listener_has_no_ceiling :
  exists data,
    model.json_Marshal two_items_order = Ok data /\
    model.json_Unmarshal data = Ok two_items_order /\
    1 < model.len_Products two_items_order /\
    model.ParseOrder data 1 = Err TooManyProducts /\
    let s' := kafka.StartListening [kafka.Message data] fresh_service in
    ristretto.Get (model.OrderID two_items_order) (ristrettocache.cache s')
    = Some two_items_order /\
    is_Some (data_base.orders (data_base.tables (ristrettocache.db s'))
             !! model.OrderID two_items_order) /\
    size (data_base.items (data_base.tables (ristrettocache.db s'))) = 2%nat.
Proof.
  eexists. split; [reflexivity|].
  split; [vm_compute; reflexivity|].
  split; [reflexivity|].
  split; [vm_compute; reflexivity|].
  cbv zeta. split; [vm_compute; reflexivity|].
  split; vm_compute; eauto.
Qed.

(** What [SendOrder] writes for an order the codec keeps, the listener
    hands to the store's [AddOrder] as that order. *)
Lemma SendOrder_handle {S : Type} `{kafka.Store S} (store : S) (o : model.OrderDetails) :
  valid_OrderDetails o -> rfc3339_exact (model.CreationTimestamp o) ->
  exists data,
    kafka.SendOrder false o = (None, [data]) /\
    kafka.handle store (kafka.Message data) = (kafka.store_AddOrder store o).2.
Proof.
  intros Hv Ht. destruct (enc_OrderDetails_total o) as [v Hv'].
  exists (Doc v false). unfold kafka.SendOrder, model.json_Marshal. rewrite Hv'.
  split; [done|].
  unfold kafka.handle, kafka.decodeOrder, model.json_Unmarshal, run_dec.
  by rewrite (dec_OrderDetails_enc _ o).
Qed.

(** C5 (amended): the listener decodes every message with
    [decodeOrder], that is [json.Unmarshal]: a payload that decodes to
    an order is handed to the store's [AddOrder] whatever the number of
    its items, and a payload that does not decode is dropped with the
    store as it was.  The ceiling is [ParseOrder]'s: a payload that its
    decoder reads as an order with more than [maxItems] items is
    refused there with [TooManyProducts]. *)
Theorem listener_decodes_without_ceiling {S : Type} `{kafka.Store S}
    (store : S) (data : payload) :
  (forall order,
     model.json_Unmarshal data = Ok order ->
     kafka.handle store (kafka.Message data) = (kafka.store_AddOrder store order).2) /\
  (forall e,
     model.json_Unmarshal data = Err e ->
     kafka.handle store (kafka.Message data) = store) /\
  (forall order maxItems,
     model.json_Decoder_Decode true data = Ok order ->
     maxItems < model.len_Products order ->
     model.ParseOrder data maxItems = Err TooManyProducts).
Proof.
  unfold kafka.handle, kafka.decodeOrder, model.ParseOrder.
  split; [|split].
  - by intros order ->.
  - by intros e ->.
  - intros order maxItems -> Hlen.
    by replace (maxItems <? model.len_Products order) with true by lia.
Qed.

Lemma listener_decodes_without_ceiling_witness :
  (exists data,
     model.json_Marshal two_items_order = Ok data /\
     kafka.handle fresh_service (kafka.Message data)
     = (ristrettocache.AddOrder fresh_service two_items_order).2 /\
     model.ParseOrder data 1 = Err TooManyProducts) /\
  kafka.handle fresh_service (kafka.Message Malformed) = fresh_service.
Proof.
  split.
  - eexists. split; [reflexivity|].
    match goal with
    | |- kafka.handle _ (kafka.Message ?d) = _ /\ _ =>
        destruct (listener_decodes_without_ceiling fresh_service d) as (Hok & _ & Hmax)
    end.
    split.
    + apply (Hok two_items_order). vm_compute. reflexivity.
    + apply (Hmax two_items_order 1); [vm_compute; reflexivity|reflexivity].
  - destruct (listener_decodes_without_ceiling fresh_service Malformed) as (_ & Hdrop & _).
    by apply (Hdrop SyntaxError).
Defined.

(** ** The transport *)

(** C6, as stated, fails: a lookup that ends with the database's
    not-found error and a lookup that ends with a failure of the
    connection are both answered with status 500. *)
Lemma not_found_is_internal_error :
  (ristrettocache.GetOrder fresh_service "b563feb7b2b84b6test").1 = Err ErrNoRows /\
  httptransport.StatusCode
    (httptransport.orderHandler fresh_service (get_request "b563feb7b2b84b6test")).1
  = 500 /\
  (ristrettocache.GetOrder failing_service "b563feb7b2b84b6test").1 = Err ErrConn /\
  httptransport.StatusCode
    (httptransport.orderHandler failing_service (get_request "b563feb7b2b84b6test")).1
  = 500.
Proof. repeat split; reflexivity. Qed.

(** C6 (amended): for a GET request with an order identifier, every
    error of the store's [GetOrder], the not-found error like any other,
    is answered with status 500 and the text of the error; the two
    outcomes differ by that text only.  A response of class 4xx is
    given to another method (405) and to a missing identifier (400). *)
Theorem orderHandler_errors {S : Type} `{kafka.Store S} (store : S)
    (r : httptransport.Request) :
  (forall e store',
     httptransport.Method r = "GET" ->
     httptransport.query_order_uid r <> EmptyString ->
     kafka.store_GetOrder store (httptransport.query_order_uid r) = (Err e, store') ->
     httptransport.orderHandler store r
     = (httptransport.http_Error ("Error fetching order: " +:+ httptransport.error_text e)
          httptransport.StatusInternalServerError, store')) /\
  (httptransport.Method r <> "GET" ->
   httptransport.orderHandler store r
   = (httptransport.http_Error "Invalid method" httptransport.StatusMethodNotAllowed,
      store)) /\
  (httptransport.Method r = "GET" ->
   httptransport.query_order_uid r = EmptyString ->
   httptransport.orderHandler store r
   = (httptransport.http_Error "Missing order UID" httptransport.StatusBadRequest,
      store)).
Proof.
  unfold httptransport.orderHandler.
  split; [|split].
  - intros e store' -> Huid Hget. simpl.
    apply String.eqb_neq in Huid. by rewrite Huid, Hget.
  - intros Hm. apply String.eqb_neq in Hm. by rewrite Hm.
  - intros -> ->. done.
Qed.

Lemma orderHandler_errors_witness :
  (httptransport.orderHandler fresh_service (get_request "b563feb7b2b84b6test")).1
  = httptransport.http_Error "Error fetching order: no rows in result set" 500 /\
  (httptransport.orderHandler fresh_service
     {| httptransport.Method := "POST";
        httptransport.query_order_uid := "b563feb7b2b84b6test" |}).1
  = httptransport.http_Error "Invalid method" 405 /\
  (httptransport.orderHandler fresh_service (get_request EmptyString)).1
  = httptransport.http_Error "Missing order UID" 400.
Proof.
  split; [|split].
  - destruct (orderHandler_errors fresh_service (get_request "b563feb7b2b84b6test"))
      as (Herr & _ & _).
    by rewrite (Herr ErrNoRows
                  (kafka.store_GetOrder fresh_service "b563feb7b2b84b6test").2
                  eq_refl ltac:(discriminate) eq_refl).
  - destruct (orderHandler_errors fresh_service
                {| httptransport.Method := "POST";
                   httptransport.query_order_uid := "b563feb7b2b84b6test" |})
      as (_ & Hm & _).
    by rewrite Hm.
  - destruct (orderHandler_errors fresh_service (get_request EmptyString))
      as (_ & _ & Huid).
    by rewrite Huid.
Defined.

(** * Further properties of the code *)

Section DatabaseRows.
Import data_base.

Lemma no_fault_inv n fs :
  no_fault (S n) fs -> hd false fs = false /\ no_fault n (tl fs).
Proof.
  intros Hnf. split.
  - specialize (Hnf 0%nat ltac:(lia)). by destruct fs.
  - intros i Hi. specialize (Hnf (S i) ltac:(lia)). by destruct fs; [destruct i|].
Qed.

Lemma no_fault_0 fs : no_fault 0 fs.
Proof. intros i Hi. lia. Qed.

Lemma exec_no_fault stmt tx fs :
  hd false fs = false -> exec stmt tx fs = (stmt tx, tl fs).
Proof. intros Hhd. unfold exec. rewrite next_call_hd_tl, Hhd. done. Qed.

Lemma insert_item_Ok i tx tx' :
  insert_item i tx = Ok tx' <->
  fits_item i = true /\ items tx !! model.ChartID i = None /\
  tx' = mkTables (delivery tx) (payment tx) (<[model.ChartID i := i]> (items tx))
          (orders tx) (order_item_conn tx).
Proof.
  unfold insert_item. fold (fits_item i).
  destruct (fits_item i); simpl; [|by split; [|intros (? & _)]].
  destruct (items tx !! model.ChartID i); [by split; [|intros (_ & ? & _)]|].
  split; [by intros [= <-]|by intros (_ & _ & ->)].
Qed.

Lemma with_items_cons i l m :
  with_items (i :: l) m = with_items l (<[model.ChartID i := i]> m).
Proof. done. Qed.

(** The inserts of a list of products succeed exactly when no call
    fails, the numbers fit, and the keys are new and distinct. *)
Lemma insert_items_Ok_iff l tx fs :
  (exists tx' fs', insert_items l tx fs = (Ok tx', fs')) <->
  no_fault (List.length l) fs /\
  Forall (fun i => fits_item i = true /\ items tx !! model.ChartID i = None) l /\
  NoDup (map model.ChartID l).
Proof.
  revert tx fs. induction l as [|i l IH]; intros tx fs; simpl.
  - split; [|by eauto].
    intros _. split; [apply no_fault_0|]. split; constructor.
  - split.
    + intros (tx' & fs' & Hrun).
      destruct (exec (insert_item i) tx fs) as [[tx1|e] fs1] eqn:E; [|discriminate].
      apply exec_Ok in E as (Hhd & Hstmt & ->).
      apply insert_item_Ok in Hstmt as (Hfit & Hnew & ->).
      destruct (proj1 (IH _ _) (ex_intro _ tx' (ex_intro _ fs' Hrun)))
        as (Hnf & Hall & Hnd).
      simpl in Hall.
      split; [by apply no_fault_S|]. split.
      * constructor; [done|].
        eapply Forall_impl; [exact Hall|]. intros j [Hj1 Hj2]. split; [done|].
        by apply lookup_insert_None in Hj2 as [? _].
      * apply NoDup_cons. split; [|done].
        intros Hin. apply list_elem_of_In, in_map_iff in Hin as (j & Hj & Hin).
        rewrite Forall_forall in Hall. apply list_elem_of_In in Hin.
        apply Hall in Hin as [_ Hin]. simpl in Hin.
        apply lookup_insert_None in Hin as [_ Hne]. congruence.
    + intros (Hnf & Hall & Hnd).
      apply no_fault_inv in Hnf as [Hhd Hnf].
      apply Forall_cons in Hall as [[Hfit Hnew] Hall].
      apply NoDup_cons in Hnd as [Hnotin Hnd].
      rewrite exec_no_fault by done.
      rewrite (proj2 (insert_item_Ok i tx _) (conj Hfit (conj Hnew eq_refl))).
      apply IH. split; [done|]. split; [|done]. simpl.
      rewrite Forall_forall in Hall |- *. intros j Hj.
      destruct (Hall j Hj) as [Hj1 Hj2]. split; [done|].
      apply lookup_insert_None. split; [done|].
      intros Heq. apply Hnotin. apply list_elem_of_In, in_map_iff.
      exists j. split; [done|]. by apply list_elem_of_In.
Qed.

(** An old row of [items] is still there after the inserts, each
    product has its row, and there is no other row. *)
Lemma with_items_lookup_old l m k r :
  m !! k = Some r ->
  Forall (fun i => model.ChartID i <> k) l ->
  with_items l m !! k = Some r.
Proof.
  revert m. induction l as [|i l IH]; intros m Hk Hall; [done|].
  apply Forall_cons in Hall as [Hi Hall]. rewrite with_items_cons.
  apply IH; [|done]. by rewrite lookup_insert_ne.
Qed.

Lemma with_items_lookup_new l m i :
  In i l -> NoDup (map model.ChartID l) -> with_items l m !! model.ChartID i = Some i.
Proof.
  revert m. induction l as [|j l IH]; intros m Hin Hnd; [done|].
  simpl in Hnd. apply NoDup_cons in Hnd as [Hnotin Hnd]. rewrite with_items_cons.
  destruct Hin as [->|Hin]; [|by apply IH].
  apply with_items_lookup_old; [by rewrite lookup_insert_eq|].
  rewrite Forall_forall. intros j Hj Heq. apply Hnotin.
  apply list_elem_of_In, in_map_iff. exists j. split; [done|]. by apply list_elem_of_In.
Qed.

Lemma with_items_lookup_inv l m k r :
  with_items l m !! k = Some r -> m !! k = Some r \/ (In r l /\ model.ChartID r = k).
Proof.
  revert m. induction l as [|j l IH]; intros m Hk; [by left|].
  rewrite with_items_cons in Hk. apply IH in Hk as [Hk|[Hin Hk]].
  - apply lookup_insert_Some in Hk as [[<- <-]|[_ Hk]]; [right|left]; [|done].
    split; [by left|done].
  - right. split; [by right|done].
Qed.

Lemma insert_delivery_Ok id a tx tx' :
  insert_delivery id a tx = Ok tx' <->
  in_int32 id = true /\ delivery tx !! id = None /\
  tx' = mkTables (<[id := a]> (delivery tx)) (payment tx) (items tx) (orders tx)
          (order_item_conn tx).
Proof.
  unfold insert_delivery.
  destruct (in_int32 id); simpl; [|by split; [|intros (? & _)]].
  destruct (delivery tx !! id); [by split; [|intros (_ & ? & _)]|].
  split; [by intros [= <-]|by intros (_ & _ & ->)].
Qed.

Lemma insert_payment_Ok p tx tx' :
  insert_payment p tx = Ok tx' <->
  fits_payment p = true /\ payment tx !! model.TransactionID p = None /\
  tx' = mkTables (delivery tx) (<[model.TransactionID p := p]> (payment tx)) (items tx)
          (orders tx) (order_item_conn tx).
Proof.
  unfold insert_payment. fold (fits_payment p).
  destruct (fits_payment p); simpl; [|by split; [|intros (? & _)]].
  destruct (payment tx !! model.TransactionID p); [by split; [|intros (_ & ? & _)]|].
  split; [by intros [= <-]|by intros (_ & _ & ->)].
Qed.

Lemma insert_order_Ok o id tx tx' :
  insert_order o id tx = Ok tx' <->
  in_int32 (model.SMID o) = true /\ orders tx !! model.OrderID o = None /\
  tx' = mkTables (delivery tx) (payment tx) (items tx)
          (<[model.OrderID o := order_row o id]> (orders tx)) (order_item_conn tx).
Proof.
  unfold insert_order.
  destruct (in_int32 (model.SMID o)); simpl; [|by split; [|intros (? & _)]].
  destruct (orders tx !! model.OrderID o); [by split; [|intros (_ & ? & _)]|].
  split; [by intros [= <-]|by intros (_ & _ & ->)].
Qed.

(** What a call of [AddOrder] does, by its result. *)
Lemma AddOrder_inv s order :
  let t := tables s in
  let deliveryID := delivery_id_seq s + 1 in
  let products := slice_elems (model.Products order) in
  match AddOrder s order with
  | (Some _, s') =>
      tables s' = t /\ delivery_id_seq s <= delivery_id_seq s' <= deliveryID
  | (None, s') =>
      no_fault (5 + List.length products) (faults s) /\ insertable s order /\
      tables s'
      = mkTables (<[deliveryID := model.Address order]> (delivery t))
          (<[model.TransactionID (model.Payment order) := model.Payment order]> (payment t))
          (with_items products (items t))
          (<[model.OrderID order := order_row order deliveryID]> (orders t))
          (order_item_conn t) /\
      delivery_id_seq s' = deliveryID
  end.
Proof.
  cbv zeta. unfold AddOrder. rewrite next_call_hd_tl.
  destruct (hd false (faults s)) eqn:H0; [simpl; split; [done|lia]|].
  rewrite next_call_hd_tl.
  destruct (hd false (tl (faults s))) eqn:H1; [simpl; split; [done|lia]|].
  destruct (insert_delivery _ _ _) as [tx1|e] eqn:E1; [|simpl; split; [done|lia]].
  destruct (exec (insert_payment _) tx1 _) as [[tx2|e] fs2] eqn:E2; [|simpl; split; [done|lia]].
  destruct (exec (insert_order _ _) tx2 fs2) as [[tx3|e] fs3] eqn:E3; [|simpl; split; [done|lia]].
  destruct (insert_items _ tx3 fs3) as [[tx4|e] fs4] eqn:E4; [|simpl; split; [done|lia]].
  rewrite next_call_hd_tl.
  destruct (hd false fs4) eqn:H5; [simpl; split; [done|lia]|].
  simpl tables. simpl delivery_id_seq.
  apply exec_Ok in E2 as (H2 & S2 & ->).
  apply exec_Ok in E3 as (H3 & S3 & ->).
  apply insert_delivery_Ok in E1 as (I1 & N1 & ->).
  apply insert_payment_Ok in S2 as (I2 & N2 & ->). simpl in N2.
  apply insert_order_Ok in S3 as (I3 & N3 & ->). simpl in N3.
  destruct (proj1 (insert_items_Ok_iff _ _ _) (ex_intro _ tx4 (ex_intro _ fs4 E4)))
    as (_ & Hall & Hnd). simpl in Hall.
  apply insert_items_Ok in E4 as (-> & Hnf & ->). simpl.
  split; [|split; [|done]].
  - do 4 (apply no_fault_S; [done|]).
    intros i Hi. destruct (decide (i < List.length (slice_elems (model.Products order)))%nat)
      as [Hlt|Hge]; [by apply Hnf|].
    assert (i = List.length (slice_elems (model.Products order))) as -> by lia.
    rewrite <- H5. clear.
    generalize (tl (tl (tl (tl (faults s))))) as fs. intros fs.
    generalize (List.length (slice_elems (model.Products order))) as n.
    intros n. revert fs. induction n as [|n IH]; intros [|f fs]; simpl; done.
  - unfold insertable. cbv zeta. done.
Qed.

Lemma no_fault_nth n fs i : no_fault n fs -> (i < n)%nat -> hd false (drop i fs) = false.
Proof.
  intros Hnf Hi. transitivity (nth i fs false); [|by apply Hnf]. clear. revert fs.
  induction i as [|i IH]; intros [|f fs]; simpl; try done.
Qed.

(** Without a failing call, an order whose rows can be inserted is
    stored. *)
Lemma AddOrder_insertable s order :
  no_fault (5 + List.length (slice_elems (model.Products order))) (faults s) ->
  insertable s order ->
  (AddOrder s order).1 = None.
Proof.
  intros Hnf (I1 & N1 & I2 & N2 & I3 & N3 & Hall & Hnd).
  apply no_fault_inv in Hnf as [H0 Hnf]. apply no_fault_inv in Hnf as [H1 Hnf].
  apply no_fault_inv in Hnf as [H2 Hnf]. apply no_fault_inv in Hnf as [H3 Hnf].
  unfold AddOrder. rewrite next_call_hd_tl, H0, next_call_hd_tl, H1.
  rewrite (proj2 (insert_delivery_Ok _ _ _ _) (conj I1 (conj N1 eq_refl))).
  rewrite exec_no_fault by done.
  match goal with |- context [insert_payment ?p ?tx] =>
    rewrite (proj2 (insert_payment_Ok p tx _) (conj I2 (conj N2 eq_refl))) end.
  rewrite exec_no_fault by done.
  match goal with |- context [insert_order ?o ?id ?tx] =>
    rewrite (proj2 (insert_order_Ok o id tx _) (conj I3 (conj N3 eq_refl))) end.
  match goal with |- context [insert_items ?l ?tx ?fs] =>
    destruct (proj2 (insert_items_Ok_iff l tx fs)) as (tx4 & fs4 & E4) end.
  { split; [|split; [exact Hall|exact Hnd]].
    intros i Hi. apply Hnf. lia. }
  rewrite E4. apply insert_items_Ok in E4 as (_ & _ & ->).
  rewrite next_call_hd_tl.
  rewrite (no_fault_nth _ _ _ Hnf) by lia. done.
Qed.

(** [GetOrder] writes nothing. *)
Lemma GetOrder_reads s uid :
  tables (GetOrder s uid).2 = tables s /\
  delivery_id_seq (GetOrder s uid).2 = delivery_id_seq s.
Proof.
  unfold GetOrder. rewrite next_call_hd_tl.
  destruct (hd false (faults s)); [done|].
  destruct (orders (tables s) !! uid) as [r|]; [|done].
  rewrite next_call_hd_tl. destruct (hd false (tl (faults s))); [done|].
  destruct (delivery (tables s) !! delivery_id r) as [a|]; [|done].
  rewrite next_call_hd_tl. destruct (hd false (tl (tl (faults s)))); [done|].
  destruct (payment (tables s) !! payment_id r) as [p|]; [|done].
  rewrite next_call_hd_tl. by destruct (hd false (tl (tl (tl (faults s))))).
Qed.

Lemma GetRecentOrderIDs_reads s limit :
  tables (GetRecentOrderIDs s limit).2 = tables s /\
  delivery_id_seq (GetRecentOrderIDs s limit).2 = delivery_id_seq s.
Proof.
  unfold GetRecentOrderIDs. rewrite next_call_hd_tl.
  by destruct (hd false (faults s) || (limit <? 0)).
Qed.

(** No row of [order_item_conn] names an order that is not stored. *)
Lemma linked_items_nil t uid :
  foreign_keys t -> orders t !! uid = None ->
  forall its : gmap Z model.ProductItem,
    map snd (List.filter (fun r => bool_decide ((uid, fst r) ∈ order_item_conn t))
               (map_to_list its)) = [].
Proof.
  intros [_ Hfk] Hnone its.
  induction (map_to_list its) as [|r l IH]; [done|]. simpl.
  rewrite bool_decide_eq_false_2; [done|].
  intros Hin. apply Hfk in Hin as [[? Hin] _]. congruence.
Qed.

End DatabaseRows.

Section DatabaseService.
Import data_base.


(** X2: [AddOrder] only inserts: whatever it returns, every row that
    a table held before the call is in the table after it, unchanged,
    and [order_item_conn] is as it was. *)
Theorem AddOrder_insert_only (s : dbService) (order : model.OrderDetails) :
  let t := tables s in
  let t' := tables (AddOrder s order).2 in
  (forall id a, delivery t !! id = Some a -> delivery t' !! id = Some a) /\
  (forall k p, payment t !! k = Some p -> payment t' !! k = Some p) /\
  (forall k i, items t !! k = Some i -> items t' !! k = Some i) /\
  (forall k r, orders t !! k = Some r -> orders t' !! k = Some r) /\
  order_item_conn t' = order_item_conn t.
Proof.
  cbv zeta. pose proof (AddOrder_inv s order) as Hinv. cbv zeta in Hinv.
  destruct (AddOrder s order) as [[e|] s']; simpl.
  - destruct Hinv as [-> _]. done.
  - destruct Hinv as (_ & (_ & N1 & _ & N2 & _ & N3 & Hall & _) & -> & _). simpl.
    repeat split.
    + intros id a Hid. rewrite lookup_insert_ne; [done|]. congruence.
    + intros k p Hk. rewrite lookup_insert_ne; [done|]. congruence.
    + intros k i Hk. apply with_items_lookup_old; [done|].
      eapply Forall_impl; [exact Hall|]. intros j [_ Hj]. simpl in Hj. congruence.
    + intros k r Hk. rewrite lookup_insert_ne; [done|]. congruence.
Qed.

(** X3: an order is stored at most once.  After [AddOrder] has
    stored an order, [AddOrder] of the same order, or of any order with
    its identifier, with its payment's transaction, or with the
    [chrt_id] of one of its products, returns an error and leaves the
    tables as they are. *)
Theorem AddOrder_at_most_once (s s' : dbService) (order other : model.OrderDetails) :
  AddOrder s order = (None, s') ->
  model.OrderID other = model.OrderID order \/
  model.TransactionID (model.Payment other) = model.TransactionID (model.Payment order) \/
  (exists i j, In i (slice_elems (model.Products order)) /\
               In j (slice_elems (model.Products other)) /\
               model.ChartID j = model.ChartID i) ->
  exists e s'', AddOrder s' other = (Some e, s'') /\ tables s'' = tables s'.
Proof.
  intros Hadd Hshared.
  pose proof (AddOrder_inv s order) as Hinv. cbv zeta in Hinv. rewrite Hadd in Hinv.
  destruct Hinv as (_ & (_ & _ & _ & _ & _ & _ & _ & Hnd) & Ht & _).
  pose proof (AddOrder_inv s' other) as Hinv'. cbv zeta in Hinv'.
  destruct (AddOrder s' other) as [[e|] s''].
  { exists e, s''. by destruct Hinv' as [-> _]. }
  exfalso.
  destruct Hinv' as (_ & (_ & _ & _ & N2 & _ & N3 & Hall & _) & _).
  rewrite Ht in N2, N3, Hall. simpl in N2, N3, Hall.
  destruct Hshared as [Heq|[Heq|(i & j & Hi & Hj & Heq)]].
  - rewrite Heq, lookup_insert_eq in N3. discriminate.
  - rewrite Heq, lookup_insert_eq in N2. discriminate.
  - rewrite Forall_forall in Hall. apply list_elem_of_In, Hall in Hj as [_ Hj].
    rewrite Heq, (with_items_lookup_new _ _ _ Hi Hnd) in Hj. discriminate.
Qed.

Lemma AddOrder_consistent (s : dbService) (order : model.OrderDetails) :
  consistent s -> consistent (AddOrder s order).2.
Proof.
  intros ([Hfo Hfc] & (Hko & Hkp & Hki) & Hseq).
  pose proof (AddOrder_inv s order) as Hinv. cbv zeta in Hinv.
  destruct (AddOrder s order) as [[e|] s']; simpl.
  - destruct Hinv as [Ht Hs]. unfold consistent, sequence_ahead. rewrite Ht.
    split; [done|]. split; [done|]. intros id Hid. apply Hseq in Hid. lia.
  - destruct Hinv as (_ & (_ & N1 & _ & N2 & _ & N3 & Hall & Hnd) & Ht & Hs).
    unfold consistent, foreign_keys, primary_keys, sequence_ahead.
    rewrite Ht, Hs. simpl. repeat split.
    + apply lookup_insert_Some in H as [[_ <-]|[_ H]]; simpl.
      * rewrite lookup_insert_eq. by eexists.
      * apply Hfo in H as [[a Ha] _].
        exists a. rewrite lookup_insert_ne; [done|]. congruence.
    + apply lookup_insert_Some in H as [[_ <-]|[_ H]]; simpl.
      * rewrite lookup_insert_eq. by eexists.
      * apply Hfo in H as [_ [p Hp]].
        exists p. rewrite lookup_insert_ne; [done|]. congruence.
    + apply Hfc in H as [[r Hr] _].
      exists r. rewrite lookup_insert_ne; [done|]. congruence.
    + apply Hfc in H as [_ [i Hi]].
      exists i. apply with_items_lookup_old; [done|].
      eapply Forall_impl; [exact Hall|]. intros j [_ Hj]. simpl in Hj. congruence.
    + intros k r Hk. apply lookup_insert_Some in Hk as [[<- <-]|[_ Hk]]; [done|].
      by apply Hko.
    + intros k p Hk. apply lookup_insert_Some in Hk as [[<- <-]|[_ Hk]]; [done|].
      by apply Hkp.
    + intros k i Hk. apply with_items_lookup_inv in Hk as [Hk|[_ Hk]]; [|done].
      by apply Hki.
    + intros id [a Ha]. apply lookup_insert_Some in Ha as [[<- _]|[_ Ha]]; [lia|].
      assert (id <= delivery_id_seq s) by (apply Hseq; by eexists). lia.
Qed.

(** X4: the operations of the database service keep the database
    consistent: after each of them every order row still refers to a
    delivery row and to a payment row, every row is filed under its
    key, and the sequence of delivery ids has reached every id in
    use. *)
Theorem dbService_keeps_consistent (s : dbService) :
  consistent s ->
  (forall order, consistent (AddOrder s order).2) /\
  (forall orderUID, consistent (GetOrder s orderUID).2) /\
  (forall limit, consistent (GetRecentOrderIDs s limit).2).
Proof.
  intros Hc. split; [|split].
  - intros order. by apply AddOrder_consistent.
  - intros uid. destruct (GetOrder_reads s uid) as [Ht Hs].
    destruct Hc as (Hf & Hp & Hseq).
    unfold consistent, sequence_ahead. by rewrite Ht, Hs.
  - intros limit. destruct (GetRecentOrderIDs_reads s limit) as [Ht Hs].
    destruct Hc as (Hf & Hp & Hseq).
    unfold consistent, sequence_ahead. by rewrite Ht, Hs.
Qed.

(** X5: an order that [AddOrder] has stored is read back by
    [GetOrder], when none of its four queries fails, without its
    products and with its creation timestamp as the TIMESTAMP column
    keeps it; every other field is the one stored. *)
Theorem GetOrder_after_AddOrder (s s' : dbService) (order : model.OrderDetails) :
  foreign_keys (tables s) ->
  AddOrder s order = (None, s') ->
  no_fault 4 (faults s') ->
  (GetOrder s' (model.OrderID order)).1 = Ok (as_stored order).
Proof.
  intros Hfk Hadd Hnf.
  pose proof (AddOrder_inv s order) as Hinv. cbv zeta in Hinv. rewrite Hadd in Hinv.
  destruct Hinv as (_ & (_ & _ & _ & _ & _ & N3 & _) & Ht & _).
  apply no_fault_inv in Hnf as [H0 Hnf]. apply no_fault_inv in Hnf as [H1 Hnf].
  apply no_fault_inv in Hnf as [H2 Hnf]. apply no_fault_inv in Hnf as [H3 _].
  unfold GetOrder. rewrite next_call_hd_tl, H0, Ht. simpl.
  rewrite lookup_insert_eq. rewrite next_call_hd_tl, H1. simpl.
  rewrite lookup_insert_eq. rewrite next_call_hd_tl, H2. simpl.
  rewrite lookup_insert_eq. rewrite next_call_hd_tl, H3. simpl.
  unfold linked_items. simpl.
  rewrite (linked_items_nil (tables s) (model.OrderID order) Hfk N3).
  by destruct order.
Qed.


End DatabaseService.

Lemma empty_db_consistent : consistent empty_db.
Proof.
  unfold consistent, foreign_keys, primary_keys, sequence_ahead. simpl.
  split; [split|split; [repeat split|]].
  - intros uid r Hr. by rewrite lookup_empty in Hr.
  - intros uid c Hin. by apply not_elem_of_nil in Hin.
  - intros k r Hr. by rewrite lookup_empty in Hr.
  - intros k r Hr. by rewrite lookup_empty in Hr.
  - intros k r Hr. by rewrite lookup_empty in Hr.
  - intros id [a Ha]. by rewrite lookup_empty in Ha.
Qed.

Lemma test_order_insertable : insertable empty_db test_order.
Proof.
  unfold insertable. cbv zeta.
  split; [reflexivity|]. split; [reflexivity|]. split; [reflexivity|].
  split; [reflexivity|]. split; [reflexivity|]. split; [reflexivity|].
  split.
  - constructor; [|constructor]. split; reflexivity.
  - simpl. apply NoDup_singleton.
Qed.


Lemma AddOrder_at_most_once_witness :
  data_base.AddOrder empty_db test_order
  = (None, (data_base.AddOrder empty_db test_order).2) /\
  exists e s'',
    data_base.AddOrder (data_base.AddOrder empty_db test_order).2 test_order = (Some e, s'') /\
    data_base.tables s'' = data_base.tables (data_base.AddOrder empty_db test_order).2.
Proof.
  split; [vm_compute; reflexivity|].
  apply (AddOrder_at_most_once empty_db _ test_order test_order);
    [vm_compute; reflexivity|by left].
Defined.

Lemma dbService_keeps_consistent_witness :
  consistent empty_db /\
  consistent (data_base.AddOrder empty_db test_order).2.
Proof.
  split; [exact empty_db_consistent|].
  apply (dbService_keeps_consistent empty_db empty_db_consistent).
Defined.

Lemma GetOrder_after_AddOrder_witness :
  (data_base.GetOrder (data_base.AddOrder empty_db test_order).2
     (model.OrderID test_order)).1
  = Ok (as_stored test_order).
Proof.
  apply (GetOrder_after_AddOrder empty_db).
  - apply empty_db_consistent.
  - vm_compute; reflexivity.
  - intros i Hi. by destruct i.
Defined.


Section RecentOrders.
Import data_base.

Lemma before_lex a b : before a b = lex_lt (time_key a) (time_key b).
Proof. reflexivity. Qed.

Lemma lex_lt_trans x y z : lex_lt x y = true -> lex_lt y z = true -> lex_lt x z = true.
Proof.
  revert y z. induction x as [|u x IH]; intros [|v y] [|w z]; simpl; try done.
  rewrite !orb_true_iff, !andb_true_iff, !Z.ltb_lt, !Z.eqb_eq.
  intros [Huv|[-> Hxy]] [Hvw|[-> Hyz]]; try (left; lia); try (by left).
  right. split; [done|]. by apply (IH y z).
Qed.

Lemma lex_lt_irrefl x : lex_lt x x = false.
Proof.
  induction x as [|u x IH]; simpl; [done|].
  by rewrite Z.ltb_irrefl, Z.eqb_refl, IH.
Qed.

Lemma before_trans a b c : before a b = true -> before b c = true -> before a c = true.
Proof. rewrite !before_lex. apply lex_lt_trans. Qed.

Lemma before_asym a b : before a b = true -> before b a = false.
Proof.
  rewrite !before_lex. intros Hab.
  destruct (lex_lt (time_key b) (time_key a)) eqn:Hba; [|done].
  by rewrite <- (lex_lt_irrefl (time_key a)), (lex_lt_trans _ _ _ Hab Hba).
Qed.

Lemma insert_desc_perm r l : insert_desc r l ≡ₚ r :: l.
Proof.
  induction l as [|x l IH]; simpl; [done|].
  destruct (before _ _); [done|]. rewrite IH. apply Permutation_swap.
Qed.

Lemma newest_first_perm l : newest_first l ≡ₚ l.
Proof.
  induction l as [|x l IH]; simpl; [done|].
  rewrite insert_desc_perm. by rewrite IH.
Qed.

Lemma insert_desc_sorted r l :
  StronglySorted not_older l -> StronglySorted not_older (insert_desc r l).
Proof.
  induction 1 as [|x l Hl IH Hx]; simpl.
  - by repeat constructor.
  - destruct (before (date_created x) (date_created r)) eqn:E.
    + constructor; [by constructor|].
      constructor; [by apply before_asym|].
      eapply Forall_impl; [exact Hx|]. intros y Hxy. unfold not_older in *.
      destruct (before (date_created r) (date_created y)) eqn:E'; [|done].
      by rewrite (before_trans _ _ _ E E') in Hxy.
    + constructor; [done|].
      rewrite insert_desc_perm. by constructor.
Qed.

Lemma newest_first_sorted l : StronglySorted not_older (newest_first l).
Proof.
  induction l as [|x l IH]; simpl; [constructor|]. by apply insert_desc_sorted.
Qed.

Lemma StronglySorted_lookup {A} (R : A -> A -> Prop) l i j x y :
  StronglySorted R l -> (i < j)%nat -> l !! i = Some x -> l !! j = Some y -> R x y.
Proof.
  intros Hl. revert i j. induction Hl as [|a l Hl IH Ha]; intros i j Hij Hi Hj; [done|].
  destruct j as [|j]; [lia|]. simpl in Hj. destruct i as [|i]; simpl in Hi.
  - injection Hi as <-. rewrite Forall_forall in Ha. apply Ha.
    by eapply list_elem_of_lookup_2.
  - apply (IH i j); [lia|done|done].
Qed.

(** The rows of [orders]: each is filed under its identifier, and no
    two have the same. *)
Lemma orders_rows t r :
  primary_keys t ->
  r ∈ map snd (map_to_list (orders t)) <-> orders t !! order_uid r = Some r.
Proof.
  intros (Hk & _). split.
  - intros Hin. apply list_elem_of_In, in_map_iff in Hin as ([k r'] & <- & Hin).
    apply list_elem_of_In, elem_of_map_to_list in Hin. simpl.
    by rewrite (Hk _ _ Hin).
  - intros Hr. apply list_elem_of_In, in_map_iff. exists (order_uid r, r).
    split; [done|]. by apply list_elem_of_In, elem_of_map_to_list.
Qed.

Lemma orders_rows_NoDup t :
  primary_keys t -> NoDup (map order_uid (map snd (map_to_list (orders t)))).
Proof.
  intros (Hk & _).
  assert (map order_uid (map snd (map_to_list (orders t)))
          = (map_to_list (orders t)).*1) as ->; [|apply NoDup_fst_map_to_list].
  assert (Forall (fun kr => orders t !! kr.1 = Some kr.2) (map_to_list (orders t))) as Hall.
  { rewrite Forall_forall. intros [k r] Hin. by apply elem_of_map_to_list. }
  induction Hall as [|[k r] l Hkr Hl IH]; [done|]. simpl in *.
  by rewrite IH, (Hk _ _ Hkr).
Qed.


End RecentOrders.


Section RistrettoCapacity.
Context {V : Type}.
Implicit Types c : ristretto.Cache V.

Lemma apply_set_within c kv :
  within_capacity c -> within_capacity (ristretto.apply_set c kv).
Proof.
  destruct kv as [k v]. unfold within_capacity, ristretto.apply_set. intros Hc.
  destruct (ristretto.store c !! k) eqn:Hk; [done|].
  destruct (ristretto.MaxCost c <? 1); [done|].
  destruct (Z.of_nat (size (ristretto.store c)) + 1 <=? ristretto.MaxCost c) eqn:Hroom.
  { simpl. rewrite map_size_insert_None by done. lia. }
  destruct (ristretto.policy c) as [|[|victim] script]; [done|done|].
  destruct (ristretto.store c !! victim) eqn:Hv; [|done]. simpl.
  rewrite map_size_insert_None by (by rewrite lookup_delete_ne by congruence).
  rewrite map_size_delete_Some by (by eexists).
  assert (size (ristretto.store c) <> 0%nat); [|lia].
  intros Hz. apply map_size_empty_inv in Hz. by rewrite Hz, lookup_empty in Hv.
Qed.

Lemma fold_apply_set_within l c :
  within_capacity c -> within_capacity (fold_left ristretto.apply_set l c).
Proof.
  revert c. induction l as [|kv l IH]; intros c Hc; simpl; [done|].
  by apply IH, apply_set_within.
Qed.

(** [Set] and then [Wait] keep the cache within its capacity. *)
Lemma Set_Wait_within c key value :
  within_capacity c ->
  within_capacity (ristretto.Wait (ristretto.Set_ key value c).2).
Proof.
  intros Hc. unfold ristretto.Wait. apply fold_apply_set_within.
  unfold within_capacity, ristretto.Set_ in *.
  destruct (ristretto.store c !! key) eqn:Hk; simpl.
  - rewrite map_size_insert_Some by (by eexists). done.
  - by destruct (ristretto.setBufSize <=? len (ristretto.setBuf c)).
Qed.

(** [Set] of a new key and then [Wait], on a cache with room and
    without pending sets: the key is added. *)
Lemma Set_Wait_room c key value :
  ristretto.setBuf c = [] ->
  ristretto.store c !! key = None ->
  Z.of_nat (size (ristretto.store c)) + 1 <= ristretto.MaxCost c ->
  ristretto.Wait (ristretto.Set_ key value c).2
  = ristretto.mkCache (<[key := value]> (ristretto.store c)) [] (ristretto.MaxCost c)
      (ristretto.policy c).
Proof.
  intros Hbuf Hk Hroom. unfold ristretto.Set_. rewrite Hk, Hbuf. simpl.
  unfold ristretto.Wait. simpl. rewrite Hk.
  replace (ristretto.MaxCost c <? 1) with false by lia.
  by replace (Z.of_nat (size (ristretto.store c)) + 1 <=? ristretto.MaxCost c)
    with true by lia.
Qed.

End RistrettoCapacity.

Section CacheCapacity.
Import ristrettocache.
Context {D : Type} `{DBService D}.
Implicit Types s : cacheService D.

Lemma Set_Wait_sound n (c : ristretto.Cache model.OrderDetails) key value :
  within_capacity c /\ ristretto.MaxCost c = n ->
  within_capacity (ristretto.Wait (ristretto.Set_ key value c).2) /\
  ristretto.MaxCost (ristretto.Wait (ristretto.Set_ key value c).2) = n /\
  ristretto.setBuf (ristretto.Wait (ristretto.Set_ key value c).2) = [].
Proof.
  intros [Hc Hn]. split; [by apply Set_Wait_within|].
  split; [by rewrite Set_Wait_MaxCost|apply Wait_setBuf].
Qed.

Lemma AddOrder_sound n s order : sound n s -> sound n (AddOrder s order).2.
Proof.
  intros (Hc & Hn & _). unfold sound, AddOrder.
  destruct (ristretto.Set_ (model.OrderID order) order (cache s)) as [b c] eqn:ESet.
  destruct (db_AddOrder (db s) order) as [e d]. simpl.
  replace c with (ristretto.Set_ (model.OrderID order) order (cache s)).2
    by (by rewrite ESet).
  by apply Set_Wait_sound.
Qed.

Lemma GetOrder_sound n s orderUID : sound n s -> sound n (GetOrder s orderUID).2.
Proof.
  intros (Hc & Hn & Hb). unfold sound, GetOrder, getFromCache, addToCache.
  destruct (ristretto.Get orderUID (cache s)); [done|]. simpl.
  destruct (db_GetOrder (db s) orderUID) as [[order|e] d]; simpl; [|done].
  destruct (ristretto.Set_ orderUID order (cache s)) as [b c] eqn:ESet. simpl.
  replace c with (ristretto.Set_ orderUID order (cache s)).2 by (by rewrite ESet).
  by apply Set_Wait_sound.
Qed.

Lemma warm_sound n s id : sound n s -> sound n (warm s id).
Proof.
  intros (Hc & Hn & Hb). unfold sound, warm.
  destruct (db_GetOrder (db s) id) as [[order|e] d]; simpl; [|done].
  destruct (ristretto.Set_ id order (cache s)) as [b c] eqn:ESet. simpl.
  replace c with (ristretto.Set_ id order (cache s)).2 by (by rewrite ESet).
  by apply Set_Wait_sound.
Qed.

Lemma fold_warm_sound n ids s : sound n s -> sound n (fold_left warm ids s).
Proof.
  revert s. induction ids as [|id ids IH]; intros s Hs; simpl; [done|].
  by apply IH, warm_sound.
Qed.

Lemma NewCacheService_sound script cacheSize (dbConn : D) s :
  0 < cacheSize ->
  NewCacheService script cacheSize dbConn = Ok s -> sound cacheSize s.
Proof.
  intros Hpos. unfold NewCacheService, ristretto.NewCache.
  destruct ((wrap64 (cacheSize * 10) =? 0) || (cacheSize =? 0) || (64 =? 0));
    [discriminate|].
  unfold loadCache. simpl.
  destruct (db_GetRecentOrderIDs dbConn cacheSize) as [[ids|e] d]; [|discriminate].
  simpl. intros [= <-]. apply fold_warm_sound.
  unfold sound, within_capacity. simpl. rewrite map_size_empty. split; [lia|done].
Qed.

(** X8: a service that [NewCacheService] has built with a positive
    capacity never caches more orders than its capacity: after any
    run of [AddOrder] and [GetOrder] calls the cache holds at most
    [cacheSize] entries, its capacity is [cacheSize], and no set is
    pending. *)
Theorem cache_stays_within_capacity (script : list ristretto.Admission)
    (cacheSize : Z) (dbConn : D) s (l : list StoreCall) :
  0 < cacheSize ->
  NewCacheService script cacheSize dbConn = Ok s ->
  Z.of_nat (size (ristretto.store (cache (store_calls s l)))) <= cacheSize /\
  ristretto.MaxCost (cache (store_calls s l)) = cacheSize /\
  ristretto.setBuf (cache (store_calls s l)) = [].
Proof.
  intros Hpos Hnew.
  assert (sound cacheSize (store_calls s l)) as (Hc & Hn & Hb).
  { apply NewCacheService_sound in Hnew; [|done].
    unfold store_calls. revert s Hnew.
    induction l as [|[order|orderUID] l IH]; intros s Hs; simpl; [done| |].
    - by apply IH, AddOrder_sound.
    - by apply IH, GetOrder_sound. }
  unfold within_capacity in Hc. rewrite Hn in Hc. done.
Qed.


End CacheCapacity.

Lemma cache_stays_within_capacity_witness :
  0 < 1024 /\
  exists s,
    ristrettocache.NewCacheService [] 1024 empty_db = Ok s /\
    Z.of_nat (size (ristretto.store
                      (ristrettocache.cache
                         (store_calls s
                            [CallAddOrder test_order;
                             CallGetOrder "b563feb7b2b84b6test"])))) <= 1024.
Proof.
  split; [lia|].
  assert (exists s, ristrettocache.NewCacheService [] 1024 empty_db = Ok s) as [s Hs].
  { eexists. vm_compute. reflexivity. }
  exists s. split; [exact Hs|].
  apply (cache_stays_within_capacity [] 1024 empty_db s
           [CallAddOrder test_order; CallGetOrder "b563feb7b2b84b6test"]);
    [lia|exact Hs].
Defined.


Section WarmUp.
Import data_base ristrettocache.

(** Without a fault to come, [GetOrder] leaves the service as it is,
    and on a consistent database it finds every stored order. *)
Lemma GetOrder_quiet (s : dbService) uid :
  faults s = [] -> (data_base.GetOrder s uid).2 = s.
Proof.
  intros Hf. unfold data_base.GetOrder. rewrite Hf. simpl.
  destruct (orders (tables s) !! uid) as [r|]; simpl; [|by destruct s; simpl in *; subst].
  destruct (delivery (tables s) !! delivery_id r); simpl;
    [|by destruct s; simpl in *; subst].
  destruct (payment (tables s) !! payment_id r); simpl;
    by destruct s; simpl in *; subst.
Qed.

Lemma GetOrder_quiet_result (s : dbService) uid :
  consistent s -> faults s = [] ->
  match orders (tables s) !! uid with
  | Some _ => exists o, (data_base.GetOrder s uid).1 = Ok o
  | None => (data_base.GetOrder s uid).1 = Err ErrNoRows
  end.
Proof.
  intros ([Hfo _] & _ & _) Hf. unfold data_base.GetOrder. rewrite Hf. simpl.
  destruct (orders (tables s) !! uid) as [r|] eqn:Hr; [|done].
  destruct (Hfo _ _ Hr) as [[a Ha] [p Hp]]. rewrite Ha, Hp. simpl. by eexists.
Qed.

(** What the cache holds of an id after the warm-up. *)
Lemma fold_warm_fills (dbConn : dbService) ids (s : main.App) :
  consistent dbConn -> faults dbConn = [] ->
  db s = dbConn ->
  ristretto.setBuf (cache s) = [] ->
  NoDup ids ->
  (forall id, id ∈ ids ->
     is_Some (orders (tables dbConn) !! id) /\
     ristretto.store (cache s) !! id = None) ->
  Z.of_nat (size (ristretto.store (cache s))) + Z.of_nat (List.length ids)
  <= ristretto.MaxCost (cache s) ->
  db (fold_left warm ids s) = dbConn /\
  forall uid,
    ristretto.store (cache (fold_left warm ids s)) !! uid
    = if decide (uid ∈ ids)
      then match (data_base.GetOrder dbConn uid).1 with
           | Ok o => Some o
           | Err _ => None
           end
      else ristretto.store (cache s) !! uid.
Proof.
  intros Hc Hf. revert s. induction ids as [|id ids IH]; intros s Hdb Hbuf Hnd Hids Hroom.
  { simpl. split; [done|]. intros uid.
    first [done|rewrite decide_False; [done|apply not_elem_of_nil]]. }
  apply NoDup_cons in Hnd as [Hnotin Hnd].
  destruct (Hids id) as [[r Hr] Hnew]; [by left|].
  pose proof (GetOrder_quiet_result dbConn id Hc Hf) as Hres. rewrite Hr in Hres.
  destruct Hres as [o Ho].
  pose proof (GetOrder_quiet dbConn id Hf) as Hq.
  assert (warm s id
          = mkService (ristretto.mkCache (<[id := o]> (ristretto.store (cache s))) []
                         (ristretto.MaxCost (cache s)) (ristretto.policy (cache s)))
              dbConn (maxSize s) (calls s ++ [DbGetOrder id None; CacheSet id; CacheWait]))
    as Hwarm.
  { unfold warm. change (db_GetOrder (db s) id) with (data_base.GetOrder (db s) id).
    rewrite Hdb. destruct (data_base.GetOrder dbConn id) as [res d] eqn:E.
    simpl in Ho, Hq. subst res d.
    destruct (ristretto.Set_ id o (cache s)) as [b c] eqn:ESet.
    replace c with (ristretto.Set_ id o (cache s)).2 by (by rewrite ESet).
    rewrite Set_Wait_room; [done|done|done|]. simpl in Hroom. lia. }
  simpl. rewrite Hwarm.
  match goal with |- context [fold_left warm ids ?s1] =>
    destruct (IH s1) as [Hdb' Hstore] end; try done.
  - intros id' Hin. split; [by apply Hids; right|]. simpl.
    apply lookup_insert_None. split; [by apply Hids; right|]. congruence.
  - simpl. rewrite map_size_insert_None by done. simpl in Hroom. lia.
  - split; [exact Hdb'|]. intros uid. rewrite Hstore. simpl.
    destruct (decide (uid ∈ ids)) as [Hin|Hout].
    + rewrite decide_True; [done|by right].
    + destruct (decide (uid = id)) as [->|Hne].
      * rewrite decide_True by (by left). by rewrite lookup_insert_eq, Ho.
      * rewrite decide_False; [by rewrite lookup_insert_ne|].
        intros Hin. apply elem_of_cons in Hin as [?|?]; done.
Qed.


End WarmUp.


Lemma two_digits_inv s x :
  two_digits s x = true ->
  exists a b, s = String a (String b EmptyString) /\ isDigit a = true /\
              isDigit b = true /\ digit_val a * 10 + digit_val b = x.
Proof.
  destruct s as [|a [|b [|c s]]]; simpl; try discriminate.
  intros H. apply andb_true_iff in H as [H Hx]. apply andb_true_iff in H as [Ha Hb].
  apply Z.eqb_eq in Hx. by exists a, b.
Qed.

(** The offset as [Format] writes it, read by [getfrac] and [getzone]. *)
Lemma getzone_offset (negative : bool) H Mi hh mm :
  two_digits H hh = true -> two_digits Mi mm = true -> hh <= 24 -> mm <= 60 ->
  let zone := (if negative then "-" else "+") +:+ H +:+ ":" +:+ Mi in
  time.getfrac zone = (0, zone) /\
  time.getzone zone
  = Some (time.FixedZone (if negative then - ((hh * 60 + mm) * 60)
                          else (hh * 60 + mm) * 60), EmptyString).
Proof.
  intros HH HM Hh Hm.
  apply two_digits_inv in HH as (a & b & -> & Ha & Hb & <-).
  apply two_digits_inv in HM as (c & d & -> & Hc & Hd & <-).
  destruct negative; simpl; rewrite Ha, Hb, Hc, Hd; simpl.
  - replace (24 <? digit_val a * 10 + digit_val b) with false by lia.
    by replace (60 <? digit_val c * 10 + digit_val d) with false by lia.
  - replace (24 <? digit_val a * 10 + digit_val b) with false by lia.
    by replace (60 <? digit_val c * 10 + digit_val d) with false by lia.
Qed.

(** [Parse] reads what [Format] wrote, to the second. *)
Lemma Parse_Format_to_the_second t :
  rfc3339_writable t -> time.Parse (time.Format t) = Some (to_the_second t).
Proof.
  destruct t as [Y M D h mi sec ns loc].
  intros ([HM [HD [Hh [Hmi [Hs _]]]]] & HY & Hoff). simpl in *.
  pose proof (daysIn_le_31 M Y) as H31.
  unfold time.Format, time.Parse, to_the_second. simpl time.Loc.
  simpl time.Year. simpl time.Month. simpl time.Day. simpl time.Hour.
  simpl time.Minute. simpl time.Second.
  rewrite (getyear_four _ Y) by (apply appendInt_four; lia).
  rewrite skip_literal.
  rewrite (getnum_two _ M) by (apply appendInt_two; lia).
  replace ((M <=? 0) || (12 <? M)) with false by lia.
  rewrite skip_literal.
  rewrite (getnum_two _ D) by (apply appendInt_two; lia).
  rewrite skip_literal.
  rewrite (getnum_two _ h) by (apply appendInt_two; lia).
  replace (24 <=? h) with false by lia.
  rewrite skip_literal.
  rewrite (getnum_two _ mi) by (apply appendInt_two; lia).
  replace (60 <=? mi) with false by lia.
  rewrite skip_literal.
  rewrite (getnum_two _ sec) by (apply appendInt_two; lia).
  replace (60 <=? sec) with false by lia.
  replace ((D <? 1) || (time.daysIn M Y <? D)) with false by lia.
  set (off := time.zone_offset loc) in *.
  destruct (off =? 0) eqn:Hz; [reflexivity|].
  set (zone := Z.quot off 60).
  assert (Z.abs zone <= 1499) as Hzone
    by (unfold zone; Z.to_euclidean_division_equations; lia).
  assert (0 <= Z.quot (Z.abs zone) 60 <= 24 /\ 0 <= Z.rem (Z.abs zone) 60 <= 59 /\
          Z.abs zone = Z.quot (Z.abs zone) 60 * 60 + Z.rem (Z.abs zone) 60)
    as (Hhh & Hmm & Hsplit) by (Z.to_euclidean_division_equations; lia).
  destruct (getzone_offset (zone <? 0) (time.appendInt (Z.quot (Z.abs zone) 60) 2)
              (time.appendInt (Z.rem (Z.abs zone) 60) 2)
              (Z.quot (Z.abs zone) 60) (Z.rem (Z.abs zone) 60))
    as [Hfrac Hgz]; [apply appendInt_two; lia|apply appendInt_two; lia|lia|lia|].
  cbv zeta in Hfrac, Hgz.
  rewrite Hfrac, Hgz. simpl. do 3 f_equal.
  destruct (zone <? 0) eqn:Hneg; lia.
Qed.

Lemma UnmarshalJSON_Format_to_the_second t :
  rfc3339_writable t ->
  model.UnmarshalJSON (model.token_text (time.Format t)) = Ok (to_the_second t).
Proof.
  intros Ht. unfold model.UnmarshalJSON.
  rewrite Trim_token_plain by apply plain_Format.
  by rewrite Parse_Format_to_the_second.
Qed.

Lemma dec_OrderDetails_enc_to_the_second strict o old saved v :
  valid_OrderDetails o -> rfc3339_writable (model.CreationTimestamp o) ->
  model.enc_OrderDetails o = Some v ->
  model.dec_OrderDetails strict v old saved
  = Ok (model.set_CreationTimestamp (to_the_second (model.CreationTimestamp o)) o, saved).
Proof.
  unfold model.enc_OrderDetails. rewrite read_token_MarshalJSON.
  destruct o, old. unfold valid_OrderDetails, utf8_valid. simpl.
  intros (H1 & H2 & H3 & H4 & H5 & H6 & H7 & H8 & H9 & H10 & H11 & H12 & H13) Ht [= <-].
  unfold model.dec_OrderDetails. rewrite dec_struct_object.
  decode_members. rewrite dec_AddressDetails_enc by done.
  decode_members. rewrite dec_PaymentDetails_enc by done.
  decode_members. rewrite dec_Products_enc by done.
  decode_members. rewrite H12.
  decode_members. rewrite UnmarshalJSON_Format_to_the_second by done.
  cbv -[to_valid_utf8 in_int64 to_the_second].
  by rewrite H1, H2, H3, H7, H8, H9, H10, H11, H13.
Qed.

(** X11: the codec round trip keeps the creation timestamp to the
    second.  For every order the codec keeps, with at most [maxItems]
    items and a creation timestamp that is a calendar time with a year
    of four digits in a zone less than 25 hours from UTC,
    [json.Marshal] succeeds and [ParseOrder] of its output is the
    order with its timestamp cut to the second and its zone's offset
    cut to the minute; every other field is read back as it was. *)
Theorem codec_roundtrip_to_the_second (o : model.OrderDetails) (maxItems : Z) :
  valid_OrderDetails o ->
  model.len_Products o <= maxItems ->
  rfc3339_writable (model.CreationTimestamp o) ->
  exists data,
    model.json_Marshal o = Ok data /\
    model.ParseOrder data maxItems
    = Ok (model.set_CreationTimestamp (to_the_second (model.CreationTimestamp o)) o).
Proof.
  intros Hv Hlen Ht.
  destruct (enc_OrderDetails_total o) as [v Hv'].
  exists (Doc v false). unfold model.json_Marshal. rewrite Hv'. split; [done|].
  unfold model.ParseOrder, model.json_Decoder_Decode, run_dec.
  rewrite (dec_OrderDetails_enc_to_the_second _ o) by done.
  replace (model.len_Products (model.set_CreationTimestamp _ o))
    with (model.len_Products o) by (by destruct o).
  by replace (maxItems <? model.len_Products o) with false by lia.
Qed.

(** X12: [json.Marshal] of an order never fails: the method
    [MarshalJSON] of the creation timestamp always writes a string
    token.  So [SendOrder] never returns its serialization error: it
    returns nil and writes one message when [WriteMessages] does not
    fail, and the error of [WriteMessages] when it does. *)
Theorem json_Marshal_never_fails (o : model.OrderDetails) :
  exists data,
    model.json_Marshal o = Ok data /\
    kafka.SendOrder false o = (None, [data]) /\
    kafka.SendOrder true o = (Some ErrConn, []).
Proof.
  destruct (enc_OrderDetails_total o) as [v Hv].
  exists (Doc v false). unfold kafka.SendOrder, model.json_Marshal.
  rewrite Hv. repeat split.
Qed.

Lemma test_order_valid : valid_OrderDetails test_order.
Proof.
  unfold valid_OrderDetails, valid_AddressDetails, valid_PaymentDetails, utf8_valid.
  simpl. repeat split; try reflexivity. repeat constructor.
Qed.

Lemma codec_roundtrip_to_the_second_witness :
  (valid_OrderDetails order_in_zone /\ model.len_Products order_in_zone <= 1 /\
   rfc3339_writable (model.CreationTimestamp order_in_zone)) /\
  exists data,
    model.json_Marshal order_in_zone = Ok data /\
    model.ParseOrder data 1
    = Ok (model.set_CreationTimestamp
            (time.Date 2021 11 26 9 52 19 0 (time.FixedZone 12600)) test_order).
Proof.
  assert (valid_OrderDetails order_in_zone) as Hv by exact test_order_valid.
  assert (model.len_Products order_in_zone <= 1) as Hl by (vm_compute; discriminate).
  assert (rfc3339_writable (model.CreationTimestamp order_in_zone)) as Ht.
  { unfold rfc3339_writable, time.normal. simpl.
    repeat split; try reflexivity; vm_compute; discriminate. }
  split; [done|]. exact (codec_roundtrip_to_the_second order_in_zone 1 Hv Hl Ht).
Defined.

Section Acceptance.

Lemma sticky_None {A} (m : Dec A) saved a :
  sticky m -> m saved = Ok (a, None) -> saved = None.
Proof.
  intros Hm Hr. destruct saved as [e|]; [|done].
  specialize (Hm e). by rewrite Hr in Hm.
Qed.

Lemma bind_Ok {A B} (m : Dec A) (k : A -> Dec B) saved b s' :
  dec_bind m k saved = Ok (b, s') ->
  exists a s1, m saved = Ok (a, s1) /\ k a s1 = Ok (b, s').
Proof.
  unfold dec_bind. destruct (m saved) as [[a s1]|e]; [|discriminate]. by exists a, s1.
Qed.

Lemma bind_set_Ok {A B} (m : Dec A) (g : A -> B) saved b s' :
  (x <-- m ;;; dec_ret (g x)) saved = Ok (b, s') ->
  exists a, m saved = Ok (a, s') /\ b = g a.
Proof.
  intros Hb. apply bind_Ok in Hb as (a & s1 & Hm & [= <- <-]). by exists a.
Qed.

Lemma accepts_set {A B} P (m : Dec A) (g : A -> B) :
  accepts_when P m -> accepts_when P (x <-- m ;;; dec_ret (g x)).
Proof.
  intros [Hc Hs]. split.
  - intros HP saved. destruct (Hc HP saved) as [a Ha].
    exists (g a). unfold dec_bind. by rewrite Ha.
  - intros saved b Hb. apply bind_set_Ok in Hb as (a & Hm & _). by eapply Hs.
Qed.

Lemma accepts_string field v old : accepts_when (string_or_null v) (dec_string field v old).
Proof.
  split.
  - intros Hv saved. destruct v; try done; by eexists.
  - intros saved a. destruct v; simpl; try done;
      unfold dec_bind, saveError, dec_ret; by destruct saved.
Qed.

Lemma accepts_int field v old : accepts_when (int_or_null v) (dec_int field v old).
Proof.
  split.
  - intros Hv saved. destruct v; try done; simpl in *; [by eexists|].
    rewrite Hv. by eexists.
  - intros saved a. destruct v; simpl; try done;
      try (unfold dec_bind, saveError, dec_ret; by destruct saved).
    destruct (in_int64 n); [done|]. unfold dec_bind, saveError, dec_ret. by destruct saved.
Qed.

Lemma accepts_unknown {A} k (old : A) : accepts_when False (model.unknown true k old).
Proof.
  split; [done|]. intros saved a. unfold model.unknown, dec_bind, saveError, dec_ret.
  by destruct saved.
Qed.

Lemma accepts_time v old : accepts_when (timestamp v) (model.dec_ISO8601Time v old).
Proof.
  split.
  - intros Hv saved. destruct v as [| | | |s| |]; try done. simpl in *.
    apply UnmarshalJSON_accepts in Hv as [t Ht]. rewrite Ht. by eexists.
  - intros saved a. destruct v as [| | | |s| |]; try done. simpl.
    destruct (model.UnmarshalJSON (model.token_text s)) as [t|e] eqn:E; [|done].
    intros _. apply UnmarshalJSON_accepts. by exists t.
Qed.

Lemma accepts_members {A} (fields : schema) (step : string -> json -> A -> Dec A) :
  (forall k v a, accepts_when (member_conforms fields k v) (step k v a)) ->
  (forall k v a, sticky (step k v a)) ->
  forall members old,
    accepts_when (Forall (fun kv => member_conforms fields kv.1 kv.2) members)
      (dec_members step members old).
Proof.
  intros Hstep Hsticky members.
  induction members as [|[k v] members IH]; intros old.
  { split; [by eexists|]. by constructor. }
  destruct (Hstep k v old) as [Hc Hs]. split.
  - intros Hall saved. apply Forall_cons in Hall as [Hkv Hall].
    destruct (Hc Hkv saved) as [a Ha]. simpl. unfold dec_bind. rewrite Ha.
    by apply IH.
  - intros saved a Hrun. simpl in Hrun. apply bind_Ok in Hrun as (a1 & s1 & H1 & Hrest).
    assert (s1 = None) as -> by (eapply sticky_None; [|exact Hrest];
                                 by apply sticky_dec_members).
    constructor; [by eapply Hs|]. by eapply IH.
Qed.

Lemma accepts_struct {A} (fields : schema) field (step : string -> json -> A -> Dec A)
    v old :
  (forall k v a, accepts_when (member_conforms fields k v) (step k v a)) ->
  (forall k v a, sticky (step k v a)) ->
  accepts_when (object_or_null fields v) (dec_struct field step v old).
Proof.
  intros Hstep Hsticky. destruct v; simpl;
    try (split; [done|intros saved a; unfold dec_bind, saveError, dec_ret; by destruct saved]).
  - split; [by eexists|done].
  - by apply accepts_members.
Qed.

Lemma accepts_elements {A} (Q : json -> Prop) (elem : json -> A -> Dec A) zero :
  (forall v a, accepts_when (Q v) (elem v a)) ->
  (forall v a, sticky (elem v a)) ->
  forall elements old,
    accepts_when (Forall Q elements) (dec_elements elem zero elements old).
Proof.
  intros Helem Hsticky elements.
  induction elements as [|v elements IH]; intros old.
  { split; [by eexists|]. by constructor. }
  destruct (Helem v (hd zero old)) as [Hc Hs]. split.
  - intros Hall saved. apply Forall_cons in Hall as [Hv Hall].
    destruct (Hc Hv saved) as [a Ha]. simpl. unfold dec_bind at 1. rewrite Ha.
    destruct (proj1 (IH (tl old)) Hall saved) as [l Hl].
    unfold dec_bind. rewrite Hl. by eexists.
  - intros saved l Hrun. simpl in Hrun.
    apply bind_Ok in Hrun as (a1 & s1 & H1 & Hrest).
    apply bind_set_Ok in Hrest as (l' & Hrest & _).
    assert (s1 = None) as -> by (eapply sticky_None; [|exact Hrest];
                                 by apply sticky_dec_elements).
    constructor; [by eapply Hs|]. by eapply IH.
Qed.

Lemma accepts_slice {A} (Q : json -> Prop) field (elem : json -> A -> Dec A) zero v old :
  (forall v a, accepts_when (Q v) (elem v a)) ->
  (forall v a, sticky (elem v a)) ->
  accepts_when (match v with
                | JArray elements => Forall Q elements
                | JNull => True
                | _ => False
                end) (dec_slice field elem zero v old).
Proof.
  intros Helem Hsticky. destruct v; simpl;
    try (split; [done|intros saved a; unfold dec_bind, saveError, dec_ret; by destruct saved]).
  - split; [by eexists|done].
  - by apply accepts_set, accepts_elements.
Qed.

(** One field: the decoded value is stored with the field's setter. *)
Ltac set_field :=
  lazymatch goal with
  | |- accepts_when ?P (dec_bind ?m (fun x => dec_ret (@?g x))) =>
      refine (accepts_set P m g _); cbn [snd]
  end.

Ltac scalar_field :=
  set_field;
  lazymatch goal with
  | |- accepts_when _ (dec_string _ _ _) => exact (accepts_string _ _ _)
  | |- accepts_when _ (dec_int _ _ _) => exact (accepts_int _ _ _)
  | |- accepts_when _ (model.dec_ISO8601Time _ _) => exact (accepts_time _ _)
  end.

(** Try the fields in their order. *)
Ltac next_field tac :=
  match goal with
  | |- context [if key_is ?a ?b then _ else _] => destruct (key_is a b); [tac|]
  end.

Ltac try_fields :=
  cbn [List.find fst snd];
  repeat next_field scalar_field;
  exact (accepts_unknown _ _).

Lemma accepts_AddressDetails k v a :
  accepts_when (member_conforms AddressDetails_schema k v)
    (model.step_AddressDetails true k v a).
Proof.
  unfold model.step_AddressDetails, member_conforms, AddressDetails_schema. try_fields.
Qed.

Lemma accepts_PaymentDetails k v p :
  accepts_when (member_conforms PaymentDetails_schema k v)
    (model.step_PaymentDetails true k v p).
Proof.
  unfold model.step_PaymentDetails, member_conforms, PaymentDetails_schema. try_fields.
Qed.

Lemma accepts_ProductItem k v i :
  accepts_when (member_conforms ProductItem_schema k v)
    (model.step_ProductItem true k v i).
Proof.
  unfold model.step_ProductItem, member_conforms, ProductItem_schema. try_fields.
Qed.

Lemma accepts_OrderDetails k v o :
  accepts_when (member_conforms OrderDetails_schema k v)
    (model.step_OrderDetails true k v o).
Proof.
  unfold model.step_OrderDetails, member_conforms, OrderDetails_schema.
  cbn [List.find fst snd].
  do 3 next_field scalar_field.
  destruct (key_is k "delivery").
  { set_field. refine (accepts_struct AddressDetails_schema _ _ _ _ _ _).
    - exact accepts_AddressDetails.
    - intros k' v' a. apply sticky_step_AddressDetails. }
  destruct (key_is k "payment").
  { set_field. refine (accepts_struct PaymentDetails_schema _ _ _ _ _ _).
    - exact accepts_PaymentDetails.
    - intros k' v' a. apply sticky_step_PaymentDetails. }
  destruct (key_is k "items").
  { set_field. refine (accepts_slice (object_or_null ProductItem_schema) _ _ _ _ _ _ _).
    - intros v' a. refine (accepts_struct ProductItem_schema _ _ _ _ _ _).
      + exact accepts_ProductItem.
      + intros k' v'' a'. apply sticky_step_ProductItem.
    - intros v' a. apply sticky_dec_struct. intros k' v'' a'. apply sticky_step_ProductItem. }
  do 8 next_field scalar_field.
  exact (accepts_unknown _ _).
Qed.

End Acceptance.

Section Counting.

Lemma dec_elements_length {A} (elem : json -> A -> Dec A) zero elements :
  forall old saved l s',
    dec_elements elem zero elements old saved = Ok (l, s') ->
    length l = length elements.
Proof.
  induction elements as [|v elements IH]; intros old saved l s' Hrun; simpl in Hrun.
  { by injection Hrun as <- _. }
  apply bind_Ok in Hrun as (a & s1 & _ & Hrest).
  apply bind_set_Ok in Hrest as (l' & Hrest & ->).
  simpl. f_equal. by eapply IH.
Qed.

Lemma dec_slice_len {A} field (elem : json -> A -> Dec A) zero v old saved s :
  dec_slice field elem zero v old saved = Ok (s, None) ->
  len (slice_elems s)
  = match v with
    | JArray elements => len elements
    | JNull => 0
    | _ => len (slice_elems old)
    end.
Proof.
  destruct v; simpl;
    try (unfold dec_bind, saveError, dec_ret; by destruct saved).
  - by intros [= <- _].
  - intros Hrun. apply bind_set_Ok in Hrun as (l & Hrun & ->).
    unfold len. simpl. f_equal. by eapply dec_elements_length.
Qed.

Lemma key_is_other k a b :
  key_is k a = true -> foldName a <> foldName b -> key_is k b = false.
Proof.
  unfold key_is. intros Ha Hab. apply String.eqb_eq in Ha.
  destruct (String.eqb _ _) eqn:Hb; [|done].
  apply String.eqb_eq in Hb. congruence.
Qed.

Ltac other_field k name :=
  let E := fresh "E" in
  let Hrun := fresh "Hrun" in
  destruct (key_is k name) eqn:E;
  [try rewrite (key_is_other k name "items" E) by (vm_compute; discriminate);
   intros Hrun; apply bind_set_Ok in Hrun as (? & _ & ->); reflexivity|].

(** One member changes the number of products only under the key
    [items]. *)
Lemma step_OrderDetails_count strict k v o saved o' :
  model.step_OrderDetails strict k v o saved = Ok (o', None) ->
  model.len_Products o'
  = if key_is k "items"
    then match v with
         | JArray elements => len elements
         | JNull => 0
         | _ => model.len_Products o
         end
    else model.len_Products o.
Proof.
  unfold model.step_OrderDetails. destruct o.
  other_field k "order_uid". other_field k "track_number". other_field k "entry".
  other_field k "delivery". other_field k "payment".
  destruct (key_is k "items") eqn:Hitems.
  { intros Hrun. apply bind_set_Ok in Hrun as (x & Hrun & ->).
    apply dec_slice_len in Hrun. exact Hrun. }
  other_field k "locale". other_field k "internal_signature".
  other_field k "customer_id". other_field k "delivery_service".
  other_field k "shardkey". other_field k "sm_id". other_field k "date_created".
  other_field k "oof_shard".
  unfold model.unknown. destruct strict.
  - unfold dec_bind, saveError, dec_ret. by destruct saved.
  - by intros [= <- _].
Qed.

Lemma dec_members_count strict members :
  forall o saved o',
    dec_members (model.step_OrderDetails strict) members o saved = Ok (o', None) ->
    model.len_Products o' = products_count members (model.len_Products o).
Proof.
  induction members as [|[k v] members IH]; intros o saved o' Hrun; simpl in Hrun.
  { by injection Hrun as <- _. }
  apply bind_Ok in Hrun as (o1 & s1 & Hstep & Hrest).
  assert (s1 = None) as ->.
  { eapply sticky_None; [|exact Hrest].
    apply sticky_dec_members. intros. apply sticky_step_OrderDetails. }
  apply step_OrderDetails_count in Hstep. apply IH in Hrest.
  rewrite Hrest. simpl. by rewrite Hstep.
Qed.

Lemma dec_OrderDetails_count strict v o' :
  model.dec_OrderDetails strict v model.zero_OrderDetails None = Ok (o', None) ->
  model.len_Products o' = count_products v.
Proof.
  unfold model.dec_OrderDetails, dec_struct, count_products.
  destruct v; try done.
  - by intros [= <-].
  - apply dec_members_count.
Qed.

Lemma run_dec_Ok {A} (m : Dec A) a : run_dec m = Ok a <-> m None = Ok (a, None).
Proof.
  unfold run_dec. destruct (m None) as [[a' [e|]]|e]; split; try done.
  - by intros [= ->].
  - by intros [= ->].
Qed.

End Counting.

Section Lenient.

Lemma refines_set {A B} (m1 m2 : Dec A) (g : A -> B) :
  refines m1 m2 -> refines (x <-- m1 ;;; dec_ret (g x)) (x <-- m2 ;;; dec_ret (g x)).
Proof.
  intros Hm saved b Hrun. apply bind_set_Ok in Hrun as (a & Hrun & ->).
  unfold dec_bind. by rewrite (Hm _ _ Hrun).
Qed.

Lemma refines_refl {A} (m : Dec A) : refines m m.
Proof. by intros saved a. Qed.

Lemma refines_unknown {A} k (old : A) :
  refines (model.unknown true k old) (model.unknown false k old).
Proof.
  intros saved a. unfold model.unknown, dec_bind, saveError, dec_ret. by destruct saved.
Qed.

Lemma refines_members {A} (step1 step2 : string -> json -> A -> Dec A) :
  (forall k v a, refines (step1 k v a) (step2 k v a)) ->
  (forall k v a, sticky (step1 k v a)) ->
  forall members old, refines (dec_members step1 members old) (dec_members step2 members old).
Proof.
  intros Hstep Hsticky members.
  induction members as [|[k v] members IH]; intros old saved a Hrun; [done|].
  simpl in *. apply bind_Ok in Hrun as (a1 & s1 & H1 & Hrest).
  assert (s1 = None) as ->.
  { eapply sticky_None; [|exact Hrest]. by apply sticky_dec_members. }
  unfold dec_bind. rewrite (Hstep _ _ _ _ _ H1). by apply IH.
Qed.

Lemma refines_struct {A} field (step1 step2 : string -> json -> A -> Dec A) v old :
  (forall k v a, refines (step1 k v a) (step2 k v a)) ->
  (forall k v a, sticky (step1 k v a)) ->
  refines (dec_struct field step1 v old) (dec_struct field step2 v old).
Proof.
  intros Hstep Hsticky. destruct v; simpl; try apply refines_refl.
  by apply refines_members.
Qed.

Lemma refines_elements {A} (elem1 elem2 : json -> A -> Dec A) zero :
  (forall v a, refines (elem1 v a) (elem2 v a)) ->
  (forall v a, sticky (elem1 v a)) ->
  forall elements old,
    refines (dec_elements elem1 zero elements old) (dec_elements elem2 zero elements old).
Proof.
  intros Helem Hsticky elements.
  induction elements as [|v elements IH]; intros old saved l Hrun; [done|].
  simpl in *. apply bind_Ok in Hrun as (a1 & s1 & H1 & Hrest).
  apply bind_set_Ok in Hrest as (l' & Hrest & ->).
  assert (s1 = None) as ->.
  { eapply sticky_None; [|exact Hrest]. by apply sticky_dec_elements. }
  unfold dec_bind. rewrite (Helem _ _ _ _ H1). by rewrite (IH _ _ _ Hrest).
Qed.

Lemma refines_slice {A} field (elem1 elem2 : json -> A -> Dec A) zero v old :
  (forall v a, refines (elem1 v a) (elem2 v a)) ->
  (forall v a, sticky (elem1 v a)) ->
  refines (dec_slice field elem1 zero v old) (dec_slice field elem2 zero v old).
Proof.
  intros Helem Hsticky. destruct v; simpl; try apply refines_refl.
  by apply refines_set, refines_elements.
Qed.

Ltac lenient_fields :=
  repeat match goal with
         | |- context [if key_is ?a ?b then _ else _] =>
             destruct (key_is a b); [exact (refines_refl _)|]
         end;
  exact (refines_unknown _ _).

Lemma refines_AddressDetails k v a :
  refines (model.step_AddressDetails true k v a) (model.step_AddressDetails false k v a).
Proof. unfold model.step_AddressDetails. lenient_fields. Qed.

Lemma refines_PaymentDetails k v p :
  refines (model.step_PaymentDetails true k v p) (model.step_PaymentDetails false k v p).
Proof. unfold model.step_PaymentDetails. lenient_fields. Qed.

Lemma refines_ProductItem k v i :
  refines (model.step_ProductItem true k v i) (model.step_ProductItem false k v i).
Proof. unfold model.step_ProductItem. lenient_fields. Qed.

Lemma refines_OrderDetails k v o :
  refines (model.step_OrderDetails true k v o) (model.step_OrderDetails false k v o).
Proof.
  unfold model.step_OrderDetails.
  do 3 (match goal with
        | |- context [if key_is ?a ?b then _ else _] =>
            destruct (key_is a b); [exact (refines_refl _)|]
        end).
  destruct (key_is k "delivery").
  { refine (refines_set _ _ _ _). refine (refines_struct _ _ _ _ _ _ _).
    - exact refines_AddressDetails.
    - intros k' v' a. apply sticky_step_AddressDetails. }
  destruct (key_is k "payment").
  { refine (refines_set _ _ _ _). refine (refines_struct _ _ _ _ _ _ _).
    - exact refines_PaymentDetails.
    - intros k' v' a. apply sticky_step_PaymentDetails. }
  destruct (key_is k "items").
  { refine (refines_set _ _ _ _). refine (refines_slice _ _ _ _ _ _ _ _).
    - intros v' a. refine (refines_struct _ _ _ _ _ _ _).
      + exact refines_ProductItem.
      + intros k' v'' a'. apply sticky_step_ProductItem.
    - intros v' a. apply sticky_dec_struct. intros k' v'' a'. apply sticky_step_ProductItem. }
  lenient_fields.
Qed.

Lemma refines_dec_OrderDetails v o :
  refines (model.dec_OrderDetails true v o) (model.dec_OrderDetails false v o).
Proof.
  unfold model.dec_OrderDetails. refine (refines_struct _ _ _ _ _ _ _).
  - exact refines_OrderDetails.
  - intros k' v' a. apply sticky_step_OrderDetails.
Qed.

End Lenient.

Section Parsing.


(** X14: an order that [ParseOrder] returns for a payload consisting of
    one JSON value is the order that the listener's [decodeOrder] returns
    for it: the listener refuses nothing that [ParseOrder] accepts, and
    reads it the same. *)
Theorem ParseOrder_accepted_by_listener (v : json) (maxItems : Z)
    (order : model.OrderDetails) :
  model.ParseOrder (Doc v false) maxItems = Ok order ->
  kafka.decodeOrder (Doc v false) = Ok order.
Proof.
  unfold model.ParseOrder, model.json_Decoder_Decode, kafka.decodeOrder,
    model.json_Unmarshal.
  destruct (run_dec (model.dec_OrderDetails true _ _)) as [o|e] eqn:Hrun; [|done].
  destruct (maxItems <? _); [done|]. intros [= ->].
  apply run_dec_Ok in Hrun. apply refines_dec_OrderDetails in Hrun.
  by rewrite (proj2 (run_dec_Ok _ _) Hrun).
Qed.

End Parsing.

Lemma ParseOrder_accepted_by_listener_witness :
  exists order,
    model.ParseOrder (Doc short_order false) 2 = Ok order /\
    kafka.decodeOrder (Doc short_order false) = Ok order.
Proof.
  eexists. split.
  - vm_compute. reflexivity.
  - apply (ParseOrder_accepted_by_listener short_order 2). vm_compute. reflexivity.
Defined.

Section Pipeline.
Context {D : Type} `{ristrettocache.DBService D}.


End Pipeline.

